(** * create_flask_project.py: the scaffold generator, embedded and verified

    The development follows the script top-down:
    - [Py]: the Python [str] methods and [textwrap.dedent] the script calls;
    - [Pathlib]: pure POSIX paths ([Path.parts], the [/] operator, [str]);
    - the host ([Host]), the mutable world ([World]: file system, console)
      and the monad [M] in which the script's functions run
      ([sys.exit] and uncaught exceptions are results of their own);
    - the script's functions, under the names they have in the source;
    - the theorems about them. *)

From Stdlib Require Import ZArith Ascii String List Lia.
From stdpp Require Import base option list gmap strings.

Local Open Scope Z_scope.

(** ** Python strings

    A [str] is modelled as a [string] whose characters are the code points
    below 256; the classification of characters (white space, line
    boundaries, case) is CPython's on that range. *)

Module Py.

Definition chr (n : N) : ascii := ascii_of_N n.
Definition ord (c : ascii) : N := N_of_ascii c.

Definition nl : ascii := chr 10.
Definition cr : ascii := chr 13.
Definition NL : string := String nl EmptyString.
(** The double quote character, for the literals of the script that hold one. *)
Definition dq : string := String (chr 34) EmptyString.

Definition in_range (lo hi : N) (c : ascii) : bool :=
  ((lo <=? ord c) && (ord c <=? hi))%N.

(** [str.isspace] of one character: TAB..CR, FS..US, SPACE, NEL and NBSP. *)
Definition isspace (c : ascii) : bool :=
  in_range 9 13 c || in_range 28 32 c || (ord c =? 133)%N || (ord c =? 160)%N.

(** The line boundaries of [str.splitlines]: LF, VT, FF, CR, FS, GS, RS, NEL. *)
Definition is_linebreak (c : ascii) : bool :=
  in_range 10 13 c || in_range 28 30 c || (ord c =? 133)%N.

Definition is_nl (c : ascii) : bool := (ord c =? 10)%N.

(** [str.lower] of one character: A..Z and the upper-case letters of Latin-1
    (all of 192..222 but the multiplication sign, 215). *)
Definition lower_char (c : ascii) : ascii :=
  if in_range 65 90 c || (in_range 192 222 c && negb (ord c =? 215)%N)
  then chr (ord c + 32) else c.

Fixpoint lower (s : string) : string :=
  match s with
  | EmptyString => EmptyString
  | String c s' => String (lower_char c) (lower s')
  end.

Fixpoint lstrip (s : string) : string :=
  match s with
  | EmptyString => EmptyString
  | String c s' => if isspace c then lstrip s' else s
  end.

(** [s.rstrip(chars)] for the set of characters [p]. *)
Fixpoint rstrip_with (p : ascii -> bool) (s : string) : string :=
  match s with
  | EmptyString => EmptyString
  | String c s' =>
      match rstrip_with p s' with
      | EmptyString => if p c then EmptyString else String c EmptyString
      | r => String c r
      end
  end.

Definition rstrip (s : string) : string := rstrip_with isspace s.
(** [s.rstrip("\n")] *)
Definition rstrip_nl (s : string) : string := rstrip_with is_nl s.
Definition strip (s : string) : string := rstrip (lstrip s).

Fixpoint startswith (s p : string) : bool :=
  match p, s with
  | EmptyString, _ => true
  | String a p', String b s' => bool_decide (a = b) && startswith s' p'
  | String _ _, EmptyString => false
  end.

Fixpoint endswith_from (s p : string) : bool :=
  bool_decide (s = p) ||
  match s with
  | EmptyString => false
  | String _ s' => endswith_from s' p
  end.
Definition endswith (s p : string) : bool := endswith_from s p.

(** [sub in s] *)
Fixpoint contains (s sub : string) : bool :=
  startswith s sub ||
  match s with
  | EmptyString => false
  | String _ s' => contains s' sub
  end.

(** [s * n] *)
Fixpoint repeat_str (s : string) (n : nat) : string :=
  match n with
  | O => EmptyString
  | S n' => s +:+ repeat_str s n'
  end.

(** [sep.join(l)] *)
Fixpoint join (sep : string) (l : list string) : string :=
  match l with
  | [] => EmptyString
  | [x] => x
  | x :: l' => x +:+ sep +:+ join sep l'
  end.

(** [s.split(sep)] for a one-character separator: never empty. *)
Fixpoint split_on (sep : ascii) (s : string) : list string :=
  match s with
  | EmptyString => [EmptyString]
  | String c s' =>
      if bool_decide (c = sep) then EmptyString :: split_on sep s'
      else match split_on sep s' with
           | [] => [String c EmptyString]
           | l :: ls => String c l :: ls
           end
  end.

(** [s.splitlines()]: the text is cut at each line boundary, CR LF counting
    as one; no empty last line is produced for a text that ends in one. *)
Fixpoint splitlines (s : string) : list string :=
  match s with
  | EmptyString => []
  | String c s' =>
      if is_linebreak c then
        match s' with
        | String d s'' =>
            if bool_decide (c = cr) && bool_decide (d = nl)
            then EmptyString :: splitlines s''
            else EmptyString :: splitlines s'
        | EmptyString => [EmptyString]
        end
      else match splitlines s' with
           | [] => [String c EmptyString]
           | l :: ls => String c l :: ls
           end
  end.

(** *** [textwrap.dedent] *)

Definition is_blank (c : ascii) : bool := (ord c =? 32)%N || (ord c =? 9)%N.

Fixpoint all_chars (p : ascii -> bool) (s : string) : bool :=
  match s with
  | EmptyString => true
  | String c s' => p c && all_chars p s'
  end.

(** The leading run of spaces and tabs of a line. *)
Fixpoint leading_blank (s : string) : string :=
  match s with
  | EmptyString => EmptyString
  | String c s' => if is_blank c then String c (leading_blank s') else EmptyString
  end.

Fixpoint common_prefix (a b : string) : string :=
  match a, b with
  | String x a', String y b' =>
      if bool_decide (x = y) then String x (common_prefix a' b') else EmptyString
  | _, _ => EmptyString
  end.

(** One turn of the loop over [indents]. *)
Definition margin_step (margin : option string) (indent : string) : option string :=
  match margin with
  | None => Some indent
  | Some m =>
      if startswith indent m then Some m
      else if startswith m indent then Some indent
      else Some (common_prefix m indent)
  end.

Fixpoint drop_prefix (p s : string) : string :=
  match p, s with
  | EmptyString, _ => s
  | String _ p', String _ s' => drop_prefix p' s'
  | String _ _, EmptyString => EmptyString
  end.

Definition dedent (text : string) : string :=
  (* _whitespace_only_re.sub('', text) *)
  let lines := map (fun l => if all_chars is_blank l then EmptyString else l)
                   (split_on nl text) in
  (* _leading_whitespace_re.findall(text) *)
  let indents := map leading_blank
                     (filter (fun l => l <> EmptyString) lines) in
  let margin := fold_left margin_step indents None in
  match margin with
  | Some (String c m) =>
      let mg := String c m in
      join NL (map (fun l => if startswith l mg then drop_prefix mg l else l) lines)
  | _ => join NL lines
  end.

End Py.

(** ** Pure POSIX paths ([pathlib])

    A path is its [parts]: the root first for an absolute path, then the
    components. [..] is kept as a component, as pathlib keeps it. *)

Module Pathlib.
Import Py.

Abbreviation Path := (list string).

Definition slash : ascii := chr 47.

Definition is_root (s : string) : bool :=
  bool_decide (s = "/") || bool_decide (s = "//").

(** The root of a path string: two leading slashes are kept apart from one,
    three or more collapse to one. *)
Definition root_of (s : string) : option string :=
  match s with
  | String a (String b (String c _)) =>
      if bool_decide (a = slash) then
        if bool_decide (b = slash) && negb (bool_decide (c = slash))
        then Some "//" else Some "/"
      else None
  | String a (String b EmptyString) =>
      if bool_decide (a = slash) then
        if bool_decide (b = slash) then Some "//" else Some "/"
      else None
  | String a EmptyString => if bool_decide (a = slash) then Some "/" else None
  | EmptyString => None
  end.

(** Empty components and [.] are dropped. *)
Definition components (s : string) : Path :=
  filter (fun c => c <> EmptyString /\ c <> ".") (split_on slash s).

Definition parse (s : string) : Path :=
  match root_of s with
  | Some r => r :: components s
  | None => components s
  end.

Definition is_absolute (p : Path) : bool :=
  match p with
  | r :: _ => is_root r
  | [] => false
  end.

(** [p / s]: an absolute right operand replaces the left one. *)
Definition joinpath (p : Path) (s : string) : Path :=
  let q := parse s in
  if is_absolute q then q else p ++ q.

(** [str(p)] *)
Definition to_str (p : Path) : string :=
  match p with
  | [] => "."
  | r :: rest => if is_root r then r +:+ join "/" rest else join "/" p
  end.

(** [p.relative_to(base)]: [None] is the [ValueError]. *)
Fixpoint relative_to (p base : Path) : option Path :=
  match base, p with
  | [], _ => Some p
  | b :: base', x :: p' => if bool_decide (b = x) then relative_to p' base' else None
  | _ :: _, [] => None
  end.

(** [p.parent] *)
Definition parent (p : Path) : Path :=
  match p with
  | [r] => if is_root r then p else []
  | _ => removelast p
  end.

End Pathlib.

Declare Scope path_scope.
Delimit Scope path_scope with path.
Infix "/" := Pathlib.joinpath : path_scope.

(** ** The host and the world *)

Import Py Pathlib.

(** What the script reads of its host and never changes. *)
Record Host := mkHost {
  home : Path;                        (* Path.home() *)
  which : string -> bool;             (* shutil.which(cmd) is not None *)
  pyenv_virtualenvs : option Z;       (* return code of [pyenv virtualenvs]; None: OSError *)
  platform_system : string;           (* platform.system() *)
  platform_release : string;          (* platform.release() *)
  platform_python_version : string;   (* platform.python_version() *)
  environ : string -> option string   (* os.environ.get *)
}.

(** A file holds its text and whether it is read-only. *)
Inductive node := Dir | File (text : string) (read_only : bool).

Abbreviation FS := (gmap (list string) node).

Record World := mkWorld {
  fs : FS;                 (* the file system *)
  stdin : list string;     (* the lines still to be read, without their newline *)
  stdout : list string     (* what was written to the console, oldest first *)
}.

Inductive exn := EOFError | OSError | ValueError.

(** A call returns, leaves through [sys.exit], or raises. *)
Inductive Res (A : Type) :=
| Ret (a : A) (w : World)
| Exit (code : Z) (w : World)
| Raise (e : exn) (w : World).
Arguments Ret {A} a w.
Arguments Exit {A} code w.
Arguments Raise {A} e w.

Definition M (A : Type) : Type := World -> Res A.

Definition ret {A} (a : A) : M A := fun w => Ret a w.
Definition bind {A B} (m : M A) (k : A -> M B) : M B :=
  fun w => match m w with
           | Ret a w' => k a w'
           | Exit c w' => Exit c w'
           | Raise e w' => Raise e w'
           end.

Declare Scope py_scope.
Delimit Scope py_scope with py.
Notation "x <- m ;; k" := (bind m (fun x => k))
  (at level 100, m at next level, right associativity) : py_scope.
Notation "m ;; k" := (bind m (fun _ => k))
  (at level 100, right associativity) : py_scope.
Local Open Scope py_scope.

(** The status the process ends with: an uncaught exception ends it with 1. *)
Definition exit_status {A} (r : Res A) : Z :=
  match r with
  | Ret _ _ => 0
  | Exit c _ => c
  | Raise _ _ => 1
  end.

Definition world_of {A} (r : Res A) : World :=
  match r with
  | Ret _ w | Exit _ w | Raise _ w => w
  end.

Definition emit (s : string) (w : World) : World :=
  mkWorld (fs w) (stdin w) (stdout w ++ [s]).

(** [print(s)] *)
Definition print (s : string) : M unit := fun w => Ret tt (emit (s +:+ NL) w).

(** [input(prompt)]: the end of the input raises [EOFError]. *)
Definition input (prompt : string) : M string :=
  fun w => match stdin w with
           | [] => Raise EOFError (emit prompt w)
           | l :: rest => Ret l (mkWorld (fs w) rest (stdout w ++ [prompt]))
           end.

Definition sys_exit {A} (code : Z) : M A := fun w => Exit code w.
Definition raise {A} (e : exn) : M A := fun w => Raise e w.

(** *** File system calls

    The file system is a map from paths, taken as they are written, to
    directories and text files. It is the operating system's on the paths
    that [canonical] accepts: the system resolves a component [..] through
    the directory above it, and refuses a name that has a NUL character or
    more than 255 bytes and a path of more than 4095 bytes; the calls below
    take every component as a name. A file holds text: a file that is not
    UTF-8, on which [read_text] raises [UnicodeDecodeError], is not in the
    model. *)

(** The bytes of a text in UTF-8. *)
Fixpoint utf8_length (s : string) : N :=
  match s with
  | EmptyString => 0
  | String c s' => ((if ord c <? 128 then 1 else 2) + utf8_length s')%N
  end.

(** A component that names an entry of its directory. *)
Definition is_name (s : string) : bool :=
  negb (bool_decide (s = "..")) &&
  all_chars (fun c => negb (ord c =? 0)%N) s &&
  (utf8_length s <=? 255)%N.

Definition canonical (p : Path) : bool :=
  forallb is_name p && (utf8_length (to_str p) <? 4096)%N.


(** [p.exists()] *)
Definition path_exists (p : Path) : M bool :=
  fun w => Ret (bool_decide (is_Some (fs w !! p))) w.

Definition has_entries (m : FS) (p : Path) : bool :=
  bool_decide (Exists (fun q => q <> p /\ parent q = p) (map fst (map_to_list m))).

(** [any(p.iterdir())]: listing what is not a directory raises. *)
Definition iterdir_any (p : Path) : M bool :=
  fun w => match fs w !! p with
           | Some Dir => Ret (has_entries (fs w) p) w
           | _ => Raise OSError w
           end.

(** The chain of directories down to [pre ++ rest]; [None] when a file is
    in the way. *)
Fixpoint mkdir_chain (pre rest : Path) (m : FS) : option FS :=
  match rest with
  | [] => Some m
  | x :: rest' =>
      let p := pre ++ [x] in
      match m !! p with
      | Some (File _ _) => None
      | Some Dir => mkdir_chain p rest' m
      | None => mkdir_chain p rest' (<[p := Dir]> m)
      end
  end.

(** [p.mkdir(parents=True, exist_ok=True)] *)
Definition mkdir_parents (p : Path) : M unit :=
  fun w => match mkdir_chain [] p (fs w) with
           | Some m => Ret tt (mkWorld m (stdin w) (stdout w))
           | None => Raise OSError w
           end.

(** [p.write_text(text, encoding="utf-8")] on a POSIX host: the file is
    created or truncated; a directory at [p], a missing parent directory
    or a read-only file raises. *)
Definition path_write_text (p : Path) (text : string) : M unit :=
  fun w => match fs w !! p, fs w !! parent p with
           | Some Dir, _ => Raise OSError w
           | Some (File _ true), _ => Raise OSError w
           | Some (File _ false), _ =>
               Ret tt (mkWorld (<[p := File text false]> (fs w)) (stdin w) (stdout w))
           | None, Some Dir =>
               Ret tt (mkWorld (<[p := File text false]> (fs w)) (stdin w) (stdout w))
           | None, _ => Raise OSError w
           end.

(** Reading in text mode translates CR LF and CR to LF. *)
Fixpoint universal_newlines (s : string) : string :=
  match s with
  | EmptyString => EmptyString
  | String c s' =>
      if bool_decide (c = cr) then
        match s' with
        | String d s'' =>
            if bool_decide (d = nl) then String nl (universal_newlines s'')
            else String nl (universal_newlines s')
        | EmptyString => NL
        end
      else String c (universal_newlines s')
  end.

(** [p.read_text(encoding="utf-8")] *)
Definition path_read_text (p : Path) : M string :=
  fun w => match fs w !! p with
           | Some (File text _) => Ret (universal_newlines text) w
           | _ => Raise OSError w
           end.

(** ** The script *)

Section Script.

(** The host the script runs on; [HOME] is [home h]. *)
Variable h : Host.

Definition print_header : M unit :=
  print (repeat_str "=" 72) ;;
  print "Automated Flask Project Scaffold" ;;
  print (repeat_str "=" 72) ;;
  print (strip (dedent "
            This helper will create a new Flask project in your home directory,
            with a clean, opinionated structure and starter code.

            It supports two workflows:
              1) pyenv + Poetry
              2) pyenv + pyenv-virtualenv + requirements.txt

            IMPORTANT:
            - This script assumes you already configured Git & GitHub,
              installed pyenv, and selected a default Python version.
            - It will NOT install or configure those tools for you.
            - Dependency installation (Flask, Flask-Login, etc.) must be
              done manually in your active virtual environment after the
              scaffold is created.
            ")) ;;
  print NL.

(** The truth value of [os.environ.get(name)]. *)
Definition env_truthy (name : string) : bool :=
  match environ h name with
  | Some (String _ _) => true
  | _ => false
  end.

Definition detect_platform : M string :=
  let system := lower (platform_system h) in
  if contains (lower (platform_release h)) "microsoft" || env_truthy "WSL_DISTRO_NAME"
  then ret "wsl"
  else if bool_decide (system = "darwin") then ret "macos"
  else if bool_decide (system = "linux") then
    fun w =>
      match path_read_text (parse "/etc/os-release") w with
      | Ret data w' =>
          if contains (lower data) "ubuntu" then Ret "ubuntu" w' else Ret "linux" w'
      | Raise OSError w' => Ret "linux" w'
      | r => r
      end
  else if bool_decide (system = "windows") then ret "windows"
  else ret "other".

Definition have_command (cmd : string) : bool := which h cmd.

Definition check_pyenv : bool := have_command "pyenv".

Definition check_pyenv_virtualenv : bool :=
  if negb check_pyenv then false
  else match pyenv_virtualenvs h with
       | Some returncode => (returncode =? 0)%Z
       | None => false
       end.

Definition check_poetry : bool := have_command "poetry".

Definition show_prereq_instructions (option : string) : M unit :=
  print (NL +:+ "Prerequisite check failed for option:" +:+ " " +:+ option) ;;
  print (NL +:+ "Before using this scaffold, please ensure that you have:") ;;
  print "  1. Git & GitHub configured (SSH keys, per-account gitconfig, etc.)" ;;
  print "  2. A default Python version set via pyenv." ;;
  (if bool_decide (option = "1") then
     print "  3. Poetry installed and on your PATH."
   else if bool_decide (option = "2") then
     print "  3. pyenv-virtualenv installed and working."
   else ret tt) ;;
  print (NL +:+ "You can use these guides and helper repositories:") ;;
  print "- Git & GitHub configuration (scripts + guide):" ;;
  print "  https://github.com/GitauHarrison/git_github_configurations" ;;
  print "  https://github.com/GitauHarrison/notes_on_general_topics/blob/main/02_automate_git_and_github_setup.md" ;;
  print "- Python version & pyenv / pyenv-virtualenv setup helper:" ;;
  print "  https://github.com/GitauHarrison/install_new_python_version_in_your_os?tab=readme-ov-file#python-version--pyenv-virtualenv-setup-helper" ;;
  print "- Manual guide for newer Python + virtualenv on macOS:" ;;
  print "  https://github.com/GitauHarrison/notes_on_general_topics/blob/main/01_new_python_version_macOS_virtualenv.md" ;;
  print "- Working with virtual environments in Flask:" ;;
  print "  https://github.com/GitauHarrison/notes_on_general_topics/blob/main/03_working_with_virtual_envs_in_flask.md".

Definition ensure_prereqs (option : string) : M bool :=
  let has_pyenv := check_pyenv in
  let has_pyenv_venv := check_pyenv_virtualenv in
  let has_poetry := check_poetry in
  let ok := true in
  ok <- (if negb has_pyenv then
           print "- pyenv not found on PATH." ;; ret false
         else ret ok) ;;
  ok <- (if bool_decide (option = "1") then
           if negb has_poetry then
             print "- Poetry not found on PATH." ;; ret false
           else ret ok
         else if bool_decide (option = "2") then
           if negb has_pyenv_venv then
             print "- pyenv-virtualenv plugin does not appear to be installed." ;;
             ret false
           else ret ok
         else ret ok) ;;
  (if negb ok then show_prereq_instructions option
   else print "Environment checks passed.") ;;
  ret ok.

(** [for key, label in choices.items(): print(...)] *)
Fixpoint print_choices (choices : list (string * string)) : M unit :=
  match choices with
  | [] => ret tt
  | (key, label) :: rest =>
      print ("  " +:+ key +:+ ") " +:+ label) ;; print_choices rest
  end.

(** [key in choices] *)
Definition is_key (choices : list (string * string)) (value : string) : bool :=
  bool_decide (value ∈ map fst choices).

(** The loop of [prompt_choice], one turn per line of [lines], the input
    still to be read: it ends with a recognised key or with the input. *)
Fixpoint prompt_choice_loop (prompt : string) (choices : list (string * string))
    (lines : list string) : M string :=
  print prompt ;;
  print_choices choices ;;
  value <- input "Enter choice: " ;;
  let value := strip value in
  if is_key choices value then ret value
  else
    print ("Invalid choice, please try again." +:+ NL) ;;
    match lines with
    | [] => raise EOFError
    | _ :: lines' => prompt_choice_loop prompt choices lines'
    end.

Definition prompt_choice (prompt : string) (choices : list (string * string)) : M string :=
  fun w => prompt_choice_loop prompt choices (stdin w) w.

Definition prompt_with_default (prompt default : string) : M string :=
  value <- input (prompt +:+ " [" +:+ default +:+ "]: ") ;;
  let value := strip value in
  ret (if bool_decide (value = EmptyString) then default else value).

Definition ensure_project_dir (project_name : string) : M Path :=
  let project_root := (home h / project_name)%path in
  pe <- path_exists project_root ;;
  (if pe then
     nonempty <- iterdir_any project_root ;;
     if nonempty then
       print (NL +:+ "Directory " +:+ to_str project_root +:+
              " already exists and is not empty.") ;;
       answer <- input "Do you want to abort and choose a different project name? [Y/n]: " ;;
       let answer := lower (strip answer) in
       if bool_decide (answer ∈ [EmptyString; "y"; "yes"]) then sys_exit 1
       else ret tt
     else
       print ("Using existing empty directory: " +:+ to_str project_root)
   else
     mkdir_parents project_root ;;
     print ("Created project directory: " +:+ to_str project_root)) ;;
  ret project_root.

Definition write_text (path : Path) (content : string) : M unit :=
  mkdir_parents (parent path) ;;
  path_write_text path (rstrip_nl content +:+ NL) ;;
  match relative_to path (home h) with
  | Some rel => print ("  - Created " +:+ to_str rel)
  | None => raise ValueError
  end.

(** *** The files of the scaffold

    Each literal below is the script's, character for character ([dq] stands
    for the double quote); the local names of the script are kept, and the
    four literals that the script passes to [write_text] without naming
    them are named after their files ([flaskenv], [dotenv], [gitignore],
    [gitattributes]). *)

Definition flaskenv : string :=
  dedent ("
            FLASK_APP=main.py
            FLASK_ENV=development
            FLASK_DEBUG=1
            ").

Definition dotenv : string :=
  dedent ("
            # Environment variables for your Flask app
            # Fill these in as needed. See comments in config.py for details.

            SECRET_KEY=
            DATABASE_URL=

            MAIL_SERVER=
            MAIL_PORT=
            MAIL_USE_TLS=
            MAIL_USERNAME=
            SENDGRID_API_KEY=
            MAIL_DEFAULT_SENDER=
            ADMINS=
            TECH_ADMIN=

            LOG_TO_STDOUT=
            UPLOAD_FOLDER=

            RECAPTCHA_PUBLIC_KEY=
            RECAPTCHA_PRIVATE_KEY=
            ").

Definition gitignore : string :=
  dedent ("
            __pycache__/
            *.py[cod]
            *.pyo
            *.pyd
            .Python
            env/
            venv/
            .venv/
            .mypy_cache/
            .pytest_cache/
            .DS_Store
            .env
            instance/
            *.sqlite3
            *.db
            .idea/
            .vscode/
            ").

Definition gitattributes : string :=
  dedent ("
            * text=auto
            *.py diff=python
            ").

Definition license_text (author : string) : string :=
  dedent ("
        MIT License

        Copyright (c) " +:+ author +:+ "

        Permission is hereby granted, free of charge, to any person obtaining a copy
        of this software and associated documentation files (the " +:+ dq +:+ "Software" +:+ dq +:+ "), to deal
        in the Software without restriction, including without limitation the rights
        to use, copy, modify, merge, publish, distribute, sublicense, and/or sell
        copies of the Software, and to permit persons to whom the Software is
        furnished to do so, subject to the following conditions:

        The above copyright notice and this permission notice shall be included in all
        copies or substantial portions of the Software.

        THE SOFTWARE IS PROVIDED " +:+ dq +:+ "AS IS" +:+ dq +:+ ", WITHOUT WARRANTY OF ANY KIND, EXPRESS OR
        IMPLIED, INCLUDING BUT NOT LIMITED TO THE WARRANTIES OF MERCHANTABILITY,
        FITNESS FOR A PARTICULAR PURPOSE AND NONINFRINGEMENT. IN NO EVENT SHALL THE
        AUTHORS OR COPYRIGHT HOLDERS BE LIABLE FOR ANY CLAIM, DAMAGES OR OTHER
        LIABILITY, WHETHER IN AN ACTION OF CONTRACT, TORT OR OTHERWISE, ARISING FROM,
        OUT OF OR IN CONNECTION WITH THE SOFTWARE OR THE USE OR OTHER DEALINGS IN THE
        SOFTWARE.
        ").

Definition readme (project_name : string) (description : string) : string :=
  dedent ("
        # " +:+ project_name +:+ "

        " +:+ description +:+ "

        This repository contains a Flask web application with a blueprint-based
        structure (`main`, `auth`, `admin`, `errors`). It is intended as a
        practical starting point for real projects: you can run it immediately,
        then modify or replace any part of it to suit your needs.

        ## What you get

        Note: This starter uses Flask blueprints, which are a slightly more
        advanced concept in Flask. If you are new to blueprints, you may want
        to skim the official Flask documentation on them alongside this
        scaffold.

        - A Flask application structured with blueprints (`main`, `auth`, `admin`, and `errors`).
        - A `User` model and basic authentication-related forms and templates.
        - Anonymous pages (e.g. home page) and authenticated pages (e.g. dashboard) with
          different layouts using Bootstrap.
        - A ready-to-extend structure for templates, static assets, utilities, and email
          handling.

        ## Learning resources (strongly recommended)

        If you want a deeper understanding of the tools this scaffold assumes,
        walk through these guides first:

        - Git & GitHub configuration (scripts + guide):
          - https://github.com/GitauHarrison/git_github_configurations
          - https://github.com/GitauHarrison/notes_on_general_topics/blob/main/02_automate_git_and_github_setup.md
        - Python version & pyenv / pyenv-virtualenv setup helper:
          - https://github.com/GitauHarrison/install_new_python_version_in_your_os?tab=readme-ov-file#python-version--pyenv-virtualenv-setup-helper
        - Manual guide for newer Python + virtualenv on macOS:
          - https://github.com/GitauHarrison/notes_on_general_topics/blob/main/01_new_python_version_macOS_virtualenv.md
        - Working with virtual environments in Flask:
          - https://github.com/GitauHarrison/notes_on_general_topics/blob/main/03_working_with_virtual_envs_in_flask.md

        After you are comfortable with these topics, this scaffold should feel
        much more intuitive.

        ## Blueprint structure overview

        This starter organizes your application into several blueprints:

        - `main`: public-facing pages (home, contact) and the authenticated
          dashboard.
        - `auth`: authentication-related routes (login, register, logout) and
          forms.
        - `admin`: a placeholder for admin-only routes and views.
        - `errors`: central error handlers that render different templates for
          anonymous vs authenticated users.

        Understanding how blueprints work will make it easier to extend this
        structure as your application grows.

        ## How to work with this repo

        ### What the script did

        When you ran `create_flask_project.py`, it:

        - Created this project folder in your home directory.
        - Generated the Flask application package (`app/`), configuration,
          templates, static assets, and supporting files (README, LICENSE,
          CONTRIBUTING, CODE_OF_CONDUCT, etc.).
        - Optionally created a `pyproject.toml` (if you chose Poetry) or a
          `requirements.txt` (if you chose the pyenv-virtualenv workflow).
        - If you selected Poetry, it may have added a convenience alias
          `pf='poetry run flask'` to your shell startup file (`~/.zshrc` or
          `~/.bashrc`). You are free to remove or change this alias.

        The script does *not* modify any other global configuration. All other
        files it creates live inside this project directory.

        ### Day-to-day usage

        1. Create or activate a virtual environment using your preferred workflow
           (pyenv + pyenv-virtualenv or pyenv + Poetry).
        2. If you chose **Poetry**, from the project root, add the core dependencies
           in one go:

           `poetry add flask flask-sqlalchemy flask-migrate flask-login flask-wtf flask-mail flask-moment python-dotenv email-validator pyjwt`

           This will update `pyproject.toml` and let Poetry generate a valid
           `poetry.lock` the first time you run `poetry add` or `poetry lock`.
           The scaffold intentionally does not create a placeholder lock file to
           avoid the " +:+ dq +:+ "lock file does not have a metadata entry" +:+ dq +:+ " error that
           occurs if `poetry.lock` is not generated by Poetry itself.

           If you manually edit `pyproject.toml` later, run `poetry lock` to
           regenerate `poetry.lock` so it stays in sync.

        3. If you chose **requirements.txt**, create a virtualenv and run:

           `pip install -r requirements.txt`

           Whenever you install or upgrade packages in that virtualenv, update
           `requirements.txt` with `pip3 freeze > requirements.txt`.

        4. Set your environment variables in `.env` and `.flaskenv` as needed.
        5. Run the app in development mode and start building features.

        ### After the first run: what to do next

        - Review the generated files and delete or rename anything you do not
          need. This scaffold is a starting point, not a constraint.
        - Customize blueprints, templates, and configuration to match your
          real application.
        - Keep your dependency declarations (`pyproject.toml` or
          `requirements.txt`) in sync with your virtual environment as you add
          or remove packages.

        ## Next steps (high level)

        1. Create or activate a virtual environment using your preferred workflow
           (pyenv + pyenv-virtualenv or pyenv + Poetry).
        2. If you chose **Poetry**, from the project root, add the core dependencies
           in one go:

           `poetry add flask flask-sqlalchemy flask-migrate flask-login flask-wtf flask-mail flask-moment python-dotenv email-validator pyjwt`

           This will update `pyproject.toml` and let Poetry generate a valid
           `poetry.lock` the first time you run `poetry add` or `poetry lock`.
           The scaffold intentionally does not create a placeholder lock file to
           avoid the " +:+ dq +:+ "lock file does not have a metadata entry" +:+ dq +:+ " error that
           occurs if `poetry.lock` is not generated by Poetry itself.

           If you manually edit `pyproject.toml` later, run `poetry lock` to
           regenerate `poetry.lock` so it stays in sync.

        3. If you chose **requirements.txt**, create a virtualenv and run:

           `pip install -r requirements.txt`

           Whenever you install or upgrade packages in that virtualenv, update
           `requirements.txt` with `pip3 freeze > requirements.txt`.

        4. Set your environment variables in `.env` and `.flaskenv` as needed.
        5. Run the app in development mode and start building features.
        ").

Definition contributing : string :=
  dedent ("
        # Contributing

        Thank you for your interest in contributing!

        This project aims to provide a clear, opinionated starting point for
        Flask applications. Contributions that improve clarity, robustness,
        documentation, or developer experience are welcome.

        ## Ways to contribute

        - Report bugs or confusing behavior by opening an issue.
        - Improve documentation, comments, and inline explanations.
        - Add small, focused features that align with the goal of being a
          teaching-friendly starter project.
        - Refine structure or configuration to follow best practices.

        ## Contribution guidelines

        1. **Discuss large changes first**
           - For significant features or refactors, open an issue to describe
             what you would like to change and why.

        2. **Keep changes focused**
           - Prefer small, self-contained pull requests that are easy to review.
           - Avoid mixing unrelated changes (e.g. style fixes and new features)
             in the same PR.

        3. **Code style and structure**
           - Follow the existing structure (blueprints, separation of concerns).
           - Use clear naming and add docstrings or comments where behavior
             might not be obvious to someone new to Flask.

        4. **Testing and manual verification**
           - Where possible, add or update tests when you change behavior.
           - At minimum, run the development server and manually exercise the
             changed flows (e.g. login, registration, error pages) before
             submitting a PR.

        5. **Commit messages and pull requests**
           - Use descriptive commit messages that explain *why* a change was
             made, not just *what* was changed.
           - In PR descriptions, include a short summary, any relevant issue
             links, and clear testing notes.

        By following these guidelines, you help keep this scaffold approachable
        for people who are learning Flask and modern Python workflows.
        ").

Definition coc : string :=
  dedent ("
        # Code of Conduct

        This project is dedicated to providing a welcoming and harassment-free
        experience for everyone, regardless of background or experience level.

        We expect all contributors, maintainers, and users to:

        - Be respectful and considerate in all interactions.
        - Assume good faith and seek to understand before reacting.
        - Provide constructive feedback and avoid personal attacks.
        - Use inclusive language and be mindful of different backgrounds and
          experience levels.

        ## Unacceptable behavior

        Examples of behavior that will not be tolerated include, but are not
        limited to:

        - Harassment, discrimination, or derogatory comments.
        - Threats of violence or encouraging self-harm.
        - Public or private harassment, including repeated unwanted contact.
        - Publishing others' private information (doxxing) without consent.
        - Any conduct that would be reasonably considered inappropriate in a
          professional setting.

        ## Reporting concerns

        If you experience or witness behavior that violates this Code of
        Conduct:

        - Consider politely pointing out the issue, if you feel safe doing so.
        - Otherwise, or if the behavior continues, please contact the project
          maintainer privately using the contact information in the README or
          project metadata.

        All reports will be reviewed in good faith. The maintainers will take
        appropriate action, which may include warnings, temporary restrictions,
        or removal from participation in the project.

        By participating in this project, you agree to abide by this Code of
        Conduct and help foster a positive, supportive environment for
        everyone.
        ").

Definition scaffold_top_level_files (project_root : Path) (project_name : string) (description : string) (author : string) (use_poetry : bool) : M unit :=
  let year := platform_python_version h in
  write_text (project_root / ".flaskenv")%path flaskenv ;;
  write_text (project_root / ".env")%path dotenv ;;
  write_text (project_root / ".gitignore")%path gitignore ;;
  write_text (project_root / ".gitattributes")%path gitattributes ;;
  write_text (project_root / "LICENSE")%path (license_text author) ;;
  write_text (project_root / "README.md")%path (readme project_name description) ;;
  write_text (project_root / "CONTRIBUTING.md")%path contributing ;;
  write_text (project_root / "CODE_OF_CONDUCT.md")%path coc.

Definition config_py : string :=
  dedent ("
        import os

        basedir = os.path.abspath(os.path.dirname(__file__))


        class Config(object):
            '''All application configurations.

            Configure your environment variables in the .env file at the project root.
            If a value is missing there, sensible defaults are used for local
            development (for example, SQLite instead of Postgres).
            '''

            # Web form security
            SECRET_KEY = os.environ.get('SECRET_KEY') or 'you-cannot-guess'

            # Database configurations
            # Prefer DATABASE_URL from the environment; fall back to a local SQLite file.
            SQLALCHEMY_DATABASE_URI = os.environ.get('DATABASE_URL') or                 'sqlite:///' + os.path.join(basedir, 'app.db')
            SQLALCHEMY_TRACK_MODIFICATIONS = False

            # Email
            MAIL_SERVER = os.environ.get('MAIL_SERVER')
            MAIL_PORT = int(os.environ.get('MAIL_PORT') or 25)
            MAIL_USE_TLS = os.environ.get('MAIL_USE_TLS') is not None
            MAIL_USERNAME = os.environ.get('MAIL_USERNAME')
            MAIL_PASSWORD = os.environ.get('SENDGRID_API_KEY')
            MAIL_DEFAULT_SENDER = os.environ.get('MAIL_DEFAULT_SENDER')
            ADMINS = os.environ.get('ADMINS', '').split(',') if os.environ.get('ADMINS') else []
            TECH_ADMIN = os.environ.get('TECH_ADMIN')

            # Deployment / logging
            LOG_TO_STDOUT = os.environ.get('LOG_TO_STDOUT')
            UPLOAD_FOLDER = os.environ.get('UPLOAD_FOLDER')

            # reCAPTCHA configuration
            RECAPTCHA_PUBLIC_KEY = os.environ.get('RECAPTCHA_PUBLIC_KEY')
            RECAPTCHA_PRIVATE_KEY = os.environ.get('RECAPTCHA_PRIVATE_KEY')
        ").

Definition app_init : string :=
  dedent ("
        from flask import Flask
        from flask_sqlalchemy import SQLAlchemy
        from flask_login import LoginManager
        from flask_migrate import Migrate
        from flask_mail import Mail
        from flask_moment import Moment
        from flask_wtf import CSRFProtect
        from config import Config
        import logging
        from logging.handlers import SMTPHandler, RotatingFileHandler
        import os
        from sqlalchemy import MetaData


        convention = {
            " +:+ dq +:+ "ix" +:+ dq +:+ ": 'ix_%(column_0_label)s',
            " +:+ dq +:+ "uq" +:+ dq +:+ ": " +:+ dq +:+ "uq_%(table_name)s_%(column_0_name)s" +:+ dq +:+ ",
            " +:+ dq +:+ "ck" +:+ dq +:+ ": " +:+ dq +:+ "ck_%(table_name)s_%(constraint_name)s" +:+ dq +:+ ",
            " +:+ dq +:+ "fk" +:+ dq +:+ ": " +:+ dq +:+ "fk_%(table_name)s_%(column_0_name)s_%(referred_table_name)s" +:+ dq +:+ ",
            " +:+ dq +:+ "pk" +:+ dq +:+ ": " +:+ dq +:+ "pk_%(table_name)s" +:+ dq +:+ ",
        }

        metadata = MetaData(naming_convention=convention)

        db = SQLAlchemy(metadata=metadata)
        migrate = Migrate()
        login_manager = LoginManager()
        moment = Moment()
        mail = Mail()
        csrf = CSRFProtect()


        def create_app(config_class: type[Config] = Config) -> Flask:
            '''Application factory.

            This factory wires extensions, logging and routes together.
            The application is structured using blueprints (main, auth, admin,
            errors) to keep concerns separated.
            '''
            app = Flask(__name__)
            app.config.from_object(config_class)

            db.init_app(app)
            migrate.init_app(app, db, render_as_batch=True)
            login_manager.init_app(app)
            login_manager.login_view = 'auth.login'
            login_manager.login_message = app.config.get('LOGIN_MESSAGE', 'Please sign in to access this page.')
            login_manager.login_message_category = app.config.get('LOGIN_MESSAGE_CATEGORY', 'info')
            mail.init_app(app)
            moment.init_app(app)
            csrf.init_app(app)

            # Register blueprints
            from app.errors import bp as errors_bp
            app.register_blueprint(errors_bp)

            from app.auth import bp as auth_bp
            app.register_blueprint(auth_bp, url_prefix='/auth')

            from app.admin import bp as admin_bp
            app.register_blueprint(admin_bp, url_prefix='/admin')

            from app.main import bp as main_bp
            app.register_blueprint(main_bp)

            # Import models so that tools like Flask-Migrate can discover them.
            from app import models  # noqa: F401

            if not app.debug and not app.testing:
                if app.config['MAIL_SERVER']:
                    auth = None
                    if app.config['MAIL_USERNAME'] or app.config['MAIL_PASSWORD']:
                        auth = (app.config['MAIL_USERNAME'], app.config['MAIL_PASSWORD'])
                    secure = None
                    if app.config['MAIL_USE_TLS']:
                        secure = ()
                    mail_handler = SMTPHandler(
                        mailhost=(app.config['MAIL_SERVER'], app.config['MAIL_PORT']),
                        fromaddr=app.config['MAIL_DEFAULT_SENDER'],
                        toaddrs=[app.config.get('TECH_ADMIN')] if app.config.get('TECH_ADMIN') else [],
                        subject=f" +:+ dq +:+ "{app.name} failure" +:+ dq +:+ ",
                        credentials=auth,
                        secure=secure,
                    )
                    mail_handler.setLevel(logging.ERROR)
                    app.logger.addHandler(mail_handler)

                if app.config.get('LOG_TO_STDOUT'):
                    stream_handler = logging.StreamHandler()
                    stream_handler.setLevel(logging.INFO)
                    app.logger.addHandler(stream_handler)
                else:
                    if not os.path.exists('logs'):
                        os.mkdir('logs')
                    file_handler = RotatingFileHandler(
                        'logs/app.log', maxBytes=10240, backupCount=10,
                    )
                    file_handler.setFormatter(
                        logging.Formatter(
                            '%(asctime)s %(levelname)s: %(message)s [in %(pathname)s:%(lineno)d]',
                        )
                    )
                    file_handler.setLevel(logging.INFO)
                    app.logger.addHandler(file_handler)

                app.logger.setLevel(logging.INFO)
                app.logger.info('%s startup', app.name)

            return app
        ").

Definition main_py : string :=
  dedent ("
        '''Entry point for running the Flask development server.'''

        from app import create_app, db
        from app.models import User

        app = create_app()


        @app.shell_context_processor
        def make_shell_context() -> dict:
            return {" +:+ dq +:+ "db" +:+ dq +:+ ": db, " +:+ dq +:+ "User" +:+ dq +:+ ": User}


        if __name__ == " +:+ dq +:+ "__main__" +:+ dq +:+ ":
            app.run()
        ").

Definition scaffold_config_and_main (project_root : Path) : M unit :=
  write_text (project_root / "config.py")%path config_py ;;
  write_text (project_root / "app" / "__init__.py")%path app_init ;;
  write_text (project_root / "main.py")%path main_py.

Definition models_py : string :=
  dedent ("
        from datetime import datetime
        from hashlib import md5

        from flask_login import UserMixin
        from werkzeug.security import generate_password_hash, check_password_hash

        from app import db, login_manager


        class User(UserMixin, db.Model):
            '''User account model.

            This example keeps the fields intentionally small, but includes helpers
            for password hashing and avatar URLs.
            '''

            id = db.Column(db.Integer, primary_key=True)
            username = db.Column(db.String(64), unique=True, index=True, nullable=False)
            email = db.Column(db.String(120), unique=True, index=True, nullable=False)
            password_hash = db.Column(db.String(256), nullable=False)
            created_at = db.Column(db.DateTime, default=datetime.utcnow)

            def __repr__(self) -> str:  # pragma: no cover - debug helper
                return f" +:+ dq +:+ "<User {self.username!r}>" +:+ dq +:+ "

            def set_password(self, password: str) -> None:
                '''Hash and store the given plaintext password.'''
                self.password_hash = generate_password_hash(password)

            def check_password(self, password: str) -> bool:
                '''Return True if the given password matches the stored hash.'''
                return check_password_hash(self.password_hash, password)

            def avatar(self, size: int = 128) -> str:
                # Return a gravatar URL based on the user's email address.
                digest = md5(self.email.lower().encode(" +:+ dq +:+ "utf-8" +:+ dq +:+ ")).hexdigest()
                return f" +:+ dq +:+ "https://www.gravatar.com/avatar/{digest}?d=identicon&s={size}" +:+ dq +:+ "


        @login_manager.user_loader
        def load_user(user_id: str) -> " +:+ dq +:+ "User | None" +:+ dq +:+ ":  # pragma: no cover - thin wrapper
            return User.query.get(int(user_id))
        ").

Definition auth_forms_py : string :=
  dedent ("
        from flask_wtf import FlaskForm
        from wtforms import StringField, PasswordField, SubmitField, BooleanField, TextAreaField
        from wtforms.validators import DataRequired, Email, EqualTo, Length


        class LoginForm(FlaskForm):
            email = StringField(" +:+ dq +:+ "Email" +:+ dq +:+ ", validators=[DataRequired(), Email()])
            password = PasswordField(" +:+ dq +:+ "Password" +:+ dq +:+ ", validators=[DataRequired()])
            remember_me = BooleanField(" +:+ dq +:+ "Remember me" +:+ dq +:+ ")
            submit = SubmitField(" +:+ dq +:+ "Sign in" +:+ dq +:+ ")


        class RegistrationForm(FlaskForm):
            username = StringField(" +:+ dq +:+ "Username" +:+ dq +:+ ", validators=[DataRequired(), Length(min=3, max=64)])
            email = StringField(" +:+ dq +:+ "Email" +:+ dq +:+ ", validators=[DataRequired(), Email()])
            password = PasswordField(" +:+ dq +:+ "Password" +:+ dq +:+ ", validators=[DataRequired(), Length(min=8)])
            password2 = PasswordField(
                " +:+ dq +:+ "Repeat Password" +:+ dq +:+ ",
                validators=[DataRequired(), EqualTo(" +:+ dq +:+ "password" +:+ dq +:+ ", message=" +:+ dq +:+ "Passwords must match." +:+ dq +:+ ")],
            )
            submit = SubmitField(" +:+ dq +:+ "Create account" +:+ dq +:+ ")


        class RequestResetPasswordForm(FlaskForm):
            email = StringField(" +:+ dq +:+ "Email" +:+ dq +:+ ", validators=[DataRequired(), Email()])
            submit = SubmitField(" +:+ dq +:+ "Send password reset link" +:+ dq +:+ ")


        class ResetPasswordForm(FlaskForm):
            password = PasswordField(" +:+ dq +:+ "New password" +:+ dq +:+ ", validators=[DataRequired(), Length(min=8)])
            password2 = PasswordField(
                " +:+ dq +:+ "Repeat Password" +:+ dq +:+ ",
                validators=[DataRequired(), EqualTo(" +:+ dq +:+ "password" +:+ dq +:+ ", message=" +:+ dq +:+ "Passwords must match." +:+ dq +:+ ")],
            )
            submit = SubmitField(" +:+ dq +:+ "Reset password" +:+ dq +:+ ")


        class ContactForm(FlaskForm):
            name = StringField(" +:+ dq +:+ "Name" +:+ dq +:+ ", validators=[DataRequired(), Length(min=2, max=64)])
            email = StringField(" +:+ dq +:+ "Email" +:+ dq +:+ ", validators=[DataRequired(), Email()])
            message = TextAreaField(" +:+ dq +:+ "Message" +:+ dq +:+ ", validators=[DataRequired(), Length(min=10, max=1000)])
            submit = SubmitField(" +:+ dq +:+ "Send message" +:+ dq +:+ ")
        ").

Definition main_forms_py : string :=
  dedent ("
        from flask_wtf import FlaskForm
        from wtforms import StringField, TextAreaField, SubmitField
        from wtforms.validators import DataRequired, Email, Length


        class ContactForm(FlaskForm):
            name = StringField(" +:+ dq +:+ "Name" +:+ dq +:+ ", validators=[DataRequired(), Length(min=2, max=64)])
            email = StringField(" +:+ dq +:+ "Email" +:+ dq +:+ ", validators=[DataRequired(), Email()])
            message = TextAreaField(" +:+ dq +:+ "Message" +:+ dq +:+ ", validators=[DataRequired(), Length(min=10, max=1000)])
            submit = SubmitField(" +:+ dq +:+ "Send message" +:+ dq +:+ ")
        ").

Definition email_py : string :=
  dedent ("
        from threading import Thread

        from flask import current_app
        from flask_mail import Message

        from app import mail


        def send_async_email(app, msg):
            '''Send email in a background thread.'''
            with app.app_context():
                mail.send(msg)


        def send_email(subject, sender, recipients, text_body, html_body):
            '''Send an email asynchronously using Flask-Mail and threading.'''
            msg = Message(subject, sender=sender, recipients=recipients)
            msg.body = text_body
            msg.html = html_body
            Thread(
                target=send_async_email,
                args=(current_app._get_current_object(), msg),
            ).start()
        ").

Definition errors_init : string :=
  dedent ("
        from flask import Blueprint

        bp = Blueprint('errors', __name__)

        from app.errors import handlers  # noqa: E402,F401
        ").

Definition errors_handlers : string :=
  dedent ("
        from flask import render_template
        from flask_login import current_user

        from app import db
        from app.errors import bp


        @bp.app_errorhandler(404)
        def page_not_found(error):
            '''Render different 404 pages depending on authentication status.'''
            if current_user.is_authenticated:
                return (
                    render_template('errors/404_dashboard.html', title='Page Not Found Error'),
                    404,
                )
            return (
                render_template('errors/404_public.html', title='Page Not Found Error'),
                404,
            )


        @bp.app_errorhandler(500)
        def internal_server_error(error):
            '''Render different 500 pages and roll back the session if needed.'''
            db.session.rollback()
            if current_user.is_authenticated:
                return (
                    render_template('errors/500_dashboard.html', title='Internal Server Error'),
                    500,
                )
            return (
                render_template('errors/500_public.html', title='Internal Server Error'),
                500,
            )
        ").

Definition scaffold_models_forms_email_errors (project_root : Path) : M unit :=
  write_text (project_root / "app" / "models.py")%path models_py ;;
  write_text (project_root / "app" / "auth" / "forms.py")%path auth_forms_py ;;
  write_text (project_root / "app" / "main" / "forms.py")%path main_forms_py ;;
  write_text (project_root / "app" / "email.py")%path email_py ;;
  write_text (project_root / "app" / "errors" / "__init__.py")%path errors_init ;;
  write_text (project_root / "app" / "errors" / "handlers.py")%path errors_handlers.

Definition utils_init : string :=
  EmptyString.

Definition decorators_py : string :=
  dedent ("
        from functools import wraps

        from flask import redirect, url_for, flash
        from flask_login import current_user


        def redirect_if_authenticated(view_func):
            '''Redirect authenticated users away from auth-only pages (e.g. login/register).'''

            @wraps(view_func)
            def wrapper(*args, **kwargs):
                if current_user.is_authenticated:
                    flash(" +:+ dq +:+ "You are already signed in." +:+ dq +:+ ", " +:+ dq +:+ "info" +:+ dq +:+ ")
                    return redirect(url_for(" +:+ dq +:+ "dashboard" +:+ dq +:+ "))
                return view_func(*args, **kwargs)

            return wrapper


        def login_required_with_message(view_func):
            # Simple wrapper around Flask-Login's behavior to add a flash message.

            @wraps(view_func)
            def wrapper(*args, **kwargs):
                if not current_user.is_authenticated:
                    flash(" +:+ dq +:+ "Please sign in to access this page." +:+ dq +:+ ", " +:+ dq +:+ "warning" +:+ dq +:+ ")
                    return redirect(url_for(" +:+ dq +:+ "login" +:+ dq +:+ "))
                return view_func(*args, **kwargs)

            return wrapper
        ").

Definition scaffold_utils (project_root : Path) : M unit :=
  write_text (project_root / "app" / "utils" / "__init__.py")%path utils_init ;;
  write_text (project_root / "app" / "utils" / "decorators.py")%path decorators_py.

Definition main_init : string :=
  dedent ("
        from flask import Blueprint

        bp = Blueprint('main', __name__)

        from app.main import routes  # noqa: E402,F401
        ").

Definition main_routes : string :=
  dedent ("
        from flask import render_template, redirect, url_for, flash
        from flask_login import login_required

        from app.main import bp
        from app.main.forms import ContactForm
        from app.utils.decorators import redirect_if_authenticated, login_required_with_message


        @bp.route(" +:+ dq +:+ "/" +:+ dq +:+ ", methods=[" +:+ dq +:+ "GET" +:+ dq +:+ ", " +:+ dq +:+ "POST" +:+ dq +:+ "])
        @redirect_if_authenticated
        def index():
            form = ContactForm()
            if form.validate_on_submit():
                flash(" +:+ dq +:+ "Thank you for your message!" +:+ dq +:+ ", " +:+ dq +:+ "success" +:+ dq +:+ ")
                return redirect(url_for(" +:+ dq +:+ "main.index" +:+ dq +:+ "))
            return render_template(" +:+ dq +:+ "main/index.html" +:+ dq +:+ ", form=form)


        @bp.route(" +:+ dq +:+ "/contact" +:+ dq +:+ ", methods=[" +:+ dq +:+ "GET" +:+ dq +:+ ", " +:+ dq +:+ "POST" +:+ dq +:+ "])
        @redirect_if_authenticated
        def contact():
            form = ContactForm()
            if form.validate_on_submit():
                flash(" +:+ dq +:+ "Thank you for reaching out!" +:+ dq +:+ ", " +:+ dq +:+ "success" +:+ dq +:+ ")
                return redirect(url_for(" +:+ dq +:+ "main.contact" +:+ dq +:+ "))
            return render_template(" +:+ dq +:+ "main/contact.html" +:+ dq +:+ ", form=form)


        @bp.route(" +:+ dq +:+ "/dashboard" +:+ dq +:+ ")
        @login_required_with_message
        def dashboard():
            return render_template(" +:+ dq +:+ "dashboard/dashboard.html" +:+ dq +:+ ")
        ").

Definition auth_init : string :=
  dedent ("
        from flask import Blueprint

        bp = Blueprint('auth', __name__)

        from app.auth import routes  # noqa: E402,F401
        ").

Definition auth_email_py : string :=
  dedent ("
        from flask import render_template, current_app

        from app.auth import bp
        from app.email import send_email


        def send_password_reset_email(user):
            '''Send a password reset email using the shared send_email helper.'''
            token = user.get_reset_password_token()
            send_email(
                '[Your Project] Reset Your Password',
                sender=current_app.config['ADMINS'][0] if current_app.config.get('ADMINS') else None,
                recipients=[user.email],
                text_body=render_template('emails/reset_password.txt', user=user, token=token),
                html_body=render_template('emails/reset_password.html', user=user, token=token),
            )
        ").

Definition auth_routes : string :=
  dedent ("
        from flask import render_template, redirect, url_for, flash
        from flask_login import login_user, logout_user, login_required

        from app import db
        from app.auth import bp
        from app.auth.forms import LoginForm, RegistrationForm
        from app.models import User
        from app.utils.decorators import redirect_if_authenticated, login_required_with_message


        @bp.route(" +:+ dq +:+ "/login" +:+ dq +:+ ", methods=[" +:+ dq +:+ "GET" +:+ dq +:+ ", " +:+ dq +:+ "POST" +:+ dq +:+ "])
        @redirect_if_authenticated
        def login():
            form = LoginForm()

            # Dummy user for demonstration purposes. In a real app, you would
            # look this information up from the database and verify the stored
            # password hash.
            dummy = User(
                username=" +:+ dq +:+ "test" +:+ dq +:+ ",
                email=" +:+ dq +:+ "test@email.com" +:+ dq +:+ ",
                password_hash=" +:+ dq +:+ "test12345" +:+ dq +:+ ",
            )

            if form.validate_on_submit():
                if form.email.data == dummy.email and form.password.data == " +:+ dq +:+ "test12345" +:+ dq +:+ ":
                    login_user(dummy, remember=form.remember_me.data)
                    flash(" +:+ dq +:+ "You are now logged in." +:+ dq +:+ ", " +:+ dq +:+ "success" +:+ dq +:+ ")
                    return redirect(url_for(" +:+ dq +:+ "main.dashboard" +:+ dq +:+ "))
                flash(" +:+ dq +:+ "Invalid email or password." +:+ dq +:+ ", " +:+ dq +:+ "danger" +:+ dq +:+ ")
            return render_template(" +:+ dq +:+ "auth/login.html" +:+ dq +:+ ", form=form)


        @bp.route(" +:+ dq +:+ "/register" +:+ dq +:+ ", methods=[" +:+ dq +:+ "GET" +:+ dq +:+ ", " +:+ dq +:+ "POST" +:+ dq +:+ "])
        @redirect_if_authenticated
        def register():
            form = RegistrationForm()
            if form.validate_on_submit():
                flash(" +:+ dq +:+ "Registration is disabled in this starter project." +:+ dq +:+ ", " +:+ dq +:+ "info" +:+ dq +:+ ")
            return render_template(" +:+ dq +:+ "auth/register.html" +:+ dq +:+ ", form=form)


        @bp.route(" +:+ dq +:+ "/logout" +:+ dq +:+ ")
        @login_required_with_message
        def logout():
            logout_user()
            flash(" +:+ dq +:+ "You have been logged out." +:+ dq +:+ ", " +:+ dq +:+ "info" +:+ dq +:+ ")
            return redirect(url_for(" +:+ dq +:+ "main.index" +:+ dq +:+ "))
        ").

Definition admin_init : string :=
  dedent ("
        from flask import Blueprint

        bp = Blueprint('admin', __name__)

        from app.admin import routes  # noqa: E402,F401
        ").

Definition admin_routes : string :=
  dedent ("
        from flask import render_template
        from flask_login import login_required

        from app.admin import bp
        from app.utils.decorators import login_required_with_message


        @bp.route(" +:+ dq +:+ "/" +:+ dq +:+ ")
        @login_required_with_message
        def index():
            '''Simple admin landing page placeholder.'''
            return render_template(" +:+ dq +:+ "admin/index.html" +:+ dq +:+ ")
        ").

Definition scaffold_routes (project_root : Path) : M unit :=
  write_text (project_root / "app" / "main" / "__init__.py")%path main_init ;;
  write_text (project_root / "app" / "main" / "routes.py")%path main_routes ;;
  write_text (project_root / "app" / "auth" / "__init__.py")%path auth_init ;;
  write_text (project_root / "app" / "auth" / "email.py")%path auth_email_py ;;
  write_text (project_root / "app" / "auth" / "routes.py")%path auth_routes ;;
  write_text (project_root / "app" / "admin" / "__init__.py")%path admin_init ;;
  write_text (project_root / "app" / "admin" / "routes.py")%path admin_routes.

Definition base_html : string :=
  dedent ("<!doctype html>
        <html lang=" +:+ dq +:+ "en" +:+ dq +:+ ">
          <head>
            <meta charset=" +:+ dq +:+ "utf-8" +:+ dq +:+ ">
            <meta name=" +:+ dq +:+ "viewport" +:+ dq +:+ " content=" +:+ dq +:+ "width=device-width, initial-scale=1" +:+ dq +:+ ">
            <title>{% block title %}Flask Starter{% endblock %}</title>
            <link
              href=" +:+ dq +:+ "https://cdn.jsdelivr.net/npm/bootstrap@5.3.3/dist/css/bootstrap.min.css" +:+ dq +:+ "
              rel=" +:+ dq +:+ "stylesheet" +:+ dq +:+ "
              integrity=" +:+ dq +:+ "sha384-QWTKZyjpPEjISv5WaRU9OFeRpok6YctnYmDr5pNlyT2bRjXh0JMhjY6hW+ALEwIH" +:+ dq +:+ "
              crossorigin=" +:+ dq +:+ "anonymous" +:+ dq +:+ "
            >
            <link rel=" +:+ dq +:+ "stylesheet" +:+ dq +:+ " href=" +:+ dq +:+ "{{ url_for('static', filename='css/main.css') }}" +:+ dq +:+ ">
            {% block extra_css %}{% endblock %}
          </head>
          <body>
            {% include 'partials/_flash_messages.html' %}
            {% block navbar %}{% endblock %}

            <main class=" +:+ dq +:+ "container py-4" +:+ dq +:+ ">
              {% block content %}{% endblock %}
            </main>

            {% include 'partials/_footer.html' %}

            <script src=" +:+ dq +:+ "https://cdn.jsdelivr.net/npm/bootstrap@5.3.3/dist/js/bootstrap.bundle.min.js" +:+ dq +:+ "
                    integrity=" +:+ dq +:+ "sha384-YvpcrYf0tY3lHB60NNkmXc5s9fDVZLESaAA55NDzOxhy9GkcIdslK1eN7N6jIeHz" +:+ dq +:+ "
                    crossorigin=" +:+ dq +:+ "anonymous" +:+ dq +:+ "></script>
            <script src=" +:+ dq +:+ "{{ url_for('static', filename='js/main.js') }}" +:+ dq +:+ "></script>
            {% block extra_js %}{% endblock %}
          </body>
        </html>
        ").

Definition flash_messages : string :=
  dedent ("{% with messages = get_flashed_messages(with_categories=true) %}
        {% if messages %}
          <div class=" +:+ dq +:+ "container mt-3" +:+ dq +:+ ">
            {% for category, message in messages %}
              <div class=" +:+ dq +:+ "alert alert-{{ category }} alert-dismissible fade show" +:+ dq +:+ " role=" +:+ dq +:+ "alert" +:+ dq +:+ ">
                {{ message }}
                <button type=" +:+ dq +:+ "button" +:+ dq +:+ " class=" +:+ dq +:+ "btn-close" +:+ dq +:+ " data-bs-dismiss=" +:+ dq +:+ "alert" +:+ dq +:+ " aria-label=" +:+ dq +:+ "Close" +:+ dq +:+ "></button>
              </div>
            {% endfor %}
          </div>
        {% endif %}
        {% endwith %}
        ").

Definition footer : string :=
  dedent ("<footer class=" +:+ dq +:+ "border-top py-3 mt-5 text-center text-muted" +:+ dq +:+ ">
          <small>&copy; {{ config.SITE_NAME if config and config.SITE_NAME else 'Flask Starter' }}</small>
        </footer>
        ").

Definition public_navbar : string :=
  dedent ("<nav class=" +:+ dq +:+ "navbar navbar-expand-lg navbar-light bg-light border-bottom mb-4" +:+ dq +:+ ">
          <div class=" +:+ dq +:+ "container-fluid" +:+ dq +:+ ">
            <a class=" +:+ dq +:+ "navbar-brand" +:+ dq +:+ " href=" +:+ dq +:+ "{{ url_for('main.index') }}" +:+ dq +:+ ">Flask Starter</a>
            <button class=" +:+ dq +:+ "navbar-toggler" +:+ dq +:+ " type=" +:+ dq +:+ "button" +:+ dq +:+ " data-bs-toggle=" +:+ dq +:+ "collapse" +:+ dq +:+ " data-bs-target=" +:+ dq +:+ "#navbarPublic" +:+ dq +:+ "
                    aria-controls=" +:+ dq +:+ "navbarPublic" +:+ dq +:+ " aria-expanded=" +:+ dq +:+ "false" +:+ dq +:+ " aria-label=" +:+ dq +:+ "Toggle navigation" +:+ dq +:+ ">
              <span class=" +:+ dq +:+ "navbar-toggler-icon" +:+ dq +:+ "></span>
            </button>
            <div class=" +:+ dq +:+ "collapse navbar-collapse" +:+ dq +:+ " id=" +:+ dq +:+ "navbarPublic" +:+ dq +:+ ">
              <ul class=" +:+ dq +:+ "navbar-nav ms-auto mb-2 mb-lg-0" +:+ dq +:+ ">
                <li class=" +:+ dq +:+ "nav-item" +:+ dq +:+ ">
                  <a class=" +:+ dq +:+ "nav-link" +:+ dq +:+ " href=" +:+ dq +:+ "{{ url_for('main.index') }}" +:+ dq +:+ ">Home</a>
                </li>
                <li class=" +:+ dq +:+ "nav-item" +:+ dq +:+ ">
                  <a class=" +:+ dq +:+ "nav-link" +:+ dq +:+ " href=" +:+ dq +:+ "{{ url_for('main.contact') }}" +:+ dq +:+ ">Contact</a>
                </li>
                <li class=" +:+ dq +:+ "nav-item" +:+ dq +:+ ">
                  <a class=" +:+ dq +:+ "nav-link" +:+ dq +:+ " href=" +:+ dq +:+ "{{ url_for('auth.login') }}" +:+ dq +:+ ">Sign in</a>
                </li>
                <li class=" +:+ dq +:+ "nav-item" +:+ dq +:+ ">
                  <a class=" +:+ dq +:+ "nav-link" +:+ dq +:+ " href=" +:+ dq +:+ "{{ url_for('auth.register') }}" +:+ dq +:+ ">Register</a>
                </li>
              </ul>
            </div>
          </div>
        </nav>
        ").

Definition dashboard_navbar : string :=
  dedent ("<nav class=" +:+ dq +:+ "navbar navbar-expand-lg navbar-dark bg-dark border-bottom mb-4" +:+ dq +:+ ">
          <div class=" +:+ dq +:+ "container-fluid" +:+ dq +:+ ">
            <a class=" +:+ dq +:+ "navbar-brand" +:+ dq +:+ " href=" +:+ dq +:+ "{{ url_for('main.dashboard') }}" +:+ dq +:+ ">Dashboard</a>
            <button class=" +:+ dq +:+ "navbar-toggler" +:+ dq +:+ " type=" +:+ dq +:+ "button" +:+ dq +:+ " data-bs-toggle=" +:+ dq +:+ "collapse" +:+ dq +:+ " data-bs-target=" +:+ dq +:+ "#navbarDashboard" +:+ dq +:+ "
                    aria-controls=" +:+ dq +:+ "navbarDashboard" +:+ dq +:+ " aria-expanded=" +:+ dq +:+ "false" +:+ dq +:+ " aria-label=" +:+ dq +:+ "Toggle navigation" +:+ dq +:+ ">
              <span class=" +:+ dq +:+ "navbar-toggler-icon" +:+ dq +:+ "></span>
            </button>
            <div class=" +:+ dq +:+ "collapse navbar-collapse" +:+ dq +:+ " id=" +:+ dq +:+ "navbarDashboard" +:+ dq +:+ ">
              <ul class=" +:+ dq +:+ "navbar-nav ms-auto mb-2 mb-lg-0" +:+ dq +:+ ">
                <li class=" +:+ dq +:+ "nav-item" +:+ dq +:+ ">
                  <a class=" +:+ dq +:+ "nav-link" +:+ dq +:+ " href=" +:+ dq +:+ "{{ url_for('main.index') }}" +:+ dq +:+ ">Public site</a>
                </li>
                <li class=" +:+ dq +:+ "nav-item" +:+ dq +:+ ">
                  <a class=" +:+ dq +:+ "nav-link" +:+ dq +:+ " href=" +:+ dq +:+ "{{ url_for('auth.logout') }}" +:+ dq +:+ ">Log out</a>
                </li>
              </ul>
            </div>
          </div>
        </nav>
        ").

Definition index_html : string :=
  dedent ("{% extends 'base.html' %}
        {% block title %}Home - Flask Starter{% endblock %}
        {% block navbar %}{% include 'partials/_public_navbar.html' %}{% endblock %}
        {% block content %}
        <div class=" +:+ dq +:+ "row justify-content-center" +:+ dq +:+ ">
          <div class=" +:+ dq +:+ "col-md-8" +:+ dq +:+ ">
            <h1 class=" +:+ dq +:+ "mb-3" +:+ dq +:+ ">Welcome</h1>
            <p class=" +:+ dq +:+ "lead" +:+ dq +:+ ">This is your anonymous landing page.</p>
            <p class=" +:+ dq +:+ "mb-4" +:+ dq +:+ ">Use this page for marketing copy, feature highlights, or a public
              view of your product.</p>

            <hr>

            <h2>Contact us</h2>
            <form method=" +:+ dq +:+ "post" +:+ dq +:+ " novalidate>
              {{ form.hidden_tag() }}
              <div class=" +:+ dq +:+ "mb-3" +:+ dq +:+ ">
                {{ form.name.label(class_='form-label') }}
                {{ form.name(class_='form-control') }}
                {% for error in form.name.errors %}
                  <div class=" +:+ dq +:+ "text-danger small" +:+ dq +:+ ">{{ error }}</div>
                {% endfor %}
              </div>
              <div class=" +:+ dq +:+ "mb-3" +:+ dq +:+ ">
                {{ form.email.label(class_='form-label') }}
                {{ form.email(class_='form-control') }}
                {% for error in form.email.errors %}
                  <div class=" +:+ dq +:+ "text-danger small" +:+ dq +:+ ">{{ error }}</div>
                {% endfor %}
              </div>
              <div class=" +:+ dq +:+ "mb-3" +:+ dq +:+ ">
                {{ form.message.label(class_='form-label') }}
                {{ form.message(class_='form-control', rows=4) }}
                {% for error in form.message.errors %}
                  <div class=" +:+ dq +:+ "text-danger small" +:+ dq +:+ ">{{ error }}</div>
                {% endfor %}
              </div>
              {{ form.submit(class_='btn btn-primary') }}
            </form>
          </div>
        </div>
        {% endblock %}
        ").

Definition contact_html : string :=
  dedent ("{% extends 'base.html' %}
        {% block title %}Contact - Flask Starter{% endblock %}
        {% block navbar %}{% include 'partials/_public_navbar.html' %}{% endblock %}
        {% block content %}
        <div class=" +:+ dq +:+ "row justify-content-center" +:+ dq +:+ ">
          <div class=" +:+ dq +:+ "col-md-8" +:+ dq +:+ ">
            <h1 class=" +:+ dq +:+ "mb-3" +:+ dq +:+ ">Contact</h1>
            <p>Use this page for a dedicated contact form or additional information.</p>
          </div>
        </div>
        {% endblock %}
        ").

Definition login_html : string :=
  dedent ("{% extends 'base.html' %}
        {% block title %}Sign in{% endblock %}
        {% block navbar %}{% include 'partials/_public_navbar.html' %}{% endblock %}
        {% block content %}
        <div class=" +:+ dq +:+ "row justify-content-center" +:+ dq +:+ ">
          <div class=" +:+ dq +:+ "col-md-6 col-lg-4" +:+ dq +:+ ">
            <h1 class=" +:+ dq +:+ "mb-3" +:+ dq +:+ ">Sign in</h1>
            <form method=" +:+ dq +:+ "post" +:+ dq +:+ " novalidate>
              {{ form.hidden_tag() }}
              <div class=" +:+ dq +:+ "mb-3" +:+ dq +:+ ">
                {{ form.email.label(class_='form-label') }}
                {{ form.email(class_='form-control') }}
                {% for error in form.email.errors %}
                  <div class=" +:+ dq +:+ "text-danger small" +:+ dq +:+ ">{{ error }}</div>
                {% endfor %}
              </div>
              <div class=" +:+ dq +:+ "mb-3" +:+ dq +:+ ">
                {{ form.password.label(class_='form-label') }}
                {{ form.password(class_='form-control') }}
                {% for error in form.password.errors %}
                  <div class=" +:+ dq +:+ "text-danger small" +:+ dq +:+ ">{{ error }}</div>
                {% endfor %}
              </div>
              <div class=" +:+ dq +:+ "form-check mb-3" +:+ dq +:+ ">
                {{ form.remember_me(class_='form-check-input') }}
                {{ form.remember_me.label(class_='form-check-label') }}
              </div>
              {{ form.submit(class_='btn btn-primary w-100') }}
            </form>
          </div>
        </div>
        {% endblock %}
        ").

Definition register_html : string :=
  dedent ("{% extends 'base.html' %}
        {% block title %}Register{% endblock %}
        {% block navbar %}{% include 'partials/_public_navbar.html' %}{% endblock %}
        {% block content %}
        <div class=" +:+ dq +:+ "row justify-content-center" +:+ dq +:+ ">
          <div class=" +:+ dq +:+ "col-md-6 col-lg-4" +:+ dq +:+ ">
            <h1 class=" +:+ dq +:+ "mb-3" +:+ dq +:+ ">Register</h1>
            <p class=" +:+ dq +:+ "text-muted" +:+ dq +:+ ">Registration is disabled in this starter project. Adapt this
              template when you wire up real user creation.</p>
          </div>
        </div>
        {% endblock %}
        ").

Definition request_reset_html : string :=
  dedent ("{% extends 'base.html' %}
        {% block title %}Request password reset{% endblock %}
        {% block navbar %}{% include 'partials/_public_navbar.html' %}{% endblock %}
        {% block content %}
        <div class=" +:+ dq +:+ "row justify-content-center" +:+ dq +:+ ">
          <div class=" +:+ dq +:+ "col-md-6 col-lg-4" +:+ dq +:+ ">
            <h1 class=" +:+ dq +:+ "mb-3" +:+ dq +:+ ">Reset password</h1>
            <p>Enter the email address associated with your account.</p>
          </div>
        </div>
        {% endblock %}
        ").

Definition reset_password_html : string :=
  dedent ("{% extends 'base.html' %}
        {% block title %}Choose a new password{% endblock %}
        {% block navbar %}{% include 'partials/_public_navbar.html' %}{% endblock %}
        {% block content %}
        <div class=" +:+ dq +:+ "row justify-content-center" +:+ dq +:+ ">
          <div class=" +:+ dq +:+ "col-md-6 col-lg-4" +:+ dq +:+ ">
            <h1 class=" +:+ dq +:+ "mb-3" +:+ dq +:+ ">Choose a new password</h1>
          </div>
        </div>
        {% endblock %}
        ").

Definition dashboard_html : string :=
  dedent ("{% extends 'base.html' %}
        {% block title %}Dashboard{% endblock %}
        {% block navbar %}{% include 'partials/_dashboard_navbar.html' %}{% endblock %}
        {% block content %}
        <div class=" +:+ dq +:+ "row" +:+ dq +:+ ">
          <div class=" +:+ dq +:+ "col-12" +:+ dq +:+ ">
            <h1 class=" +:+ dq +:+ "mb-3" +:+ dq +:+ ">Dashboard</h1>
            <p class=" +:+ dq +:+ "lead" +:+ dq +:+ ">This is an example of an authenticated-only area of your application.</p>

            <div class=" +:+ dq +:+ "row g-3" +:+ dq +:+ ">
              <div class=" +:+ dq +:+ "col-md-4" +:+ dq +:+ ">
                <div class=" +:+ dq +:+ "card h-100" +:+ dq +:+ ">
                  <div class=" +:+ dq +:+ "card-body" +:+ dq +:+ ">
                    <h5 class=" +:+ dq +:+ "card-title" +:+ dq +:+ ">Metric A</h5>
                    <p class=" +:+ dq +:+ "card-text" +:+ dq +:+ ">Placeholder content for analytics or key metrics.</p>
                  </div>
                </div>
              </div>
              <div class=" +:+ dq +:+ "col-md-4" +:+ dq +:+ ">
                <div class=" +:+ dq +:+ "card h-100" +:+ dq +:+ ">
                  <div class=" +:+ dq +:+ "card-body" +:+ dq +:+ ">
                    <h5 class=" +:+ dq +:+ "card-title" +:+ dq +:+ ">Metric B</h5>
                    <p class=" +:+ dq +:+ "card-text" +:+ dq +:+ ">Highlight something important for signed-in users.</p>
                  </div>
                </div>
              </div>
              <div class=" +:+ dq +:+ "col-md-4" +:+ dq +:+ ">
                <div class=" +:+ dq +:+ "card h-100" +:+ dq +:+ ">
                  <div class=" +:+ dq +:+ "card-body" +:+ dq +:+ ">
                    <h5 class=" +:+ dq +:+ "card-title" +:+ dq +:+ ">Metric C</h5>
                    <p class=" +:+ dq +:+ "card-text" +:+ dq +:+ ">Use this area for actions or shortcuts.</p>
                  </div>
                </div>
              </div>
            </div>
          </div>
        </div>
        {% endblock %}
        ").

Definition error_404_public : string :=
  dedent ("{% extends 'base.html' %}
        {% block title %}Page not found{% endblock %}
        {% block navbar %}{% include 'partials/_public_navbar.html' %}{% endblock %}
        {% block content %}
        <div class=" +:+ dq +:+ "text-center py-5" +:+ dq +:+ ">
          <h1 class=" +:+ dq +:+ "display-4" +:+ dq +:+ ">404</h1>
          <p class=" +:+ dq +:+ "lead" +:+ dq +:+ ">The page you are looking for does not exist.</p>
        </div>
        {% endblock %}
        ").

Definition error_404_dashboard : string :=
  dedent ("{% extends 'base.html' %}
        {% block title %}Page not found{% endblock %}
        {% block navbar %}{% include 'partials/_dashboard_navbar.html' %}{% endblock %}
        {% block content %}
        <div class=" +:+ dq +:+ "text-center py-5" +:+ dq +:+ ">
          <h1 class=" +:+ dq +:+ "display-4" +:+ dq +:+ ">404</h1>
          <p class=" +:+ dq +:+ "lead" +:+ dq +:+ ">The page you are looking for does not exist.</p>
        </div>
        {% endblock %}
        ").

Definition error_500_public : string :=
  dedent ("{% extends 'base.html' %}
        {% block title %}Server error{% endblock %}
        {% block navbar %}{% include 'partials/_public_navbar.html' %}{% endblock %}
        {% block content %}
        <div class=" +:+ dq +:+ "text-center py-5" +:+ dq +:+ ">
          <h1 class=" +:+ dq +:+ "display-4" +:+ dq +:+ ">500</h1>
          <p class=" +:+ dq +:+ "lead" +:+ dq +:+ ">An unexpected error occurred. Please try again later.</p>
        </div>
        {% endblock %}
        ").

Definition error_500_dashboard : string :=
  dedent ("{% extends 'base.html' %}
        {% block title %}Server error{% endblock %}
        {% block navbar %}{% include 'partials/_dashboard_navbar.html' %}{% endblock %}
        {% block content %}
        <div class=" +:+ dq +:+ "text-center py-5" +:+ dq +:+ ">
          <h1 class=" +:+ dq +:+ "display-4" +:+ dq +:+ ">500</h1>
          <p class=" +:+ dq +:+ "lead" +:+ dq +:+ ">An unexpected error occurred. Please try again later.</p>
        </div>
        {% endblock %}
        ").

Definition reset_txt : string :=
  dedent ("Hello {{ user.username }},

        To reset your password, visit the following link:

        {{ url_for('reset_password', token=token, _external=true) }}

        If you did not request this email, you can ignore it.
        ").

Definition reset_html : string :=
  dedent ("<!doctype html>
        <html>
          <body>
            <p>Hello {{ user.username }},</p>
            <p>To reset your password, click the link below:</p>
            <p><a href=" +:+ dq +:+ "{{ url_for('reset_password', token=token, _external=true) }}" +:+ dq +:+ ">Reset password</a></p>
            <p>If you did not request this email, you can ignore it.</p>
          </body>
        </html>
        ").

Definition scaffold_templates (project_root : Path) : M unit :=
  let templates_root := (project_root / "app" / "templates")%path in
  write_text (templates_root / "base.html")%path base_html ;;
  write_text (templates_root / "partials" / "_flash_messages.html")%path flash_messages ;;
  write_text (templates_root / "partials" / "_footer.html")%path footer ;;
  write_text (templates_root / "partials" / "_public_navbar.html")%path public_navbar ;;
  write_text (templates_root / "partials" / "_dashboard_navbar.html")%path dashboard_navbar ;;
  write_text (templates_root / "main" / "index.html")%path index_html ;;
  write_text (templates_root / "main" / "contact.html")%path contact_html ;;
  write_text (templates_root / "auth" / "login.html")%path login_html ;;
  write_text (templates_root / "auth" / "register.html")%path register_html ;;
  write_text (templates_root / "auth" / "request_password_reset.html")%path request_reset_html ;;
  write_text (templates_root / "auth" / "reset_password.html")%path reset_password_html ;;
  write_text (templates_root / "dashboard" / "dashboard.html")%path dashboard_html ;;
  write_text (templates_root / "errors" / "404_public.html")%path error_404_public ;;
  write_text (templates_root / "errors" / "404_dashboard.html")%path error_404_dashboard ;;
  write_text (templates_root / "errors" / "500_public.html")%path error_500_public ;;
  write_text (templates_root / "errors" / "500_dashboard.html")%path error_500_dashboard ;;
  write_text (templates_root / "emails" / "reset_password.txt")%path reset_txt ;;
  write_text (templates_root / "emails" / "reset_password.html")%path reset_html.

Definition main_css : string :=
  dedent ("html,
        body {
          height: 100%;
        }

        body {
          min-height: 100%;
          display: flex;
          flex-direction: column;
        }

        main {
          flex: 1 0 auto;
        }

        footer {
          flex-shrink: 0;
        }

        .navbar-brand {
          font-weight: 600;
        }
        ").

Definition dashboard_css : string :=
  dedent ("body {
          background-color: #f5f5f5;
        }

        .card {
          box-shadow: 0 0.125rem 0.25rem rgba(0, 0, 0, 0.075);
        }
        ").

Definition main_js : string :=
  dedent ("document.addEventListener('DOMContentLoaded', () => {
          // Place global JavaScript for your Flask project here.
        });
        ").

Definition dashboard_js : string :=
  dedent ("document.addEventListener('DOMContentLoaded', () => {
          // Place dashboard-specific JavaScript code here.
        });
        ").

Definition scaffold_static (project_root : Path) : M unit :=
  let static_root := (project_root / "app" / "static")%path in
  write_text (static_root / "css" / "main.css")%path main_css ;;
  write_text (static_root / "css" / "dashboard.css")%path dashboard_css ;;
  write_text (static_root / "js" / "main.js")%path main_js ;;
  write_text (static_root / "js" / "dashboard.js")%path dashboard_js ;;
  write_text (static_root / "img" / ".gitkeep")%path EmptyString.

Definition requirements : string :=
  dedent ("flask
        python-dotenv
        email-validator
        flask-login
        flask-migrate
        flask-sqlalchemy
        flask-moment
        flask-mail
        flask-wtf
        pyjwt
        ").

Definition write_requirements (project_root : Path) : M unit :=
  write_text (project_root / "requirements.txt")%path requirements.

Definition pyproject (poetry_name : string) (poetry_version : string) (poetry_description : string) (authors_field : string) (requires_python : string) : string :=
  dedent ("[project]
        name = " +:+ dq +:+ poetry_name +:+ dq +:+ "
        version = " +:+ dq +:+ poetry_version +:+ dq +:+ "
        description = " +:+ dq +:+ poetry_description +:+ dq +:+ "
        authors = [
            " +:+ authors_field +:+ "
        ]
        license = {file = " +:+ dq +:+ "LICENSE" +:+ dq +:+ "}
        readme = " +:+ dq +:+ "README.md" +:+ dq +:+ "
        requires-python = " +:+ dq +:+ requires_python +:+ dq +:+ "
        dependencies = []


        [build-system]
        requires = [" +:+ dq +:+ "poetry-core>=2.0.0,<3.0.0" +:+ dq +:+ "]
        build-backend = " +:+ dq +:+ "poetry.core.masonry.api" +:+ dq +:+ "

        [tool.poetry]
        package-mode = false
        ").

Definition write_poetry_files (project_root : Path) (poetry_name : string) (poetry_version : string) (poetry_description : string) (author_name : string) (author_email : string) (license_id : string) (requires_python : string) : M unit :=
  let authors_field := 
    if bool_decide (author_email = EmptyString)
    then "{name = " +:+ dq +:+ author_name +:+ dq +:+ "}"
    else "{name = " +:+ dq +:+ author_name +:+ dq +:+ ", email = " +:+ dq +:+ author_email +:+ dq +:+ "}" in
  write_text (project_root / "pyproject.toml")%path (pyproject poetry_name poetry_version poetry_description authors_field requires_python).

(** *** The Poetry alias and [main] *)

Definition ensure_poetry_alias : M unit :=
  system <- detect_platform ;;
  let rc_path :=
    if bool_decide (system ∈ ["macos"; "ubuntu"; "wsl"; "linux"]) then
      let shell := default EmptyString (environ h "SHELL") in
      if endswith shell "zsh" then (home h / ".zshrc")%path
      else (home h / ".bashrc")%path
    else (home h / ".bashrc")%path in
  let alias_line := "alias pf='poetry run flask'" in
  (* the statements after the [if rc_path.exists()] block *)
  let append_alias (content : string) : M unit :=
    let new_content := rstrip_nl content +:+ NL +:+ alias_line +:+ NL in
    path_write_text rc_path new_content ;;
    print ("Added alias 'pf' to " +:+ to_str rc_path +:+
           ". You may need to reload your shell.") in
  pe <- path_exists rc_path ;;
  if pe then
    content <- path_read_text rc_path ;;
    if existsb (fun line => startswith (strip line) "alias pf=") (splitlines content)
    then print ("Alias 'pf' already present in " +:+ to_str rc_path +:+ ".")
    else append_alias content
  else append_alias EmptyString.

Definition main : M unit :=
  print_header ;;
  option <- prompt_choice "Choose your environment workflow:"
              [("1", "pyenv + Poetry (pyproject.toml)");
               ("2", "pyenv + pyenv-virtualenv + requirements.txt");
               ("q", "Quit")] ;;
  (if bool_decide (option = "q") then
     print "Aborting." ;; sys_exit 0
   else ret tt) ;;
  ok <- ensure_prereqs option ;;
  (if negb ok then sys_exit 1 else ret tt) ;;
  project_name <- prompt_with_default
    "Project folder name (will be created in your home directory)" "flask_project" ;;
  description <- prompt_with_default "Short project description"
    "A starter Flask application." ;;
  author <- prompt_with_default "Author / owner name" "Your Name" ;;
  project_root <- ensure_project_dir project_name ;;
  print (NL +:+ "Scaffolding Flask project structure..." +:+ NL) ;;
  let use_poetry := bool_decide (option = "1") in
  scaffold_top_level_files project_root project_name description author use_poetry ;;
  scaffold_config_and_main project_root ;;
  scaffold_models_forms_email_errors project_root ;;
  scaffold_utils project_root ;;
  scaffold_routes project_root ;;
  scaffold_templates project_root ;;
  scaffold_static project_root ;;
  (if use_poetry then
     print (NL +:+ "Poetry configuration (these values will go into pyproject.toml):") ;;
     poetry_name <- prompt_with_default "Project name" project_name ;;
     poetry_version <- prompt_with_default "Version" "0.1.0" ;;
     poetry_description <- prompt_with_default "Description" description ;;
     author_name <- prompt_with_default "Author name" author ;;
     author_email <- prompt_with_default "Author email" "you@example.com" ;;
     license_id <- prompt_with_default
       "License identifier (used alongside LICENSE file)" "MIT" ;;
     requires_python <- prompt_with_default
       "Required Python version (PEP 440 range)" ">=3.10,<4.0" ;;
     write_poetry_files project_root poetry_name poetry_version poetry_description
       author_name author_email license_id requires_python ;;
     ensure_poetry_alias
   else write_requirements project_root) ;;
  print (NL +:+ "Done!" +:+ NL) ;;
  print ("Your new Flask project is at: " +:+ to_str project_root) ;;
  print (NL +:+ "Next steps (summary):") ;;
  print "  1. Create/activate a virtual environment for this project." ;;
  if use_poetry then
    print ("  2. Run `cd" +:+ " " +:+ to_str project_root +:+ " " +:+ "&& poetry add \") ;;
    print "         flask flask-sqlalchemy flask-migrate flask-login flask-wtf flask-mail flask-moment python-dotenv email-validator pyjwt`." ;;
    print "     This will update pyproject.toml and generate a valid poetry.lock file." ;;
    print "     If you manually change pyproject.toml later, run `poetry lock` to refresh poetry.lock." ;;
    print "  3. Start the dev server with `pf run` (alias for `poetry run flask`)."
  else
    print ("  2. Run `cd" +:+ " " +:+ to_str project_root +:+ " " +:+ "&& pip install -r requirements.txt`.") ;;
    print "  3. Whenever you change dependencies in that virtualenv, run `pip3 freeze > requirements.txt`." ;;
    print "  4. Start the dev server with `flask run` (inside the active virtualenv).".

End Script.

(** * Properties *)

(** ** Strings *)

Section StringFacts.

Lemma append_nil_l (t : string) : EmptyString +:+ t = t.
Proof. reflexivity. Qed.

Lemma append_cons (c : ascii) (s t : string) :
  String c s +:+ t = String c (s +:+ t).
Proof. reflexivity. Qed.

Lemma append_empty_r (s : string) : s +:+ EmptyString = s.
Proof.
  induction s as [|c s IH]; [reflexivity|].
  now rewrite append_cons, IH.
Qed.

Lemma append_assoc (a b c : string) : (a +:+ b) +:+ c = a +:+ (b +:+ c).
Proof.
  induction a as [|x a IH]; [reflexivity|].
  now rewrite !append_cons, IH.
Qed.

Lemma is_nl_true (c : ascii) : is_nl c = true <-> c = nl.
Proof.
  unfold is_nl, ord, nl, chr. rewrite N.eqb_eq. split.
  - intros E. rewrite <- (ascii_N_embedding c), E. reflexivity.
  - intros ->. reflexivity.
Qed.

Lemma repeat_str_S (s : string) (k : nat) :
  repeat_str s (S k) = s +:+ repeat_str s k.
Proof. reflexivity. Qed.

(** What [rstrip("\n")] removes is a run of newlines. *)
Lemma rstrip_nl_split (s : string) :
  exists k, s = rstrip_nl s +:+ repeat_str NL k.
Proof.
  unfold rstrip_nl. induction s as [|c s [k IH]].
  - exists 0%nat. reflexivity.
  - cbn [rstrip_with]. destruct (rstrip_with is_nl s) as [|d r] eqn:E.
    + destruct (is_nl c) eqn:Ec.
      * apply is_nl_true in Ec. subst c. exists (S k).
        rewrite append_nil_l in *. rewrite repeat_str_S, <- IH. reflexivity.
      * exists k. rewrite append_nil_l in IH. rewrite append_cons, append_nil_l.
        now rewrite <- IH.
    + exists k. rewrite append_cons. now rewrite <- IH.
Qed.

(** The last character of a text. *)
Fixpoint last_char (s : string) : option ascii :=
  match s with
  | EmptyString => None
  | String c EmptyString => Some c
  | String _ s' => last_char s'
  end.

(** What [rstrip("\n")] returns does not end in a newline. *)
Lemma rstrip_nl_last (s : string) : last_char (rstrip_nl s) <> Some nl.
Proof.
  unfold rstrip_nl. induction s as [|c s IH]; [discriminate|].
  cbn [rstrip_with]. destruct (rstrip_with is_nl s) as [|d r] eqn:E.
  - destruct (is_nl c) eqn:Ec; [discriminate|].
    cbn. intros [= ->]. discriminate.
  - exact IH.
Qed.

Lemma rstrip_nl_fixed (s : string) :
  last_char s <> Some nl -> rstrip_nl s = s.
Proof.
  unfold rstrip_nl. induction s as [|c s IH]; [reflexivity|].
  destruct s as [|d s'].
  - cbn. destruct (is_nl c) eqn:Ec; [|reflexivity].
    apply is_nl_true in Ec. subst c. intros H. now elim H.
  - intros H. cbn [rstrip_with] in *. rewrite (IH H). reflexivity.
Qed.

Lemma last_char_app_nl (s : string) : last_char (s +:+ NL) = Some nl.
Proof.
  induction s as [|c s IH]; [reflexivity|].
  rewrite append_cons. cbn [last_char].
  destruct (s +:+ NL) eqn:E; [|exact IH].
  destruct s; discriminate.
Qed.

Lemma rstrip_nl_app_nl (s : string) :
  last_char s <> Some nl -> rstrip_nl (s +:+ NL) = s.
Proof.
  intros H. unfold rstrip_nl. induction s as [|c s IH]; [reflexivity|].
  rewrite append_cons. cbn [rstrip_with].
  destruct s as [|d s'].
  - cbn. destruct (is_nl c) eqn:Ec; [|reflexivity].
    apply is_nl_true in Ec. subst c. now elim H.
  - rewrite IH by exact H. reflexivity.
Qed.

End StringFacts.

(** ** The shape of a run *)

(** How a call can leave and what it leaves behind: the three facts below
    are proved once per function of the script and combined along [bind]. *)

(** The call leaves the file system as it found it, however it ends. *)
Definition fs_stable {A} (m : M A) : Prop :=
  forall w, fs (world_of (m w)) = fs w.

(** The call does not leave through [sys.exit]. *)
Definition never_exits {A} (m : M A) : Prop :=
  forall w c w', m w <> Exit c w'.

(** When the call leaves through [sys.exit], nothing was written. *)
Definition exit_clean {A} (m : M A) : Prop :=
  forall w c w', m w = Exit c w' -> fs w' = fs w.

Ltac run_cases :=
  repeat match goal with
         | |- context [match (if ?b then _ else _) _ with
                       | Ret _ _ => _ | Exit _ _ => _ | Raise _ _ => _ end] =>
             destruct b eqn:?; cbv beta iota zeta
         | |- context [match ?m ?w with Ret _ _ => _ | Exit _ _ => _ | Raise _ _ => _ end] =>
             destruct (m w) eqn:?; cbv beta iota zeta
         end.

(** The monad laws, at a world. *)
Lemma bind_assoc_at {A B C} (m : M A) (k : A -> M B) (g : B -> M C) (w : World) :
  bind (bind m k) g w = bind m (fun a => bind (k a) g) w.
Proof. unfold bind. destruct (m w); reflexivity. Qed.

Lemma bind_ret_at {A B} (a : A) (k : A -> M B) (w : World) : bind (ret a) k w = k a w.
Proof. reflexivity. Qed.

Lemma bind_cong_at {A B} (m : M A) (k k' : A -> M B) (w : World) :
  (forall a w', k a w' = k' a w') -> bind m k w = bind m k' w.
Proof. intros H. unfold bind. destruct (m w); [apply H | reflexivity..]. Qed.

(** Two sequences of the same calls, nested differently, are compared call
    by call. *)
Ltac lockstep :=
  repeat first
    [ match goal with |- ?x = ?x => reflexivity end
    | rewrite bind_assoc_at
    | rewrite bind_ret_at
    | progress cbv beta iota zeta
    | apply bind_cong_at; intros
    | match goal with
      | |- bind (if ?b then _ else _) _ _ = _ => destruct b
      | |- (if ?b then _ else _) _ = _ => destruct b
      end ].

Section Frames.
Context {A B : Type}.

Lemma fs_stable_ret (a : A) : fs_stable (ret a).
Proof. intros w. reflexivity. Qed.

Lemma fs_stable_bind (m : M A) (k : A -> M B) :
  fs_stable m -> (forall a, fs_stable (k a)) -> fs_stable (bind m k).
Proof.
  intros Hm Hk w. unfold bind. specialize (Hm w).
  destruct (m w) as [a w1|c w1|e w1]; cbn in *; [|assumption..].
  now rewrite Hk.
Qed.

Lemma fs_stable_sys_exit (c : Z) : fs_stable (@sys_exit A c).
Proof. intros w. reflexivity. Qed.

Lemma fs_stable_raise (e : exn) : fs_stable (@raise A e).
Proof. intros w. reflexivity. Qed.

Lemma fs_stable_if (b : bool) (m1 m2 : M A) :
  fs_stable m1 -> fs_stable m2 -> fs_stable (if b then m1 else m2).
Proof. now destruct b. Qed.

Lemma never_exits_ret (a : A) : never_exits (ret a).
Proof. intros w c w'. discriminate. Qed.

Lemma never_exits_raise (e : exn) : never_exits (@raise A e).
Proof. intros w c w'. discriminate. Qed.

Lemma never_exits_bind (m : M A) (k : A -> M B) :
  never_exits m -> (forall a, never_exits (k a)) -> never_exits (bind m k).
Proof.
  intros Hm Hk w c w'. unfold bind.
  destruct (m w) as [a w1|c1 w1|e w1] eqn:E; [apply Hk | | discriminate].
  now apply Hm in E.
Qed.

Lemma never_exits_if (b : bool) (m1 m2 : M A) :
  never_exits m1 -> never_exits m2 -> never_exits (if b then m1 else m2).
Proof. now destruct b. Qed.

Lemma exit_clean_stable (m : M A) : fs_stable m -> exit_clean m.
Proof. intros H w c w' E. specialize (H w). now rewrite E in H. Qed.

Lemma exit_clean_never (m : M A) : never_exits m -> exit_clean m.
Proof. intros H w c w' E. now apply H in E. Qed.

(** A stable call, then a clean one. *)
Lemma exit_clean_bind (m : M A) (k : A -> M B) :
  fs_stable m -> (forall a, exit_clean (k a)) -> exit_clean (bind m k).
Proof.
  intros Hm Hk w c w'. unfold bind. specialize (Hm w).
  destruct (m w) as [a w1|c1 w1|e w1]; cbn in Hm; [|intros [= <- <-]; assumption | discriminate].
  intros E. apply Hk in E. congruence.
Qed.

(** A clean call, then calls that never exit. *)
Lemma exit_clean_bind_never (m : M A) (k : A -> M B) :
  exit_clean m -> (forall a, never_exits (k a)) -> exit_clean (bind m k).
Proof.
  intros Hm Hk w c w'. unfold bind.
  destruct (m w) as [a w1|c1 w1|e w1] eqn:E; [|intros [= <- <-]; now apply Hm in E | discriminate].
  intros E'. now apply Hk in E'.
Qed.

End Frames.

Lemma fs_stable_print s : fs_stable (print s).
Proof. intros w. reflexivity. Qed.

Lemma fs_stable_input p : fs_stable (input p).
Proof. intros w. unfold input. now destruct (stdin w). Qed.

Lemma never_exits_print s : never_exits (print s).
Proof. intros w c w'. discriminate. Qed.

Lemma never_exits_input p : never_exits (input p).
Proof. intros w c w'. unfold input. destruct (stdin w); discriminate. Qed.

Lemma fs_stable_path_exists p : fs_stable (path_exists p).
Proof. intros w. reflexivity. Qed.

Lemma never_exits_path_exists p : never_exits (path_exists p).
Proof. intros w c w'. discriminate. Qed.

Lemma fs_stable_iterdir_any p : fs_stable (iterdir_any p).
Proof. intros w. unfold iterdir_any. now destruct (fs w !! p) as [[]|]. Qed.

Lemma never_exits_iterdir_any p : never_exits (iterdir_any p).
Proof. intros w c w'. unfold iterdir_any. destruct (fs w !! p) as [[]|]; discriminate. Qed.

Lemma never_exits_mkdir_parents p : never_exits (mkdir_parents p).
Proof. intros w c w'. unfold mkdir_parents. destruct (mkdir_chain _ _ _); discriminate. Qed.

Lemma never_exits_path_write_text p s : never_exits (path_write_text p s).
Proof.
  intros w c w'. unfold path_write_text.
  destruct (fs w !! p) as [[|t []]|]; try discriminate.
  destruct (fs w !! parent p) as [[]|]; discriminate.
Qed.

Lemma fs_stable_path_read_text p : fs_stable (path_read_text p).
Proof. intros w. unfold path_read_text. now destruct (fs w !! p) as [[]|]. Qed.

Lemma never_exits_path_read_text p : never_exits (path_read_text p).
Proof. intros w c w'. unfold path_read_text. destruct (fs w !! p) as [[]|]; discriminate. Qed.

Create HintDb frame.
#[local] Hint Resolve fs_stable_ret fs_stable_sys_exit fs_stable_raise fs_stable_print
  fs_stable_input fs_stable_path_exists fs_stable_iterdir_any fs_stable_path_read_text
  never_exits_ret never_exits_raise never_exits_print never_exits_input
  never_exits_path_exists never_exits_iterdir_any never_exits_mkdir_parents
  never_exits_path_write_text never_exits_path_read_text : frame.

(** Splits a goal about a sequence of calls along its [bind]s and branches. *)
Ltac frame :=
  repeat first
    [ progress intros
    | solve [auto with frame]
    | apply fs_stable_bind | apply never_exits_bind
    | apply fs_stable_if | apply never_exits_if
    | match goal with
      | |- fs_stable (match ?x with _ => _ end) => destruct x
      | |- never_exits (match ?x with _ => _ end) => destruct x
      | |- fs_stable (let _ := _ in _) => cbv zeta
      | |- never_exits (let _ := _ in _) => cbv zeta
      end ].

(** *** The functions of the script *)

Lemma fs_stable_print_header : fs_stable print_header.
Proof. unfold print_header. frame. Qed.

Lemma fs_stable_show_prereq_instructions o : fs_stable (show_prereq_instructions o).
Proof. unfold show_prereq_instructions. frame. Qed.

Lemma fs_stable_ensure_prereqs h o : fs_stable (ensure_prereqs h o).
Proof.
  unfold ensure_prereqs. pose proof fs_stable_show_prereq_instructions. frame.
Qed.

Lemma never_exits_show_prereq_instructions o : never_exits (show_prereq_instructions o).
Proof. unfold show_prereq_instructions. frame. Qed.

Lemma never_exits_ensure_prereqs h o : never_exits (ensure_prereqs h o).
Proof.
  unfold ensure_prereqs. pose proof never_exits_show_prereq_instructions. frame.
Qed.

Lemma fs_stable_print_choices cs : fs_stable (print_choices cs).
Proof. induction cs as [|[k l] cs IH]; cbn [print_choices]; frame. Qed.

Lemma never_exits_print_choices cs : never_exits (print_choices cs).
Proof. induction cs as [|[k l] cs IH]; cbn [print_choices]; frame. Qed.

Lemma fs_stable_prompt_choice_loop p cs lines : fs_stable (prompt_choice_loop p cs lines).
Proof.
  pose proof fs_stable_print_choices.
  induction lines as [|l lines IH]; cbn [prompt_choice_loop]; frame.
Qed.

Lemma never_exits_prompt_choice_loop p cs lines : never_exits (prompt_choice_loop p cs lines).
Proof.
  pose proof never_exits_print_choices.
  induction lines as [|l lines IH]; cbn [prompt_choice_loop]; frame.
Qed.

Lemma fs_stable_prompt_choice p cs : fs_stable (prompt_choice p cs).
Proof. intros w. apply fs_stable_prompt_choice_loop. Qed.

Lemma never_exits_prompt_choice p cs : never_exits (prompt_choice p cs).
Proof. intros w. apply never_exits_prompt_choice_loop. Qed.

Lemma fs_stable_prompt_with_default p d : fs_stable (prompt_with_default p d).
Proof. unfold prompt_with_default. frame. Qed.

Lemma never_exits_prompt_with_default p d : never_exits (prompt_with_default p d).
Proof. unfold prompt_with_default. frame. Qed.

Lemma never_exits_write_text h p s : never_exits (write_text h p s).
Proof. unfold write_text. frame. Qed.

#[local] Hint Resolve fs_stable_print_header fs_stable_ensure_prereqs
  never_exits_ensure_prereqs fs_stable_prompt_choice never_exits_prompt_choice
  fs_stable_prompt_with_default never_exits_prompt_with_default
  never_exits_write_text : frame.

Lemma never_exits_scaffold_top_level_files h r n d a u :
  never_exits (scaffold_top_level_files h r n d a u).
Proof. unfold scaffold_top_level_files. frame. Qed.

Lemma never_exits_scaffold_config_and_main h r : never_exits (scaffold_config_and_main h r).
Proof. unfold scaffold_config_and_main. frame. Qed.

Lemma never_exits_scaffold_models_forms_email_errors h r :
  never_exits (scaffold_models_forms_email_errors h r).
Proof. unfold scaffold_models_forms_email_errors. frame. Qed.

Lemma never_exits_scaffold_utils h r : never_exits (scaffold_utils h r).
Proof. unfold scaffold_utils. frame. Qed.

Lemma never_exits_scaffold_routes h r : never_exits (scaffold_routes h r).
Proof. unfold scaffold_routes. frame. Qed.

Lemma never_exits_scaffold_templates h r : never_exits (scaffold_templates h r).
Proof. unfold scaffold_templates. frame. Qed.

Lemma never_exits_scaffold_static h r : never_exits (scaffold_static h r).
Proof. unfold scaffold_static. frame. Qed.

Lemma never_exits_write_requirements h r : never_exits (write_requirements h r).
Proof. unfold write_requirements. frame. Qed.

Lemma never_exits_write_poetry_files h r a b c d e f g :
  never_exits (write_poetry_files h r a b c d e f g).
Proof. unfold write_poetry_files. frame. Qed.

Lemma never_exits_detect_platform h : never_exits (detect_platform h).
Proof.
  unfold detect_platform. frame.
  intros w c w'. unfold path_read_text.
  destruct (fs w !! parse "/etc/os-release") as [[|t r]|]; try discriminate.
  destruct (contains _ _); discriminate.
Qed.

Lemma never_exits_ensure_poetry_alias h : never_exits (ensure_poetry_alias h).
Proof.
  unfold ensure_poetry_alias. pose proof (never_exits_detect_platform h). frame.
Qed.

#[local] Hint Resolve never_exits_scaffold_top_level_files
  never_exits_scaffold_config_and_main never_exits_scaffold_models_forms_email_errors
  never_exits_scaffold_utils never_exits_scaffold_routes never_exits_scaffold_templates
  never_exits_scaffold_static never_exits_write_requirements
  never_exits_write_poetry_files never_exits_ensure_poetry_alias : frame.

(** *** The phases of [main]

    [main] is one function in the script; its body runs through the gate
    (menu and prerequisite check), the collection of the parameters, the
    project directory, the scaffold, the workflow's last step and the
    summary. The phases are named here and [main_phases] shows that [main]
    is their sequence. *)

Definition MENU : list (string * string) :=
  [("1", "pyenv + Poetry (pyproject.toml)");
   ("2", "pyenv + pyenv-virtualenv + requirements.txt");
   ("q", "Quit")].

Definition menu : M string :=
  print_header ;;
  prompt_choice "Choose your environment workflow:" MENU.

Definition gate (h : Host) : M string :=
  option <- menu ;;
  (if bool_decide (option = "q") then
     print "Aborting." ;; sys_exit 0
   else ret tt) ;;
  ok <- ensure_prereqs h option ;;
  (if negb ok then sys_exit 1 else ret tt) ;;
  ret option.

Definition collect : M (string * string * string) :=
  project_name <- prompt_with_default
    "Project folder name (will be created in your home directory)" "flask_project" ;;
  description <- prompt_with_default "Short project description"
    "A starter Flask application." ;;
  author <- prompt_with_default "Author / owner name" "Your Name" ;;
  ret (project_name, description, author).

Definition materialize (h : Host) (project_root : Path)
    (project_name description author : string) (use_poetry : bool) : M unit :=
  print (NL +:+ "Scaffolding Flask project structure..." +:+ NL) ;;
  scaffold_top_level_files h project_root project_name description author use_poetry ;;
  scaffold_config_and_main h project_root ;;
  scaffold_models_forms_email_errors h project_root ;;
  scaffold_utils h project_root ;;
  scaffold_routes h project_root ;;
  scaffold_templates h project_root ;;
  scaffold_static h project_root.

(** The answers to the Poetry prompts, in the order they are asked. *)
Definition poetry_metadata (project_name description author : string)
  : M (string * string * string * string * string * string * string) :=
  print (NL +:+ "Poetry configuration (these values will go into pyproject.toml):") ;;
  poetry_name <- prompt_with_default "Project name" project_name ;;
  poetry_version <- prompt_with_default "Version" "0.1.0" ;;
  poetry_description <- prompt_with_default "Description" description ;;
  author_name <- prompt_with_default "Author name" author ;;
  author_email <- prompt_with_default "Author email" "you@example.com" ;;
  license_id <- prompt_with_default
    "License identifier (used alongside LICENSE file)" "MIT" ;;
  requires_python <- prompt_with_default
    "Required Python version (PEP 440 range)" ">=3.10,<4.0" ;;
  ret (poetry_name, poetry_version, poetry_description, author_name, author_email,
       license_id, requires_python).

Definition finalize (h : Host) (project_root : Path)
    (project_name description author : string) (use_poetry : bool) : M unit :=
  if use_poetry then
    md <- poetry_metadata project_name description author ;;
    let '(poetry_name, poetry_version, poetry_description, author_name, author_email,
          license_id, requires_python) := md in
    write_poetry_files h project_root poetry_name poetry_version poetry_description
      author_name author_email license_id requires_python ;;
    ensure_poetry_alias h
  else write_requirements h project_root.

Definition summary (project_root : Path) (use_poetry : bool) : M unit :=
  print (NL +:+ "Done!" +:+ NL) ;;
  print ("Your new Flask project is at: " +:+ to_str project_root) ;;
  print (NL +:+ "Next steps (summary):") ;;
  print "  1. Create/activate a virtual environment for this project." ;;
  if use_poetry then
    print ("  2. Run `cd" +:+ " " +:+ to_str project_root +:+ " " +:+ "&& poetry add \") ;;
    print "         flask flask-sqlalchemy flask-migrate flask-login flask-wtf flask-mail flask-moment python-dotenv email-validator pyjwt`." ;;
    print "     This will update pyproject.toml and generate a valid poetry.lock file." ;;
    print "     If you manually change pyproject.toml later, run `poetry lock` to refresh poetry.lock." ;;
    print "  3. Start the dev server with `pf run` (alias for `poetry run flask`)."
  else
    print ("  2. Run `cd" +:+ " " +:+ to_str project_root +:+ " " +:+ "&& pip install -r requirements.txt`.") ;;
    print "  3. Whenever you change dependencies in that virtualenv, run `pip3 freeze > requirements.txt`." ;;
    print "  4. Start the dev server with `flask run` (inside the active virtualenv).".

Definition phases (h : Host) : M unit :=
  option <- gate h ;;
  params <- collect ;;
  let '(project_name, description, author) := params in
  project_root <- ensure_project_dir h project_name ;;
  let use_poetry := bool_decide (option = "1") in
  materialize h project_root project_name description author use_poetry ;;
  finalize h project_root project_name description author use_poetry ;;
  summary project_root use_poetry.

Lemma main_phases (h : Host) (w : World) : main h w = phases h w.
Proof.
  unfold main, phases, gate, menu, collect, materialize, finalize, poetry_metadata,
    summary, MENU.
  lockstep.
Qed.

(** *** Calls that only write to the console *)

(** The world after the chunks [out] were written to the console. *)
Definition emits (out : list string) (w : World) : World :=
  mkWorld (fs w) (stdin w) (stdout w ++ out).

Lemma emit_emits (s : string) (w : World) : emit s w = emits [s] w.
Proof. reflexivity. Qed.

Lemma emits_emits (o1 o2 : list string) (w : World) :
  emits o2 (emits o1 w) = emits (o1 ++ o2) w.
Proof. unfold emits. cbn. now rewrite app_assoc. Qed.

Lemma emits_nil (w : World) : emits [] w = w.
Proof. destruct w as [f i o]. unfold emits. cbn. now rewrite app_nil_r. Qed.

Definition prints (m : M unit) (out : list string) : Prop :=
  forall w, m w = Ret tt (emits out w).

Lemma prints_print s : prints (print s) [s +:+ NL].
Proof. intros w. reflexivity. Qed.

Lemma prints_ret : prints (ret tt) [].
Proof. intros w. now rewrite emits_nil. Qed.

Lemma prints_bind (m1 m2 : M unit) (o1 o2 : list string) :
  prints m1 o1 -> prints m2 o2 -> prints (m1 ;; m2) (o1 ++ o2).
Proof.
  intros H1 H2 w. unfold bind. now rewrite H1, H2, emits_emits.
Qed.

Lemma prints_if (b : bool) (m1 m2 : M unit) (o1 o2 : list string) :
  prints m1 o1 -> prints m2 o2 ->
  prints (if b then m1 else m2) (if b then o1 else o2).
Proof. now destruct b. Qed.

(** What a call that only prints has printed is read off a run of it. *)
Lemma prints_run (m : M unit) (out : list string) :
  prints m out -> prints m (stdout (world_of (m (mkWorld ∅ [] [])))).
Proof. intros H. now rewrite H. Qed.

Ltac prints_steps :=
  repeat first [ apply prints_print | apply prints_ret
               | eapply prints_bind; [first [apply prints_print | apply prints_ret]|] ].

(** The lines of [show_prereq_instructions]. *)
Definition prereq_instructions (option : string) : list string :=
  stdout (world_of (show_prereq_instructions option (mkWorld ∅ [] []))).

Lemma prints_show_prereq_instructions (option : string) :
  prints (show_prereq_instructions option) (prereq_instructions option).
Proof.
  unfold prereq_instructions. eapply prints_run.
  unfold show_prereq_instructions.
  do 4 (eapply prints_bind; [apply prints_print|]).
  eapply prints_bind; [|prints_steps].
  eapply prints_if; [|eapply prints_if]; prints_steps.
Qed.

Lemma bind_print_at {B} (s : string) (k : unit -> M B) (w : World) :
  bind (print s) k w = k tt (emits [s +:+ NL] w).
Proof. reflexivity. Qed.

Lemma bind_prints_at {B} (m : M unit) (out : list string) (k : unit -> M B) (w : World) :
  prints m out -> bind m k w = k tt (emits out w).
Proof. intros H. unfold bind. now rewrite H. Qed.

(** ** The prerequisite check (C3) *)

Inductive Workflow := PoetryManaged | RequirementsFileManaged.

(** The key each workflow has in the menu of [main]. *)
Definition option_key (wf : Workflow) : string :=
  match wf with
  | PoetryManaged => "1"
  | RequirementsFileManaged => "2"
  end.

Inductive Tool := pyenv | pyenv_virtualenv | poetry.

(** The tools a workflow needs, as the menu names them: pyenv + Poetry,
    pyenv + pyenv-virtualenv. *)
Definition required_tools (wf : Workflow) : list Tool :=
  match wf with
  | PoetryManaged => [pyenv; poetry]
  | RequirementsFileManaged => [pyenv; pyenv_virtualenv]
  end.

(** What the host offers, as the script probes it. *)
Definition available (h : Host) (t : Tool) : bool :=
  match t with
  | pyenv => check_pyenv h
  | pyenv_virtualenv => check_pyenv_virtualenv h
  | poetry => check_poetry h
  end.

(** The line that reports a tool as missing. *)
Definition missing_line (t : Tool) : string :=
  match t with
  | pyenv => "- pyenv not found on PATH."
  | pyenv_virtualenv => "- pyenv-virtualenv plugin does not appear to be installed."
  | poetry => "- Poetry not found on PATH."
  end.

Definition missing_tools (h : Host) (wf : Workflow) : list Tool :=
  List.filter (fun t => negb (available h t)) (required_tools wf).

Ltac prereqs_run Hs :=
  change (bool_decide ("1" = "1")) with true;
  change (bool_decide ("2" = "1")) with false;
  change (bool_decide ("2" = "2")) with true;
  cbv iota;
  repeat first
    [ rewrite bind_assoc_at
    | rewrite bind_ret_at
    | rewrite bind_print_at
    | rewrite (bind_prints_at _ _ _ _ Hs)
    | rewrite emits_emits
    | progress cbv beta iota ];
  unfold ret; rewrite ?emits_emits; reflexivity.

(** C3. For every workflow and host, [ensure_prereqs] returns [True] exactly
    when every tool the workflow requires is available on the host; it
    changes neither the file system nor the input, and what it prints is
    one line per missing required tool, in the order of the requirements
    and for no other tool, followed by the remediation text (on failure) or
    the line that the checks passed (on success). *)
Theorem ensure_prereqs_reports_exactly_missing (h : Host) (wf : Workflow) (w : World) :
  ensure_prereqs h (option_key wf) w =
    Ret (forallb (available h) (required_tools wf))
        (emits
           (map (fun t => missing_line t +:+ NL) (missing_tools h wf) ++
            (if forallb (available h) (required_tools wf)
             then ["Environment checks passed." +:+ NL]
             else prereq_instructions (option_key wf)))
           w)
  /\ (forallb (available h) (required_tools wf) = false <->
      exists t, In t (required_tools wf) /\ available h t = false)
  /\ (forall t, In t (missing_tools h wf) <->
                In t (required_tools wf) /\ available h t = false).
Proof.
  split; [|split].
  - pose proof (prints_show_prereq_instructions (option_key wf)) as Hs.
    unfold ensure_prereqs, missing_tools.
    destruct wf; cbn [option_key required_tools forallb List.filter available map].
    + destruct (check_pyenv h), (check_poetry h); cbn [negb andb map app];
        cbv zeta; prereqs_run Hs.
    + destruct (check_pyenv h), (check_pyenv_virtualenv h); cbn [negb andb map app];
        cbv zeta; prereqs_run Hs.
  - rewrite <- Bool.not_true_iff_false, forallb_forall. split.
    + intros H. destruct wf; cbn [required_tools] in *.
      * destruct (available h pyenv) eqn:E1; [|exists pyenv; cbn; auto].
        destruct (available h poetry) eqn:E2; [|exists poetry; cbn; auto].
        elim H. intros t [<-|[<-|[]]]; assumption.
      * destruct (available h pyenv) eqn:E1; [|exists pyenv; cbn; auto].
        destruct (available h pyenv_virtualenv) eqn:E2; [|exists pyenv_virtualenv; cbn; auto].
        elim H. intros t [<-|[<-|[]]]; assumption.
    + intros (t & Ht & E) H. rewrite (H t Ht) in E. discriminate.
  - intros t. unfold missing_tools. rewrite filter_In, Bool.negb_true_iff. reflexivity.
Qed.

(** ** Writing a file (C4) *)

(** What [write_text] leaves at [path] once [path.write_text] went through:
    the call then returns, or raises [ValueError] for a path outside the
    home directory when it reports the file. *)
Lemma write_text_written (h : Host) (path : Path) (content : string) (w w' : World) :
  write_text h path content w = Ret tt w' \/
  write_text h path content w = Raise ValueError w' ->
  fs w' !! path = Some (File (rstrip_nl content +:+ NL) false).
Proof.
  unfold write_text, bind, mkdir_parents, path_write_text.
  destruct (mkdir_chain [] (parent path) (fs w)) as [m|]; cbn [fs stdin stdout];
    [|intros [|]; discriminate].
  destruct (m !! path) as [[|t []]|]; try (intros [|]; discriminate).
  - destruct (relative_to path (home h));
      intros [E|E]; inversion E; subst; cbn; apply lookup_insert_eq.
  - destruct (m !! parent path) as [[]|]; try (intros [|]; discriminate).
    destruct (relative_to path (home h));
      intros [E|E]; inversion E; subst; cbn; apply lookup_insert_eq.
Qed.


(** ** Leaving the run: the directory conflict (C1) and the exit status (C2) *)

Lemma bind_Ret_at {A B} (m : M A) (k : A -> M B) (w w' : World) (a : A) :
  m w = Ret a w' -> bind m k w = k a w'.
Proof. intros E. unfold bind. now rewrite E. Qed.

Lemma bind_Exit_at {A B} (m : M A) (k : A -> M B) (w w' : World) (c : Z) :
  m w = Exit c w' -> bind m k w = Exit c w'.
Proof. intros E. unfold bind. now rewrite E. Qed.

Lemma bind_Raise_at {A B} (m : M A) (k : A -> M B) (w w' : World) (e : exn) :
  m w = Raise e w' -> bind m k w = Raise e w'.
Proof. intros E. unfold bind. now rewrite E. Qed.

Lemma bind_inv {A B} (m : M A) (k : A -> M B) (w : World) (r : Res B) :
  bind m k w = r ->
  (exists a w1, m w = Ret a w1 /\ k a w1 = r) \/
  (exists c w1, m w = Exit c w1 /\ r = Exit c w1) \/
  (exists e w1, m w = Raise e w1 /\ r = Raise e w1).
Proof.
  unfold bind. destruct (m w) as [a w1|c w1|e w1]; intros <-; eauto 6.
Qed.

Lemma fs_stable_menu : fs_stable menu.
Proof. unfold menu. frame. Qed.

Lemma never_exits_menu : never_exits menu.
Proof. unfold menu. pose proof never_exits_print_choices. unfold print_header. frame. Qed.

Lemma fs_stable_gate h : fs_stable (gate h).
Proof. unfold gate. pose proof fs_stable_menu. frame. Qed.

Lemma fs_stable_collect : fs_stable collect.
Proof. unfold collect. frame. Qed.

Lemma never_exits_collect : never_exits collect.
Proof. unfold collect. frame. Qed.

Lemma never_exits_materialize h r n d a u : never_exits (materialize h r n d a u).
Proof. unfold materialize. frame. Qed.

Lemma never_exits_poetry_metadata n d a : never_exits (poetry_metadata n d a).
Proof. unfold poetry_metadata. frame. Qed.

Lemma never_exits_finalize h r n d a u : never_exits (finalize h r n d a u).
Proof.
  unfold finalize. pose proof never_exits_poetry_metadata. frame.
Qed.

Lemma never_exits_summary r u : never_exits (summary r u).
Proof. unfold summary. frame. Qed.

(** Once the project directory is settled, the run does not call [sys.exit]. *)
Lemma never_exits_after_dir h r n d a u :
  never_exits (materialize h r n d a u ;; finalize h r n d a u ;; summary r u).
Proof.
  pose proof never_exits_materialize. pose proof never_exits_finalize.
  pose proof never_exits_summary. frame.
Qed.

(** The replies that make [ensure_project_dir] abort. *)
Definition aborts (answer : string) : bool :=
  bool_decide (lower (strip answer) ∈ [EmptyString; "y"; "yes"]).

(** The console after the conflict was reported and the question asked. *)
Definition conflict_asked (project_root : Path) (w : World) (rest : list string) : World :=
  mkWorld (fs w) rest
    (stdout w ++
     [(NL +:+ "Directory " +:+ to_str project_root +:+
       " already exists and is not empty.") +:+ NL;
      "Do you want to abort and choose a different project name? [Y/n]: "]).

Lemma input_reads (prompt line : string) (w : World) (rest : list string) :
  stdin w = line :: rest ->
  input prompt w = Ret line (mkWorld (fs w) rest (stdout w ++ [prompt])).
Proof. intros E. unfold input. now rewrite E. Qed.

Lemma ensure_project_dir_conflict (h : Host) (project_name : string) (w : World)
    (answer : string) (rest : list string) :
  fs w !! (home h / project_name)%path = Some Dir ->
  has_entries (fs w) (home h / project_name)%path = true ->
  stdin w = answer :: rest ->
  ensure_project_dir h project_name w =
    if aborts answer
    then Exit 1 (conflict_asked (home h / project_name)%path w rest)
    else Ret (home h / project_name)%path
             (conflict_asked (home h / project_name)%path w rest).
Proof.
  intros Hd Hn Hi.
  assert (Ea : conflict_asked (home h / project_name)%path w rest =
               mkWorld (fs w) rest
                 (stdout (emits [(NL +:+ "Directory " +:+
                                  to_str (home h / project_name)%path +:+
                                  " already exists and is not empty.") +:+ NL] w) ++
                  ["Do you want to abort and choose a different project name? [Y/n]: "])).
  { unfold conflict_asked, emits. cbn [stdout]. now rewrite <- app_assoc. }
  unfold ensure_project_dir. cbv zeta.
  erewrite (bind_Ret_at (path_exists _)) by reflexivity.
  rewrite Hd, bool_decide_eq_true_2 by eauto. cbv iota.
  rewrite !bind_assoc_at.
  erewrite (bind_Ret_at (iterdir_any _))
    by (unfold iterdir_any; rewrite Hd, Hn; reflexivity).
  cbv iota. rewrite !bind_assoc_at, bind_print_at. cbv beta.
  rewrite !bind_assoc_at.
  erewrite (bind_Ret_at (input _)) by (apply input_reads; exact Hi).
  cbv beta zeta. unfold aborts. rewrite Ea. cbn [emits fs].
  destruct (bool_decide (lower (strip answer) ∈ [EmptyString; "y"; "yes"]));
    reflexivity.
Qed.

Lemma ensure_project_dir_exit (h : Host) (n : string) (w : World) (c : Z) (w' : World) :
  ensure_project_dir h n w = Exit c w' -> c = 1 /\ fs w' = fs w.
Proof.
  unfold ensure_project_dir. cbv zeta. intros H.
  apply bind_inv in H as [(pe & w1 & E1 & H)|[(c1 & w1 & E1 & _)|(e & w1 & _ & H)]];
    [| discriminate E1 | discriminate].
  injection E1 as _ <-.
  apply bind_inv in H as [(u & w2 & _ & H)|[(c1 & w2 & H & E)|(e & w2 & _ & H)]];
    [discriminate | | discriminate].
  injection E as <- <-.
  destruct pe.
  - apply bind_inv in H as [(ne & w3 & E3 & H)|[(c2 & w3 & E3 & _)|(e & w3 & _ & H)]];
      [| now apply never_exits_iterdir_any in E3 | discriminate].
    pose proof (fs_stable_iterdir_any (home h / n)%path w) as S3.
    rewrite E3 in S3. cbn [world_of] in S3.
    destruct ne; [|discriminate].
    rewrite bind_print_at in H.
    apply bind_inv in H as [(a & w4 & E4 & H)|[(c2 & w4 & E4 & _)|(e & w4 & _ & H)]];
      [| now apply never_exits_input in E4 | discriminate].
    pose proof (fs_stable_input
                  "Do you want to abort and choose a different project name? [Y/n]: "
                  (emits [(NL +:+ "Directory " +:+ to_str (home h / n)%path +:+
                           " already exists and is not empty.") +:+ NL] w3)) as S4.
    rewrite E4 in S4. cbn [world_of emits fs] in S4.
    cbv zeta in H. destruct (bool_decide _); [|discriminate].
    injection H as <- <-. split; [reflexivity | congruence].
  - exfalso. revert H. apply never_exits_bind; frame.
Qed.

(** C1 (as the code has it). When the target directory exists and is not
    empty, [ensure_project_dir] reports the conflict and asks; the reply,
    stripped and lower-cased, decides. On the empty reply, [y] or [yes] the
    run leaves through [sys.exit] with status 1 and the file system as it
    was when [main] started. On every other reply the directory is used:
    the call returns it, [main] goes on with the scaffold, the workflow's
    last step and the summary in that directory, from the world the
    question left, and its result is theirs; it does not leave through
    [sys.exit] any more. So [sys.exit] is reached at the conflict on these
    three replies and on no other; a run that goes on can still end with
    an exception of the scaffold that nothing catches ([OSError] when a
    directory stands where a file is to be written), and then it has
    written what came before. *)
Theorem conflict_reply_decides (h : Host) (project_name : string) (w : World)
    (answer : string) (rest : list string) :
  fs w !! (home h / project_name)%path = Some Dir ->
  has_entries (fs w) (home h / project_name)%path = true ->
  stdin w = answer :: rest ->
  ensure_project_dir h project_name w =
    (if aborts answer
     then Exit 1 (conflict_asked (home h / project_name)%path w rest)
     else Ret (home h / project_name)%path
              (conflict_asked (home h / project_name)%path w rest)) /\
  forall w0 option w1 description author,
    gate h w0 = Ret option w1 ->
    collect w1 = Ret (project_name, description, author) w ->
    if aborts answer
    then main h w0 = Exit 1 (conflict_asked (home h / project_name)%path w rest) /\
         fs (conflict_asked (home h / project_name)%path w rest) = fs w0
    else main h w0 =
           (materialize h (home h / project_name)%path project_name description author
              (bool_decide (option = "1")) ;;
            finalize h (home h / project_name)%path project_name description author
              (bool_decide (option = "1")) ;;
            summary (home h / project_name)%path (bool_decide (option = "1")))
             (conflict_asked (home h / project_name)%path w rest) /\
         forall c w', main h w0 <> Exit c w'.
Proof.
  intros Hd Hn Hi.
  pose proof (ensure_project_dir_conflict h project_name w answer rest Hd Hn Hi) as E.
  split; [exact E|].
  intros w0 option w1 description author Hg Hc.
  rewrite main_phases. unfold phases.
  rewrite (bind_Ret_at _ _ _ _ _ Hg), (bind_Ret_at _ _ _ _ _ Hc).
  cbv beta iota zeta.
  destruct (aborts answer).
  - rewrite (bind_Exit_at _ _ _ _ _ E). split; [reflexivity|].
    cbn [conflict_asked fs].
    pose proof (fs_stable_gate h w0) as H1. rewrite Hg in H1.
    pose proof (fs_stable_collect w1) as H2. rewrite Hc in H2.
    cbn [world_of] in *. congruence.
  - rewrite (bind_Ret_at _ _ _ _ _ E). split; [reflexivity|]. apply never_exits_after_dir.
Qed.

(** How the gate can leave through [sys.exit]. *)
Lemma gate_exit (h : Host) (w : World) (c : Z) (w' : World) :
  gate h w = Exit c w' ->
  (c = 0 /\ exists w1, menu w = Ret "q" w1) \/
  (c = 1 /\ exists o w1, menu w = Ret o w1 /\ o <> "q" /\
                         ensure_prereqs h o w1 = Ret false w').
Proof.
  unfold gate. intros H.
  apply bind_inv in H as [(o & w1 & Em & H)|[(c1 & w1 & Em & _)|(e & w1 & _ & H)]];
    [| now apply never_exits_menu in Em | discriminate].
  apply bind_inv in H as [(u & w2 & Eq & H)|[(c1 & w2 & Eq & H)|(e & w2 & _ & H)]];
    [| | discriminate].
  - destruct (bool_decide (o = "q")) eqn:Eo; [discriminate|].
    injection Eq as _ <-. apply bool_decide_eq_false in Eo.
    apply bind_inv in H as [(ok & w3 & Ep & H)|[(c1 & w3 & Ep & _)|(e & w3 & _ & H)]];
      [| now apply never_exits_ensure_prereqs in Ep | discriminate].
    destruct ok; [discriminate|].
    cbn in H. injection H as <- <-. right. split; [reflexivity|]. eauto.
  - destruct (bool_decide (o = "q")) eqn:Eo; [|discriminate].
    apply bool_decide_eq_true in Eo. subst o.
    cbn in Eq. injection Eq as <- <-. injection H as <- _.
    left. split; [reflexivity|]. eauto.
Qed.


(** ** A run of the requirements workflow (C9) *)

(** The home directory of the scenarios, and a file system that holds it,
    empty, and its ancestors. *)
Definition user_home : Path := ["/"; "home"; "user"].

Definition home_tree : FS :=
  <[ ["/"; "home"; "user"] := Dir ]> (<[ ["/"; "home"] := Dir ]> (<[ ["/"] := Dir ]> ∅)).

(** A Linux host with pyenv, pyenv-virtualenv and Poetry, and bash as the
    login shell. *)
Definition linux_host : Host :=
  mkHost user_home
    (fun cmd => bool_decide (cmd ∈ ["pyenv"; "poetry"]))
    (Some 0)
    "Linux" "6.8.0-49-generic" "3.12.3"
    (fun name => if bool_decide (name = "SHELL") then Some "/bin/bash" else None).

Definition is_file (m : FS) (p : Path) : bool :=
  match m !! p with
  | Some (File _ _) => true
  | _ => false
  end.

Definition is_dir (m : FS) (p : Path) : bool :=
  match m !! p with
  | Some Dir => true
  | _ => false
  end.

(** The gate on a host that has what the chosen workflow requires. *)
Lemma ensure_prereqs_ready (h : Host) (wf : Workflow) (w : World) :
  forallb (available h) (required_tools wf) = true ->
  ensure_prereqs h (option_key wf) w =
    Ret true (emit ("Environment checks passed." +:+ NL) w).
Proof.
  intros H. unfold ensure_prereqs.
  destruct wf; cbn [option_key required_tools forallb available] in *.
  - destruct (check_pyenv h); [|discriminate]. destruct (check_poetry h); [|discriminate].
    reflexivity.
  - destruct (check_pyenv h); [|discriminate].
    destruct (check_pyenv_virtualenv h); [|discriminate].
    reflexivity.
Qed.

(** What one prompt returns when a line is there to be read. *)
Lemma prompt_with_default_reads (prompt default line : string) (w : World)
    (rest : list string) :
  stdin w = line :: rest ->
  prompt_with_default prompt default w =
    Ret (if bool_decide (strip line = EmptyString) then default else strip line)
        (mkWorld (fs w) rest (stdout w ++ [prompt +:+ " [" +:+ default +:+ "]: "])).
Proof.
  intros E. unfold prompt_with_default, bind, input, ret. now rewrite E.
Qed.

(** A run that returned and left the directory [root] with the files
    [rels] in it, as a test that can be evaluated. *)
Definition completed_with (r : Res unit) (root : Path) (rels : list Path) : bool :=
  match r with
  | Ret _ w' => is_dir (fs w') root && forallb (fun rel => is_file (fs w') (root ++ rel)) rels
  | _ => false
  end.

Lemma completed_with_spec (r : Res unit) (root : Path) (rels : list Path) :
  completed_with r root rels = true ->
  exists w', r = Ret tt w' /\ is_dir (fs w') root = true /\
             Forall (fun rel => is_file (fs w') (root ++ rel) = true) rels.
Proof.
  destruct r as [[] w'|c w'|e w']; cbn [completed_with]; try discriminate.
  intros H. apply andb_prop in H as [Hd Hf]. exists w'.
  split; [reflexivity|]. split; [exact Hd|].
  apply Forall_forall. intros rel Hin. rewrite forallb_forall in Hf.
  apply Hf, list_elem_of_In, Hin.
Qed.

(** C9. On a host whose home directory is [/home/user] and empty and that
    has pyenv and pyenv-virtualenv, the run that chooses workflow 2 and
    names the project [blog] (whatever is answered for the description and
    the author, and whatever follows on the input) completes with status 0
    and leaves the directory [/home/user/blog] with, among others, the
    files requirements.txt, .env, .flaskenv, app/__init__.py, main.py and
    config.py. *)
Theorem blog_requirements_run (h : Host) (description author : string)
    (rest out : list string) :
  home h = user_home ->
  check_pyenv h = true ->
  check_pyenv_virtualenv h = true ->
  exists w',
    main h (mkWorld home_tree ("2" :: "blog" :: description :: author :: rest) out)
      = Ret tt w' /\
    exit_status
      (main h (mkWorld home_tree ("2" :: "blog" :: description :: author :: rest) out))
      = 0 /\
    is_dir (fs w') (user_home ++ ["blog"]) = true /\
    Forall (fun rel => is_file (fs w') (user_home ++ "blog" :: rel) = true)
      [["requirements.txt"]; [".env"]; [".flaskenv"]; ["app"; "__init__.py"];
       ["main.py"]; ["config.py"]].
Proof.
  intros Hh Hp Hv.
  set (w := mkWorld home_tree ("2" :: "blog" :: description :: author :: rest) out).
  assert (Em : menu w = Ret "2" (world_of (menu w))) by (vm_compute; reflexivity).
  assert (Hg : gate h w =
               Ret "2" (emit ("Environment checks passed." +:+ NL)
                          (world_of (menu w)))).
  { unfold gate. rewrite (bind_Ret_at _ _ _ _ _ Em).
    change (bool_decide ("2" = "q")) with false. cbv iota. rewrite bind_ret_at.
    rewrite (bind_Ret_at _ _ _ _ _
               (ensure_prereqs_ready h RequirementsFileManaged _
                  ltac:(cbn; now rewrite Hp, Hv))).
    reflexivity. }
  assert (Hr : completed_with (main h w) (user_home ++ ["blog"])
                 [["requirements.txt"]; [".env"]; [".flaskenv"];
                  ["app"; "__init__.py"]; ["main.py"]; ["config.py"]] = true).
  { rewrite main_phases. unfold phases. rewrite (bind_Ret_at _ _ _ _ _ Hg).
    clear Hg Em. subst w. unfold collect.
    rewrite !bind_assoc_at.
    erewrite (bind_Ret_at (prompt_with_default _ _));
      [|apply prompt_with_default_reads; vm_compute; reflexivity].
    rewrite !bind_assoc_at.
    erewrite (bind_Ret_at (prompt_with_default _ _));
      [|apply prompt_with_default_reads; reflexivity].
    rewrite !bind_assoc_at.
    erewrite (bind_Ret_at (prompt_with_default _ _));
      [|apply prompt_with_default_reads; reflexivity].
    rewrite bind_ret_at.
    change (strip "blog") with "blog".
    change (bool_decide ("blog" = EmptyString)) with false.
    change (bool_decide ("2" = "1")) with false.
    cbv beta iota zeta.
    (* the answers and the two texts rendered from them stay symbolic *)
    generalize (if bool_decide (strip description = EmptyString)
                then "A starter Flask application." else strip description).
    generalize (if bool_decide (strip author = EmptyString)
                then "Your Name" else strip author).
    intros a d.
    unfold materialize, scaffold_top_level_files.
    generalize (readme "blog" d) (license_text a). intros rd lic.
    destruct h as [hm wh pv sy re py en]. cbn [home] in Hh. subst hm.
    vm_compute. reflexivity. }
  destruct (completed_with_spec _ _ _ Hr) as (w' & E & Hd & Hf).
  exists w'. rewrite E. auto.
Qed.

(** ** Lines of a text *)

Section LineFacts.

(** Induction two characters at a time, for the functions that look at the
    character after a CR. *)
Lemma string_ind2 (P : string -> Prop) :
  P EmptyString ->
  (forall c, P (String c EmptyString)) ->
  (forall c d s, P s -> P (String d s) -> P (String c (String d s))) ->
  forall s, P s.
Proof.
  intros H0 H1 H2 s.
  enough (P s /\ forall c, P (String c s)) by tauto.
  induction s as [|d s [IH1 IH2]]; split; auto.
Qed.

(** A text without CR: what reading in text mode returns. *)
Definition cr_free (s : string) : bool :=
  all_chars (fun c => negb (bool_decide (c = cr))) s.

Lemma cr_free_cons (c : ascii) (s : string) :
  cr_free (String c s) = negb (bool_decide (c = cr)) && cr_free s.
Proof. reflexivity. Qed.

Lemma cr_free_app (a b : string) : cr_free (a +:+ b) = cr_free a && cr_free b.
Proof.
  induction a as [|c a IH]; [reflexivity|].
  rewrite append_cons, !cr_free_cons, IH. now rewrite andb_assoc.
Qed.

Lemma cr_free_universal_newlines (s : string) : cr_free (universal_newlines s) = true.
Proof.
  induction s as [|c|c d s IH1 IH2] using string_ind2.
  - reflexivity.
  - cbn [universal_newlines]. destruct (bool_decide (c = cr)) eqn:E; [reflexivity|].
    rewrite cr_free_cons, E. reflexivity.
  - cbn [universal_newlines] in *. destruct (bool_decide (c = cr)) eqn:E.
    + destruct (bool_decide (d = nl)); rewrite cr_free_cons; [exact IH1 | exact IH2].
    + rewrite cr_free_cons, E. exact IH2.
Qed.

Lemma universal_newlines_cr_free (s : string) :
  cr_free s = true -> universal_newlines s = s.
Proof.
  induction s as [|c s IH]; [reflexivity|].
  rewrite cr_free_cons. intros H. apply andb_prop in H as [Hc Hs].
  cbn [universal_newlines]. apply negb_true_iff in Hc. rewrite Hc.
  now rewrite IH.
Qed.

Lemma cr_free_rstrip_nl (s : string) : cr_free s = true -> cr_free (rstrip_nl s) = true.
Proof.
  intros H. destruct (rstrip_nl_split s) as [k Hk].
  rewrite Hk, cr_free_app in H. now apply andb_prop in H as [H _].
Qed.

(** [c] put in front of the first line. *)
Definition cons_first (c : ascii) (ls : list string) : list string :=
  match ls with
  | [] => [String c EmptyString]
  | l :: ls' => String c l :: ls'
  end.

Lemma cons_first_app (c : ascii) (l1 l2 : list string) :
  l1 <> [] -> cons_first c (l1 ++ l2) = cons_first c l1 ++ l2.
Proof. destruct l1; [congruence | reflexivity]. Qed.

Lemma splitlines_char (c : ascii) (s : string) :
  is_linebreak c = false -> splitlines (String c s) = cons_first c (splitlines s).
Proof. intros H. cbn [splitlines]. now rewrite H. Qed.

Lemma splitlines_break (c : ascii) (s : string) :
  is_linebreak c = true -> c <> cr ->
  splitlines (String c s) = EmptyString :: splitlines s.
Proof.
  intros H Hc. cbn [splitlines]. rewrite H.
  rewrite (bool_decide_eq_false_2 _ Hc). now destruct s.
Qed.

Lemma splitlines_nonempty (c : ascii) (s : string) : splitlines (String c s) <> [].
Proof.
  cbn [splitlines]. destruct (is_linebreak c).
  - destruct s; [discriminate|]. destruct (_ && _); discriminate.
  - destruct (splitlines s); discriminate.
Qed.

Lemma is_linebreak_nl : is_linebreak nl = true.
Proof. reflexivity. Qed.

Lemma nl_not_cr : nl <> cr.
Proof. discriminate. Qed.

(** A newline ends the line it is in, and the lines after it are those of
    the rest. *)
Lemma splitlines_app_nl (a u : string) :
  cr_free a = true ->
  splitlines (a +:+ String nl u) = splitlines (a +:+ NL) ++ splitlines u.
Proof.
  induction a as [|c a IH]; intros H.
  - rewrite !append_nil_l. unfold NL.
    rewrite !(splitlines_break nl) by (reflexivity || discriminate). reflexivity.
  - rewrite cr_free_cons in H. apply andb_prop in H as [Hc Ha].
    apply negb_true_iff, bool_decide_eq_false in Hc.
    rewrite !append_cons. destruct (is_linebreak c) eqn:E.
    + rewrite !splitlines_break by assumption. now rewrite IH.
    + rewrite !splitlines_char by assumption. rewrite IH by assumption.
      apply cons_first_app. destruct a; apply splitlines_nonempty.
Qed.

(** Whether a text is empty or ends at a line boundary. *)
Definition at_line_start (s : string) : bool :=
  match last_char s with
  | None => true
  | Some c => is_linebreak c
  end.

Lemma at_line_start_cons (c d : ascii) (s : string) :
  at_line_start (String c (String d s)) = at_line_start (String d s).
Proof. reflexivity. Qed.

(** A newline added at the end adds an empty line exactly when the text is
    at the start of a line. *)
Lemma splitlines_snoc_nl (a : string) :
  cr_free a = true ->
  splitlines (a +:+ NL) =
    splitlines a ++ (if at_line_start a then [EmptyString] else []).
Proof.
  induction a as [|c a IH]; intros H; [reflexivity|].
  rewrite cr_free_cons in H. apply andb_prop in H as [Hc Ha].
  apply negb_true_iff, bool_decide_eq_false in Hc.
  rewrite append_cons. destruct (is_linebreak c) eqn:E.
  - rewrite !splitlines_break by assumption. rewrite IH by assumption.
    destruct a as [|d a]; [|reflexivity].
    unfold at_line_start. cbn [last_char]. now rewrite E.
  - rewrite !splitlines_char by assumption. rewrite IH by assumption.
    destruct a as [|d a].
    + unfold at_line_start. cbn [last_char]. now rewrite E.
    + rewrite at_line_start_cons. apply cons_first_app, splitlines_nonempty.
Qed.

Lemma splitlines_newlines (k : nat) :
  splitlines (repeat_str NL k) = repeat EmptyString k.
Proof.
  induction k as [|k IH]; [reflexivity|].
  rewrite repeat_str_S. unfold NL at 1. rewrite append_cons, append_nil_l.
  rewrite splitlines_break by (reflexivity || discriminate). now rewrite IH.
Qed.

End LineFacts.

(** ** The Poetry alias (C6, C7) *)

(** Whether [detect_platform] answers one of macos, ubuntu, wsl, linux. *)
Definition unix_like (h : Host) : bool :=
  contains (lower (platform_release h)) "microsoft" || env_truthy h "WSL_DISTRO_NAME"
  || bool_decide (lower (platform_system h) = "darwin")
  || bool_decide (lower (platform_system h) = "linux").

(** The startup file [ensure_poetry_alias] works on. *)
Definition rc_file (h : Host) : Path :=
  if unix_like h then
    if endswith (default EmptyString (environ h "SHELL")) "zsh"
    then (home h / ".zshrc")%path
    else (home h / ".bashrc")%path
  else (home h / ".bashrc")%path.

Lemma detect_platform_returns (h : Host) (w : World) :
  exists s, detect_platform h w = Ret s w /\
            bool_decide (s ∈ ["macos"; "ubuntu"; "wsl"; "linux"]) = unix_like h.
Proof.
  unfold detect_platform, unix_like.
  destruct (contains (lower (platform_release h)) "microsoft" ||
            env_truthy h "WSL_DISTRO_NAME") eqn:E1.
  { exists "wsl". split; reflexivity. }
  cbn [orb].
  destruct (bool_decide (lower (platform_system h) = "darwin")) eqn:E2.
  { exists "macos". split; reflexivity. }
  cbn [orb].
  destruct (bool_decide (lower (platform_system h) = "linux")) eqn:E3.
  { unfold path_read_text.
    destruct (fs w !! parse "/etc/os-release") as [[|t r]|].
    - exists "linux". split; reflexivity.
    - destruct (contains (lower (universal_newlines t)) "ubuntu");
        [exists "ubuntu" | exists "linux"]; split; reflexivity.
    - exists "linux". split; reflexivity. }
  destruct (bool_decide (lower (platform_system h) = "windows"));
    [exists "windows" | exists "other"]; split; reflexivity.
Qed.

Definition alias_line : string := "alias pf='poetry run flask'".

(** The test of the loop over the lines of the startup file. *)
Definition is_alias_line (line : string) : bool :=
  startswith (strip line) "alias pf=".

Definition has_alias (content : string) : bool :=
  existsb is_alias_line (splitlines content).

(** [new_content] *)
Definition with_alias (content : string) : string :=
  rstrip_nl content +:+ NL +:+ alias_line +:+ NL.

(** The statements of [ensure_poetry_alias] that follow the choice of
    [rc_path]. *)
Definition alias_at (rc_path : Path) : M unit :=
  let append_alias (content : string) : M unit :=
    path_write_text rc_path (with_alias content) ;;
    print ("Added alias 'pf' to " +:+ to_str rc_path +:+
           ". You may need to reload your shell.") in
  pe <- path_exists rc_path ;;
  if pe then
    content <- path_read_text rc_path ;;
    if has_alias content
    then print ("Alias 'pf' already present in " +:+ to_str rc_path +:+ ".")
    else append_alias content
  else append_alias EmptyString.

Lemma ensure_poetry_alias_at (h : Host) (w : World) :
  ensure_poetry_alias h w = alias_at (rc_file h) w.
Proof.
  unfold ensure_poetry_alias.
  destruct (detect_platform_returns h w) as (s & Es & Hs).
  rewrite (bind_Ret_at _ _ _ _ _ Es). rewrite Hs. reflexivity.
Qed.

Definition already_present (rc : Path) : string :=
  ("Alias 'pf' already present in " +:+ to_str rc +:+ ".") +:+ NL.

Definition alias_added (rc : Path) : string :=
  ("Added alias 'pf' to " +:+ to_str rc +:+ ". You may need to reload your shell.") +:+ NL.

(** The world after the startup file was rewritten with the alias. *)
Definition rewritten (rc : Path) (content : string) (w : World) : World :=
  mkWorld (<[rc := File (with_alias content) false]> (fs w)) (stdin w)
          (stdout w ++ [alias_added rc]).

Lemma alias_at_file (rc : Path) (w : World) (text : string) (ro : bool) :
  fs w !! rc = Some (File text ro) ->
  alias_at rc w =
    if has_alias (universal_newlines text) then Ret tt (emits [already_present rc] w)
    else if ro then Raise OSError w
    else Ret tt (rewritten rc (universal_newlines text) w).
Proof.
  intros H. unfold alias_at. cbv zeta.
  erewrite (bind_Ret_at (path_exists _)) by reflexivity.
  rewrite H, bool_decide_eq_true_2 by eauto. cbv iota.
  erewrite (bind_Ret_at (path_read_text _))
    by (unfold path_read_text; rewrite H; reflexivity).
  destruct (has_alias (universal_newlines text)); [reflexivity|].
  unfold bind, path_write_text. rewrite H. destruct ro; reflexivity.
Qed.

Lemma alias_at_absent (rc : Path) (w : World) :
  fs w !! rc = None ->
  alias_at rc w =
    match fs w !! parent rc with
    | Some Dir => Ret tt (rewritten rc EmptyString w)
    | _ => Raise OSError w
    end.
Proof.
  intros H. unfold alias_at. cbv zeta.
  erewrite (bind_Ret_at (path_exists _)) by reflexivity.
  rewrite H. rewrite bool_decide_eq_false_2 by (intros [x Hx]; discriminate).
  cbv iota. unfold bind, path_write_text. rewrite H.
  destruct (fs w !! parent rc) as [[]|]; reflexivity.
Qed.

Lemma alias_at_dir (rc : Path) (w : World) :
  fs w !! rc = Some Dir -> alias_at rc w = Raise OSError w.
Proof.
  intros H. unfold alias_at. cbv zeta.
  erewrite (bind_Ret_at (path_exists _)) by reflexivity.
  rewrite H, bool_decide_eq_true_2 by eauto. cbv iota.
  unfold bind, path_read_text. now rewrite H.
Qed.

(** *** The lines of the rewritten file *)

Definition alias_count (content : string) : nat :=
  length (List.filter is_alias_line (splitlines content)).

Lemma has_alias_false_count (content : string) :
  has_alias content = false -> alias_count content = 0%nat.
Proof.
  unfold has_alias, alias_count. induction (splitlines content) as [|l ls IH];
    [reflexivity|].
  cbn [existsb List.filter]. destruct (is_alias_line l); [discriminate|]. exact IH.
Qed.

Lemma has_alias_true_count (content : string) :
  has_alias content = true -> (1 <= alias_count content)%nat.
Proof.
  unfold has_alias, alias_count. induction (splitlines content) as [|l ls IH];
    [discriminate|].
  cbn [existsb List.filter]. destruct (is_alias_line l); cbn [length orb]; [lia | exact IH].
Qed.

Lemma splitlines_alias_line : splitlines (alias_line +:+ NL) = [alias_line].
Proof. reflexivity. Qed.

Lemma no_alias_before (content : string) :
  cr_free content = true -> has_alias content = false ->
  existsb is_alias_line (splitlines (rstrip_nl content +:+ NL)) = false.
Proof.
  intros Hc Hn. pose proof (cr_free_rstrip_nl _ Hc) as Hr.
  destruct (rstrip_nl_split content) as [[|k] Hk].
  - cbn [repeat_str] in Hk. rewrite append_empty_r in Hk.
    rewrite splitlines_snoc_nl, existsb_app by assumption.
    rewrite <- Hk. unfold has_alias in Hn. rewrite Hn.
    now destruct (at_line_start content).
  - unfold has_alias in Hn. rewrite Hk in Hn.
    rewrite repeat_str_S in Hn. unfold NL at 1 in Hn.
    rewrite append_cons, append_nil_l in Hn.
    rewrite splitlines_app_nl, existsb_app in Hn by assumption.
    now apply orb_false_elim in Hn as [Hn _].
Qed.

Lemma splitlines_with_alias (content : string) :
  cr_free content = true ->
  splitlines (with_alias content) =
    splitlines (rstrip_nl content +:+ NL) ++ [alias_line].
Proof.
  intros Hc. unfold with_alias.
  change (NL +:+ alias_line +:+ NL) with (String nl (alias_line +:+ NL)).
  rewrite splitlines_app_nl by now apply cr_free_rstrip_nl.
  now rewrite splitlines_alias_line.
Qed.

Lemma has_alias_with_alias (content : string) :
  cr_free content = true -> has_alias (with_alias content) = true.
Proof.
  intros Hc. unfold has_alias. rewrite splitlines_with_alias, existsb_app by assumption.
  cbn [existsb]. change (is_alias_line alias_line) with true.
  now rewrite orb_true_r.
Qed.

Lemma alias_count_with_alias (content : string) :
  cr_free content = true -> has_alias content = false ->
  alias_count (with_alias content) = 1%nat.
Proof.
  intros Hc Hn. unfold alias_count.
  rewrite splitlines_with_alias, List.filter_app, length_app by assumption.
  pose proof (no_alias_before content Hc Hn) as H.
  change (existsb is_alias_line (splitlines (rstrip_nl content +:+ NL)))
    with (has_alias (rstrip_nl content +:+ NL)) in H.
  apply has_alias_false_count in H. unfold alias_count in H. rewrite H.
  reflexivity.
Qed.

Lemma cr_free_with_alias (content : string) :
  cr_free content = true -> cr_free (with_alias content) = true.
Proof.
  intros Hc. unfold with_alias. rewrite !cr_free_app.
  rewrite (cr_free_rstrip_nl _ Hc). reflexivity.
Qed.

(** The alias lines of the startup file, as the script reads it. *)
Definition alias_lines (m : FS) (rc : Path) : nat :=
  match m !! rc with
  | Some (File text _) => alias_count (universal_newlines text)
  | _ => 0%nat
  end.

Lemma alias_lines_rewritten (rc : Path) (content : string) (w : World) :
  cr_free content = true -> has_alias content = false ->
  alias_lines (fs (rewritten rc content w)) rc = 1%nat.
Proof.
  intros Hc Hn. unfold alias_lines, rewritten. cbn [fs].
  rewrite lookup_insert_eq.
  rewrite universal_newlines_cr_free by now apply cr_free_with_alias.
  now apply alias_count_with_alias.
Qed.

Lemma alias_at_rewritten (rc : Path) (content : string) (w : World) :
  cr_free content = true ->
  alias_at rc (rewritten rc content w) =
    Ret tt (emits [already_present rc] (rewritten rc content w)).
Proof.
  intros Hc.
  rewrite (alias_at_file rc _ (with_alias content) false)
    by (unfold rewritten; cbn [fs]; apply lookup_insert_eq).
  rewrite universal_newlines_cr_free by now apply cr_free_with_alias.
  now rewrite has_alias_with_alias.
Qed.

(** C6. If the startup file has a line whose stripped text begins with
    [alias pf=], [ensure_poetry_alias] returns with the file system as it
    was. And when a first run returned, a second run right after it returns
    too and changes no file; the startup file then has as many such lines
    as before the first run, or one if it had none (or did not exist):
    never a second one from the script. *)
Theorem alias_append_idempotent (h : Host) (w : World) :
  (forall text ro,
      fs w !! rc_file h = Some (File text ro) ->
      has_alias (universal_newlines text) = true ->
      exists w', ensure_poetry_alias h w = Ret tt w' /\ fs w' = fs w) /\
  (forall w1,
      ensure_poetry_alias h w = Ret tt w1 ->
      exists w2,
        ensure_poetry_alias h w1 = Ret tt w2 /\
        fs w2 = fs w1 /\
        alias_lines (fs w2) (rc_file h) = Nat.max 1 (alias_lines (fs w) (rc_file h))).
Proof.
  split.
  - intros text ro Hf Ha. rewrite ensure_poetry_alias_at, (alias_at_file _ _ _ _ Hf), Ha.
    eexists. split; reflexivity.
  - intros w1. rewrite !ensure_poetry_alias_at.
    destruct (fs w !! rc_file h) as [[|text ro]|] eqn:Hf.
    + rewrite (alias_at_dir _ _ Hf). discriminate.
    + rewrite (alias_at_file _ _ _ _ Hf).
      destruct (has_alias (universal_newlines text)) eqn:Ha.
      * intros [= <-]. exists (emits [already_present (rc_file h)]
                                 (emits [already_present (rc_file h)] w)).
        rewrite (alias_at_file _ _ text ro) by exact Hf. rewrite Ha.
        split; [reflexivity|]. split; [reflexivity|].
        cbn [emits fs]. unfold alias_lines. rewrite Hf.
        apply has_alias_true_count in Ha. lia.
      * destruct ro; [discriminate|]. intros [= <-].
        pose proof (cr_free_universal_newlines text) as Hc.
        exists (emits [already_present (rc_file h)]
                  (rewritten (rc_file h) (universal_newlines text) w)).
        split; [now apply alias_at_rewritten|]. split; [reflexivity|].
        cbn [emits fs]. rewrite alias_lines_rewritten by assumption.
        unfold alias_lines. rewrite Hf, (has_alias_false_count _ Ha). reflexivity.
    + rewrite (alias_at_absent _ _ Hf).
      destruct (fs w !! parent (rc_file h)) as [[|]|]; try discriminate.
      intros [= <-].
      exists (emits [already_present (rc_file h)] (rewritten (rc_file h) EmptyString w)).
      split; [now apply alias_at_rewritten|]. split; [reflexivity|].
      cbn [emits fs]. rewrite alias_lines_rewritten by reflexivity.
      unfold alias_lines. now rewrite Hf.
Qed.

(** C7 (as the code has it). When [ensure_poetry_alias] adds the alias to
    a startup file, it writes the file anew: the text it read (CR LF and CR
    read as LF) without its trailing newlines, then a newline, the alias
    line and a newline; no other path of the file system changes. So what
    stands before the trailing newlines is kept, in order, and when the
    text has no CR and ends in exactly one newline the new text is the old
    one with the alias line added at its end. *)
Theorem alias_append_rewrites (h : Host) (w : World) (text : string) :
  fs w !! rc_file h = Some (File text false) ->
  has_alias (universal_newlines text) = false ->
  exists w',
    ensure_poetry_alias h w = Ret tt w' /\
    fs w' = <[rc_file h :=
               File (rstrip_nl (universal_newlines text) +:+ NL +:+ alias_line +:+ NL)
                    false]> (fs w) /\
    (forall body,
        text = body +:+ NL -> last_char body <> Some nl -> cr_free body = true ->
        fs w' !! rc_file h = Some (File (text +:+ alias_line +:+ NL) false)).
Proof.
  intros Hf Ha. rewrite ensure_poetry_alias_at, (alias_at_file _ _ _ _ Hf), Ha.
  eexists. split; [reflexivity|]. split; [reflexivity|].
  intros body -> Hl Hc. unfold rewritten. cbn [fs]. rewrite lookup_insert_eq.
  unfold with_alias.
  rewrite universal_newlines_cr_free by (rewrite cr_free_app, Hc; reflexivity).
  rewrite rstrip_nl_app_nl by exact Hl.
  now rewrite !append_assoc.
Qed.

(** ** A failure of the alias step (C8) *)

Lemma ensure_poetry_alias_raise (h : Host) (w : World) (e : exn) (w' : World) :
  ensure_poetry_alias h w = Raise e w' -> e = OSError /\ w' = w.
Proof.
  rewrite ensure_poetry_alias_at.
  destruct (fs w !! rc_file h) as [[|text ro]|] eqn:Hf.
  - rewrite (alias_at_dir _ _ Hf). intros [= <- <-]. auto.
  - rewrite (alias_at_file _ _ _ _ Hf).
    destruct (has_alias _); [discriminate|]. destruct ro; [|discriminate].
    intros [= <- <-]. auto.
  - rewrite (alias_at_absent _ _ Hf).
    destruct (fs w !! parent (rc_file h)) as [[|]|]; try discriminate;
      intros [= <- <-]; auto.
Qed.

Lemma summary_returns (root : Path) (u : bool) (w : World) :
  exists w', summary root u w = Ret tt w' /\ fs w' = fs w.
Proof.
  assert (H : exists out, prints (summary root u) out).
  { unfold summary. eexists.
    do 4 (eapply prints_bind; [apply prints_print|]).
    eapply (prints_if u); prints_steps. }
  destruct H as [out H]. rewrite H. eexists. split; reflexivity.
Qed.

(** C8 (as the code has it). [main] calls [ensure_poetry_alias] with no
    handler around it. When the alias step raises (as it does for a
    startup file that is read-only and has no alias line yet), the run ends
    with that exception and status 1, before the closing summary; the
    project directory is then as the scaffold and [write_poetry_files] left
    it. When the alias step returns, the run completes with status 0. *)
Theorem alias_failure_ends_run (h : Host) (w w1 w2 w3 w4 w5 w6 : World)
    (n d a : string) (root : Path)
    (pn pv pd an ae lic rp : string) :
  gate h w = Ret "1" w1 ->
  collect w1 = Ret (n, d, a) w2 ->
  ensure_project_dir h n w2 = Ret root w3 ->
  materialize h root n d a true w3 = Ret tt w4 ->
  poetry_metadata n d a w4 = Ret (pn, pv, pd, an, ae, lic, rp) w5 ->
  write_poetry_files h root pn pv pd an ae lic rp w5 = Ret tt w6 ->
  (forall text,
      fs w6 !! rc_file h = Some (File text true) ->
      has_alias (universal_newlines text) = false ->
      ensure_poetry_alias h w6 = Raise OSError w6) /\
  (forall e w7,
      ensure_poetry_alias h w6 = Raise e w7 ->
      main h w = Raise e w7 /\ exit_status (main h w) = 1 /\ fs w7 = fs w6) /\
  (forall w7,
      ensure_poetry_alias h w6 = Ret tt w7 ->
      exists w8, main h w = Ret tt w8 /\ exit_status (main h w) = 0).
Proof.
  intros Hg Hc Hd Hm Hp Hw.
  assert (Hmain : main h w =
                  (ensure_poetry_alias h ;; summary root true) w6).
  { rewrite main_phases. unfold phases.
    rewrite (bind_Ret_at _ _ _ _ _ Hg), (bind_Ret_at _ _ _ _ _ Hc).
    cbv beta iota zeta. rewrite (bind_Ret_at _ _ _ _ _ Hd).
    change (bool_decide ("1" = "1")) with true.
    rewrite (bind_Ret_at _ _ _ _ _ Hm).
    unfold finalize. rewrite !bind_assoc_at, (bind_Ret_at _ _ _ _ _ Hp).
    cbv beta iota zeta. rewrite !bind_assoc_at, (bind_Ret_at _ _ _ _ _ Hw).
    reflexivity. }
  split; [|split].
  - intros text Hf Ha.
    rewrite ensure_poetry_alias_at, (alias_at_file _ _ _ _ Hf), Ha. reflexivity.
  - intros e w7 He. rewrite Hmain, (bind_Raise_at _ _ _ _ _ He).
    destruct (ensure_poetry_alias_raise _ _ _ _ He) as [_ ->]. auto.
  - intros w7 He. rewrite Hmain, (bind_Ret_at _ _ _ _ _ He).
    destruct (summary_returns root true w7) as (w8 & -> & _).
    exists w8. auto.
Qed.

(** ** The catalog of the scaffold (C5)

    The files [materialize] writes, in the order it writes them: the
    segments that are joined to the project root, and the text handed to
    [write_text]. *)

Definition top_level_files_entries (project_name : string) (description : string) (author : string) : list (Path * string) :=
  [([".flaskenv"], flaskenv);
   ([".env"], dotenv);
   ([".gitignore"], gitignore);
   ([".gitattributes"], gitattributes);
   (["LICENSE"], (license_text author));
   (["README.md"], (readme project_name description));
   (["CONTRIBUTING.md"], contributing);
   (["CODE_OF_CONDUCT.md"], coc)].

Definition config_and_main_entries : list (Path * string) :=
  [(["config.py"], config_py);
   (["app"; "__init__.py"], app_init);
   (["main.py"], main_py)].

Definition models_forms_email_errors_entries : list (Path * string) :=
  [(["app"; "models.py"], models_py);
   (["app"; "auth"; "forms.py"], auth_forms_py);
   (["app"; "main"; "forms.py"], main_forms_py);
   (["app"; "email.py"], email_py);
   (["app"; "errors"; "__init__.py"], errors_init);
   (["app"; "errors"; "handlers.py"], errors_handlers)].

Definition utils_entries : list (Path * string) :=
  [(["app"; "utils"; "__init__.py"], utils_init);
   (["app"; "utils"; "decorators.py"], decorators_py)].

Definition routes_entries : list (Path * string) :=
  [(["app"; "main"; "__init__.py"], main_init);
   (["app"; "main"; "routes.py"], main_routes);
   (["app"; "auth"; "__init__.py"], auth_init);
   (["app"; "auth"; "email.py"], auth_email_py);
   (["app"; "auth"; "routes.py"], auth_routes);
   (["app"; "admin"; "__init__.py"], admin_init);
   (["app"; "admin"; "routes.py"], admin_routes)].

Definition templates_entries : list (Path * string) :=
  [(["app"; "templates"; "base.html"], base_html);
   (["app"; "templates"; "partials"; "_flash_messages.html"], flash_messages);
   (["app"; "templates"; "partials"; "_footer.html"], footer);
   (["app"; "templates"; "partials"; "_public_navbar.html"], public_navbar);
   (["app"; "templates"; "partials"; "_dashboard_navbar.html"], dashboard_navbar);
   (["app"; "templates"; "main"; "index.html"], index_html);
   (["app"; "templates"; "main"; "contact.html"], contact_html);
   (["app"; "templates"; "auth"; "login.html"], login_html);
   (["app"; "templates"; "auth"; "register.html"], register_html);
   (["app"; "templates"; "auth"; "request_password_reset.html"], request_reset_html);
   (["app"; "templates"; "auth"; "reset_password.html"], reset_password_html);
   (["app"; "templates"; "dashboard"; "dashboard.html"], dashboard_html);
   (["app"; "templates"; "errors"; "404_public.html"], error_404_public);
   (["app"; "templates"; "errors"; "404_dashboard.html"], error_404_dashboard);
   (["app"; "templates"; "errors"; "500_public.html"], error_500_public);
   (["app"; "templates"; "errors"; "500_dashboard.html"], error_500_dashboard);
   (["app"; "templates"; "emails"; "reset_password.txt"], reset_txt);
   (["app"; "templates"; "emails"; "reset_password.html"], reset_html)].

Definition static_entries : list (Path * string) :=
  [(["app"; "static"; "css"; "main.css"], main_css);
   (["app"; "static"; "css"; "dashboard.css"], dashboard_css);
   (["app"; "static"; "js"; "main.js"], main_js);
   (["app"; "static"; "js"; "dashboard.js"], dashboard_js);
   (["app"; "static"; "img"; ".gitkeep"], EmptyString)].

Definition catalog (project_name description author : string) : list (Path * string) :=
  top_level_files_entries project_name description author ++
  config_and_main_entries ++
  models_forms_email_errors_entries ++
  utils_entries ++
  routes_entries ++
  templates_entries ++
  static_entries.

(** [root / s1 / ... / sn] *)
Definition resolve (root : Path) (segs : list string) : Path :=
  fold_left joinpath segs root.

Fixpoint write_all (h : Host) (root : Path) (entries : list (Path * string)) : M unit :=
  match entries with
  | [] => ret tt
  | (segs, text) :: rest => write_text h (resolve root segs) text ;; write_all h root rest
  end.

Lemma bind_ret_r_at (m : M unit) (w : World) : bind m (fun _ => ret tt) w = m w.
Proof. unfold bind, ret. destruct (m w) as [[] w'|c w'|e w']; reflexivity. Qed.

Lemma bind_cong2_at {A B} (m m' : M A) (k k' : A -> M B) (w : World) :
  (forall w', m w' = m' w') -> (forall a w', k a w' = k' a w') ->
  bind m k w = bind m' k' w.
Proof. intros Hm Hk. unfold bind. rewrite Hm. destruct (m' w); [apply Hk | reflexivity..]. Qed.

Lemma write_all_app (h : Host) (root : Path) (l1 l2 : list (Path * string)) (w : World) :
  write_all h root (l1 ++ l2) w = (write_all h root l1 ;; write_all h root l2) w.
Proof.
  revert w. induction l1 as [|[segs text] l1 IH]; intros w; [reflexivity|].
  cbn [write_all app]. rewrite bind_assoc_at. apply bind_cong_at. intros _ w'. apply IH.
Qed.

(** A function of the script that is a sequence of [write_text] calls is
    [write_all] of its entries. *)
Ltac as_entries :=
  intros; cbn [write_all]; unfold resolve; cbn [fold_left];
  repeat (apply bind_cong_at; intros);
  symmetry; apply bind_ret_r_at.

Lemma scaffold_top_level_files_entries h root n d a u w :
  scaffold_top_level_files h root n d a u w =
    write_all h root (top_level_files_entries n d a) w.
Proof. unfold scaffold_top_level_files, top_level_files_entries. cbv zeta. as_entries. Qed.

Lemma scaffold_config_and_main_entries h root w :
  scaffold_config_and_main h root w = write_all h root config_and_main_entries w.
Proof. unfold scaffold_config_and_main, config_and_main_entries. as_entries. Qed.

Lemma scaffold_models_forms_email_errors_entries h root w :
  scaffold_models_forms_email_errors h root w =
    write_all h root models_forms_email_errors_entries w.
Proof.
  unfold scaffold_models_forms_email_errors, models_forms_email_errors_entries. as_entries.
Qed.

Lemma scaffold_utils_entries h root w :
  scaffold_utils h root w = write_all h root utils_entries w.
Proof. unfold scaffold_utils, utils_entries. as_entries. Qed.

Lemma scaffold_routes_entries h root w :
  scaffold_routes h root w = write_all h root routes_entries w.
Proof. unfold scaffold_routes, routes_entries. as_entries. Qed.

Lemma scaffold_templates_entries h root w :
  scaffold_templates h root w = write_all h root templates_entries w.
Proof. unfold scaffold_templates, templates_entries. cbv zeta. as_entries. Qed.

Lemma scaffold_static_entries h root w :
  scaffold_static h root w = write_all h root static_entries w.
Proof. unfold scaffold_static, static_entries. cbv zeta. as_entries. Qed.

Lemma materialize_catalog h root n d a u w :
  materialize h root n d a u w =
    (print (NL +:+ "Scaffolding Flask project structure..." +:+ NL) ;;
     write_all h root (catalog n d a)) w.
Proof.
  unfold materialize, catalog. apply bind_cong_at. intros _ w1.
  repeat (rewrite write_all_app;
          apply bind_cong2_at;
          [first [ apply scaffold_top_level_files_entries
                 | apply scaffold_config_and_main_entries
                 | apply scaffold_models_forms_email_errors_entries
                 | apply scaffold_utils_entries
                 | apply scaffold_routes_entries
                 | apply scaffold_templates_entries ]
          | intros _ ?w ]).
  apply scaffold_static_entries.
Qed.

(** *** Files that stay as they were written *)

Lemma mkdir_chain_keeps_file (rest pre : Path) (m m' : FS) (q : Path)
    (t : string) (r : bool) :
  mkdir_chain pre rest m = Some m' ->
  m !! q = Some (File t r) -> m' !! q = Some (File t r).
Proof.
  revert pre m. induction rest as [|x rest IH]; intros pre m Hc Hq.
  - now injection Hc as <-.
  - cbn [mkdir_chain] in Hc.
    destruct (m !! (pre ++ [x])) as [[|t' r']|] eqn:E; [eauto | discriminate |].
    apply (IH _ _ Hc). rewrite lookup_insert_ne; [exact Hq|].
    intros Eq. rewrite <- Eq in Hq. congruence.
Qed.

Lemma write_text_keeps_file (h : Host) (p : Path) (c : string) (w w' : World)
    (q : Path) (t : string) (r : bool) :
  write_text h p c w = Ret tt w' -> q <> p ->
  fs w !! q = Some (File t r) -> fs w' !! q = Some (File t r).
Proof.
  unfold write_text, bind, mkdir_parents, path_write_text.
  destruct (mkdir_chain [] (parent p) (fs w)) as [m|] eqn:Em; [|discriminate].
  cbn [fs stdin stdout]. intros H Hne Hq.
  pose proof (mkdir_chain_keeps_file _ _ _ _ _ _ _ Em Hq) as Hm.
  destruct (m !! p) as [[|t' []]|]; try discriminate.
  - destruct (relative_to p (home h)); [|discriminate].
    injection H as <-. cbn. now rewrite lookup_insert_ne.
  - destruct (m !! parent p) as [[]|]; try discriminate.
    destruct (relative_to p (home h)); [|discriminate].
    injection H as <-. cbn. now rewrite lookup_insert_ne.
Qed.

Lemma write_all_keeps_file (h : Host) (root : Path) (entries : list (Path * string))
    (w w' : World) (q : Path) (t : string) (r : bool) :
  write_all h root entries w = Ret tt w' ->
  (forall e, In e entries -> resolve root e.1 <> q) ->
  fs w !! q = Some (File t r) -> fs w' !! q = Some (File t r).
Proof.
  revert w. induction entries as [|[segs text] rest IH]; intros w H Hne Hq.
  - now injection H as <-.
  - cbn [write_all] in H.
    apply bind_inv in H as [([] & w1 & E1 & H)|[(c & w1 & _ & H)|(e & w1 & _ & H)]];
      [| discriminate..].
    apply (IH w1 H); [intros e He; apply Hne; now right|].
    apply (write_text_keeps_file _ _ _ _ _ _ _ _ E1); [|exact Hq].
    intros ->. apply (Hne (segs, text)); [now left | reflexivity].
Qed.

(** A segment that [/] appends as it is. *)
Definition plain (s : string) : bool :=
  bool_decide (parse s = [s]) && negb (is_root s).

Lemma joinpath_plain (p : Path) (s : string) : plain s = true -> joinpath p s = p ++ [s].
Proof.
  unfold plain, joinpath. intros H. apply andb_prop in H as [H1 H2].
  apply bool_decide_eq_true in H1. rewrite H1. cbn [is_absolute].
  apply negb_true_iff in H2. now rewrite H2.
Qed.

Lemma resolve_plain (root : Path) (segs : list string) :
  forallb plain segs = true -> resolve root segs = root ++ segs.
Proof.
  unfold resolve. revert root. induction segs as [|s segs IH]; intros root H.
  - cbn. now rewrite app_nil_r.
  - cbn [forallb] in H. apply andb_prop in H as [Hs H].
    cbn [fold_left]. rewrite joinpath_plain by exact Hs. rewrite IH by exact H.
    now rewrite <- app_assoc.
Qed.

(** After [write_all] returned, each entry is on disk with its text and one
    trailing newline. *)
Lemma write_all_files (h : Host) (root : Path) (entries : list (Path * string))
    (w w' : World) :
  write_all h root entries w = Ret tt w' ->
  NoDup (map fst entries) ->
  forallb (fun e => forallb plain e.1) entries = true ->
  forall segs text,
    In (segs, text) entries ->
    fs w' !! (root ++ segs) = Some (File (rstrip_nl text +:+ NL) false).
Proof.
  revert w. induction entries as [|[s t] rest IH]; intros w H Hnd Hpl segs text Hin;
    [destruct Hin|].
  cbn [write_all] in H.
  apply bind_inv in H as [([] & w1 & E1 & H)|[(c & w1 & _ & H)|(e & w1 & _ & H)]];
    [| discriminate..].
  cbn [map fst] in Hnd. apply NoDup_cons in Hnd as [Hs Hnd].
  cbn [forallb fst] in Hpl. apply andb_prop in Hpl as [Hp Hpl].
  destruct Hin as [[= <- <-]|Hin].
  - apply (write_all_keeps_file _ _ _ _ _ _ _ _ H).
    + intros [s' t'] He. cbn [fst].
      assert (Hp' : forallb plain s' = true).
      { rewrite forallb_forall in Hpl. apply (Hpl (s', t')), He. }
      rewrite resolve_plain by exact Hp'. intros E. apply app_inv_head in E. subst s'.
      apply Hs. apply list_elem_of_In. apply (in_map fst) in He. exact He.
    + rewrite <- (resolve_plain root s) by exact Hp.
      apply (write_text_written h _ _ w). now left.
  - now apply (IH w1).
Qed.

Lemma catalog_paths (n d a : string) :
  map fst (catalog n d a) = map fst (catalog EmptyString EmptyString EmptyString).
Proof. reflexivity. Qed.

Lemma catalog_NoDup (n d a : string) : NoDup (map fst (catalog n d a)).
Proof. rewrite catalog_paths. apply (bool_decide_unpack _). vm_compute. exact I. Qed.

Lemma catalog_plain (n d a : string) :
  forallb (fun e => forallb plain e.1) (catalog n d a) = true.
Proof. reflexivity. Qed.

Lemma write_text_home (h1 h2 : Host) :
  home h1 = home h2 -> write_text h1 = write_text h2.
Proof. intros H. unfold write_text. now rewrite H. Qed.

Lemma materialize_files (h : Host) (root : Path) (n d a : string) (u : bool)
    (w w' : World) :
  materialize h root n d a u w = Ret tt w' ->
  forall segs text,
    In (segs, text) (catalog n d a) ->
    fs w' !! (root ++ segs) = Some (File (rstrip_nl text +:+ NL) false).
Proof.
  rewrite materialize_catalog, bind_print_at. intros H.
  apply (write_all_files _ _ _ _ _ H); [apply catalog_NoDup | apply catalog_plain].
Qed.

(** C5. What the scaffold writes is a function of the collected parameters.
    (1) The host enters the scaffold and the two manifests through its home
    directory only (where the files go and how they are reported): the
    platform, its version strings and the environment do not. (2) After a
    scaffold that returned, each file of the catalog holds the text of its
    entry (with one trailing newline), a text that is built from the
    project name, the description and the author alone. (3) So two
    scaffolds with the same three parameters, on whatever hosts, roots and
    file systems, leave the same content file by file; (4) and the LICENSE
    is the same as soon as the author is. *)
Theorem rendering_is_pure :
  (forall h1 h2 root n d a u w,
      home h1 = home h2 ->
      materialize h1 root n d a u w = materialize h2 root n d a u w) /\
  (forall h1 h2 root w,
      home h1 = home h2 ->
      write_requirements h1 root w = write_requirements h2 root w) /\
  (forall h1 h2 root pn pv pd an ae lic rp w,
      home h1 = home h2 ->
      write_poetry_files h1 root pn pv pd an ae lic rp w =
      write_poetry_files h2 root pn pv pd an ae lic rp w) /\
  (forall h root n d a u w w',
      materialize h root n d a u w = Ret tt w' ->
      forall segs text,
        In (segs, text) (catalog n d a) ->
        fs w' !! (root ++ segs) = Some (File (rstrip_nl text +:+ NL) false)) /\
  (forall h1 h2 root1 root2 n d a u1 u2 w1 w2 w1' w2',
      materialize h1 root1 n d a u1 w1 = Ret tt w1' ->
      materialize h2 root2 n d a u2 w2 = Ret tt w2' ->
      forall segs,
        In segs (map fst (catalog n d a)) ->
        fs w1' !! (root1 ++ segs) = fs w2' !! (root2 ++ segs)) /\
  (forall h1 h2 root1 root2 n1 n2 d1 d2 a u1 u2 w1 w2 w1' w2',
      materialize h1 root1 n1 d1 a u1 w1 = Ret tt w1' ->
      materialize h2 root2 n2 d2 a u2 w2 = Ret tt w2' ->
      fs w1' !! (root1 ++ ["LICENSE"]) =
        Some (File (rstrip_nl (license_text a) +:+ NL) false) /\
      fs w2' !! (root2 ++ ["LICENSE"]) = fs w1' !! (root1 ++ ["LICENSE"])).
Proof.
  repeat apply conj.
  - intros h1 h2 root n d a u w H.
    unfold materialize, scaffold_top_level_files, scaffold_config_and_main,
      scaffold_models_forms_email_errors, scaffold_utils, scaffold_routes,
      scaffold_templates, scaffold_static.
    now rewrite (write_text_home h1 h2 H).
  - intros h1 h2 root w H. unfold write_requirements.
    now rewrite (write_text_home h1 h2 H).
  - intros h1 h2 root pn pv pd an ae lic rp w H. unfold write_poetry_files.
    now rewrite (write_text_home h1 h2 H).
  - exact materialize_files.
  - intros h1 h2 root1 root2 n d a u1 u2 w1 w2 w1' w2' H1 H2 segs Hin.
    apply in_map_iff in Hin as ([s t] & <- & Hin). cbn [fst].
    rewrite (materialize_files _ _ _ _ _ _ _ _ H1 _ _ Hin).
    now rewrite (materialize_files _ _ _ _ _ _ _ _ H2 _ _ Hin).
  - assert (Hin : forall n d a, In (["LICENSE"], license_text a) (catalog n d a)).
    { intros n d a. unfold catalog, top_level_files_entries.
      apply in_or_app. left. do 4 right. left. reflexivity. }
    intros h1 h2 root1 root2 n1 n2 d1 d2 a u1 u2 w1 w2 w1' w2' H1 H2.
    rewrite (materialize_files _ _ _ _ _ _ _ _ H1 _ _ (Hin n1 d1 a)).
    rewrite (materialize_files _ _ _ _ _ _ _ _ H2 _ _ (Hin n2 d2 a)).
    split; reflexivity.
Qed.

(** ** The license identifier (C10) *)

(** The prompt that asks for the license identifier, as it is written to
    the console. *)
Definition license_prompt : string :=
  "License identifier (used alongside LICENSE file)" +:+ " [" +:+ "MIT" +:+ "]: ".

(** The same world with more lines to be read. *)
Definition more_input (r : list string) (w : World) : World :=
  mkWorld (fs w) (stdin w ++ r) (stdout w).

(** A call that reads the input in order: with more lines after those it
    read, it does the same and leaves them unread (unless it ran out of
    input). *)
Definition extends {A} (m : M A) : Prop :=
  forall w r,
    match m w with
    | Ret a w' => m (more_input r w) = Ret a (more_input r w')
    | Exit c w' => m (more_input r w) = Exit c (more_input r w')
    | Raise e w' => e = EOFError \/ m (more_input r w) = Raise e (more_input r w')
    end.

(** A call that does not run out of input at the license prompt. *)
Definition eof_elsewhere {A} (m : M A) : Prop :=
  forall w w', m w = Raise EOFError w' -> last (stdout w') <> Some license_prompt.

Section ReadsInOrder.
Context {A B : Type}.

Lemma extends_ret (a : A) : extends (ret a).
Proof. intros w r. reflexivity. Qed.

Lemma extends_sys_exit (c : Z) : extends (@sys_exit A c).
Proof. intros w r. reflexivity. Qed.

Lemma extends_raise (e : exn) : extends (@raise A e).
Proof. intros w r. right. reflexivity. Qed.

Lemma extends_bind (m : M A) (k : A -> M B) :
  extends m -> (forall a, extends (k a)) -> extends (bind m k).
Proof.
  intros Hm Hk w r. unfold bind. specialize (Hm w r).
  destruct (m w) as [a w1|c w1|e w1].
  - rewrite Hm. apply Hk.
  - now rewrite Hm.
  - destruct Hm as [->|Hm]; [now left | right; now rewrite Hm].
Qed.

Lemma extends_if (b : bool) (m1 m2 : M A) :
  extends m1 -> extends m2 -> extends (if b then m1 else m2).
Proof. now destruct b. Qed.

Lemma eof_elsewhere_ret (a : A) : eof_elsewhere (ret a).
Proof. intros w w'. discriminate. Qed.

Lemma eof_elsewhere_sys_exit (c : Z) : eof_elsewhere (@sys_exit A c).
Proof. intros w w'. discriminate. Qed.

Lemma eof_elsewhere_bind (m : M A) (k : A -> M B) :
  eof_elsewhere m -> (forall a, eof_elsewhere (k a)) -> eof_elsewhere (bind m k).
Proof.
  intros Hm Hk w w'. unfold bind.
  destruct (m w) as [a w1|c w1|e w1] eqn:E; [apply Hk | discriminate |].
  intros [= -> ->]. now apply Hm in E.
Qed.

Lemma eof_elsewhere_if (b : bool) (m1 m2 : M A) :
  eof_elsewhere m1 -> eof_elsewhere m2 -> eof_elsewhere (if b then m1 else m2).
Proof. now destruct b. Qed.

End ReadsInOrder.

Lemma extends_print s : extends (print s).
Proof. intros w r. reflexivity. Qed.

Lemma eof_elsewhere_print s : eof_elsewhere (print s).
Proof. intros w w'. discriminate. Qed.

Lemma extends_input p : extends (input p).
Proof.
  intros w r. unfold input. destruct (stdin w) as [|l rest] eqn:E; [now left|].
  cbn [more_input stdin fs stdout]. rewrite E. reflexivity.
Qed.

Lemma eof_elsewhere_input p : p <> license_prompt -> eof_elsewhere (input p).
Proof.
  intros Hp w w'. unfold input. destruct (stdin w); [|discriminate].
  intros [= <-]. cbn [emit stdout]. rewrite last_snoc. congruence.
Qed.

Lemma extends_path_exists p : extends (path_exists p).
Proof. intros w r. reflexivity. Qed.

Lemma eof_elsewhere_path_exists p : eof_elsewhere (path_exists p).
Proof. intros w w'. discriminate. Qed.

Lemma extends_iterdir_any p : extends (iterdir_any p).
Proof.
  intros w r. unfold iterdir_any. cbn [more_input fs].
  destruct (fs w !! p) as [[]|]; (reflexivity || (right; reflexivity)).
Qed.

Lemma eof_elsewhere_iterdir_any p : eof_elsewhere (iterdir_any p).
Proof. intros w w'. unfold iterdir_any. destruct (fs w !! p) as [[]|]; discriminate. Qed.

Lemma extends_mkdir_parents p : extends (mkdir_parents p).
Proof.
  intros w r. unfold mkdir_parents. cbn [more_input fs].
  destruct (mkdir_chain [] p (fs w)); (reflexivity || (right; reflexivity)).
Qed.

Lemma eof_elsewhere_mkdir_parents p : eof_elsewhere (mkdir_parents p).
Proof. intros w w'. unfold mkdir_parents. destruct (mkdir_chain _ _ _); discriminate. Qed.

Lemma extends_path_write_text p s : extends (path_write_text p s).
Proof.
  intros w r. unfold path_write_text. cbn [more_input fs].
  destruct (fs w !! p) as [[|t []]|]; try (reflexivity || (right; reflexivity)).
  destruct (fs w !! parent p) as [[]|]; (reflexivity || (right; reflexivity)).
Qed.

Lemma eof_elsewhere_path_write_text p s : eof_elsewhere (path_write_text p s).
Proof.
  intros w w'. unfold path_write_text.
  destruct (fs w !! p) as [[|t []]|]; try discriminate.
  destruct (fs w !! parent p) as [[]|]; discriminate.
Qed.

Lemma extends_path_read_text p : extends (path_read_text p).
Proof.
  intros w r. unfold path_read_text. cbn [more_input fs].
  destruct (fs w !! p) as [[]|]; (reflexivity || (right; reflexivity)).
Qed.

Lemma eof_elsewhere_path_read_text p : eof_elsewhere (path_read_text p).
Proof. intros w w'. unfold path_read_text. destruct (fs w !! p) as [[]|]; discriminate. Qed.

Lemma eof_elsewhere_raise {A} (e : exn) : e <> EOFError -> eof_elsewhere (@raise A e).
Proof. intros He w w'. unfold raise. congruence. Qed.

Create HintDb reads.
#[local] Hint Resolve extends_ret extends_sys_exit extends_raise extends_print
  extends_input extends_path_exists extends_iterdir_any extends_mkdir_parents
  extends_path_write_text extends_path_read_text
  eof_elsewhere_ret eof_elsewhere_sys_exit eof_elsewhere_print
  eof_elsewhere_path_exists eof_elsewhere_iterdir_any eof_elsewhere_mkdir_parents
  eof_elsewhere_path_write_text eof_elsewhere_path_read_text : reads.

(** Two texts that differ in their first character. *)
Lemma differ_at_head (c1 c2 : ascii) (s1 s2 t1 t2 : string) :
  c1 <> c2 -> String c1 s1 +:+ t1 <> String c2 s2 +:+ t2.
Proof. intros H. rewrite !append_cons. congruence. Qed.

Ltac reads :=
  repeat first
    [ progress intros
    | solve [auto with reads]
    | apply extends_bind | apply eof_elsewhere_bind
    | apply extends_if | apply eof_elsewhere_if
    | apply eof_elsewhere_input; solve [discriminate | apply differ_at_head; discriminate]
    | apply eof_elsewhere_raise; discriminate
    | match goal with
      | |- extends (match ?x with _ => _ end) => destruct x
      | |- eof_elsewhere (match ?x with _ => _ end) => destruct x
      | |- extends (let _ := _ in _) => cbv zeta
      | |- eof_elsewhere (let _ := _ in _) => cbv zeta
      end ].

Lemma extends_print_header : extends print_header.
Proof. unfold print_header. reads. Qed.

Lemma eof_elsewhere_print_header : eof_elsewhere print_header.
Proof. unfold print_header. reads. Qed.

Lemma extends_print_choices cs : extends (print_choices cs).
Proof. induction cs as [|[k l] cs IH]; cbn [print_choices]; reads. Qed.

Lemma eof_elsewhere_print_choices cs : eof_elsewhere (print_choices cs).
Proof. induction cs as [|[k l] cs IH]; cbn [print_choices]; reads. Qed.

(** One turn of the loop of [prompt_choice]. *)
Lemma prompt_choice_loop_turn p cs :
  exists out, forall L w,
    prompt_choice_loop p cs L w =
    match stdin w with
    | [] => Raise EOFError (emits (out ++ ["Enter choice: "]) w)
    | l :: rest =>
        let w1 := mkWorld (fs w) rest (stdout w ++ out ++ ["Enter choice: "]) in
        if is_key cs (strip l) then Ret (strip l) w1
        else match L with
             | [] => Raise EOFError (emits ["Invalid choice, please try again." +:+ NL +:+ NL] w1)
             | _ :: L' =>
                 prompt_choice_loop p cs L'
                   (emits ["Invalid choice, please try again." +:+ NL +:+ NL] w1)
             end
    end.
Proof.
  assert (exists o, prints (print_choices cs) o) as [o Ho].
  { induction cs as [|[k l] cs [o IH]]; cbn [print_choices].
    - eexists. apply prints_ret.
    - eexists. eapply prints_bind; [apply prints_print | exact IH]. }
  exists ((p +:+ NL) :: o). intros L w.
  assert (prompt_choice_loop p cs L w =
          bind (input "Enter choice: ")
            (fun value =>
               if is_key cs (strip value) then ret (strip value)
               else bind (print ("Invalid choice, please try again." +:+ NL))
                      (fun _ => match L with
                                | [] => raise EOFError
                                | _ :: L' => prompt_choice_loop p cs L'
                                end))
            (emits ((p +:+ NL) :: o) w)) as ->.
  { destruct L; cbn [prompt_choice_loop];
      now rewrite bind_print_at, (bind_prints_at _ _ _ _ Ho), emits_emits. }
  unfold bind at 1. unfold input. cbn [emits stdin fs stdout emit].
  destruct (stdin w) as [|l rest].
  - now rewrite emit_emits, emits_emits.
  - cbn zeta. rewrite <- app_assoc. destruct (is_key cs (strip l)); [reflexivity|].
    rewrite bind_print_at. rewrite <- append_assoc. now destruct L.
Qed.

(** The loop takes at most one turn per line of input. *)
Lemma prompt_choice_loop_fuel p cs L : forall L' w r,
  (length (stdin w) <= length L)%nat ->
  (length (stdin w ++ r) <= length L')%nat ->
  match prompt_choice_loop p cs L w with
  | Ret a w' => prompt_choice_loop p cs L' (more_input r w) = Ret a (more_input r w')
  | Exit c w' => prompt_choice_loop p cs L' (more_input r w) = Exit c (more_input r w')
  | Raise e w' =>
      e = EOFError \/ prompt_choice_loop p cs L' (more_input r w) = Raise e (more_input r w')
  end.
Proof.
  destruct (prompt_choice_loop_turn p cs) as [out Hs].
  induction L as [|x L IH]; intros L' w r H1 H2;
    rewrite (Hs _ w), (Hs L' (more_input r w)); cbn [more_input stdin fs stdout] in *;
    destruct (stdin w) as [|l rest]; try (now left); cbn [app length] in *; try lia.
  cbn zeta. destruct (is_key cs (strip l)); [reflexivity|].
  destruct L' as [|x' L']; cbn [length] in H2; [lia|].
  apply (IH L' (emits _ (mkWorld (fs w) rest _)) r); cbn [emits stdin]; lia.
Qed.

Lemma extends_prompt_choice p cs : extends (prompt_choice p cs).
Proof.
  intros w r. unfold prompt_choice. apply prompt_choice_loop_fuel; cbn [more_input stdin]; lia.
Qed.

Lemma choice_is_not_license : "Enter choice: " <> license_prompt.
Proof. discriminate. Qed.

Lemma eof_elsewhere_print_raise s :
  s +:+ NL <> license_prompt -> eof_elsewhere (print s ;; @raise string EOFError).
Proof.
  intros H w w'. unfold bind, print, raise. intros [= <-]. cbn [emit stdout].
  rewrite last_snoc. congruence.
Qed.

Lemma eof_elsewhere_prompt_choice p cs : eof_elsewhere (prompt_choice p cs).
Proof.
  intros w w'. unfold prompt_choice. generalize (stdin w) at 1. intros L. revert w w'.
  change (eof_elsewhere (prompt_choice_loop p cs L)).
  pose proof eof_elsewhere_print_choices. pose proof choice_is_not_license.
  induction L as [|l L IH]; cbn [prompt_choice_loop];
    (do 2 (apply eof_elsewhere_bind; [reads|intros]));
    (apply eof_elsewhere_bind; [now apply eof_elsewhere_input|intros]);
    cbv zeta; (apply eof_elsewhere_if; [reads|]).
  - apply eof_elsewhere_print_raise. discriminate.
  - reads.
Qed.

Lemma extends_prompt_with_default p d : extends (prompt_with_default p d).
Proof. unfold prompt_with_default. reads. Qed.

Lemma eof_elsewhere_prompt_with_default p d :
  p +:+ " [" +:+ d +:+ "]: " <> license_prompt -> eof_elsewhere (prompt_with_default p d).
Proof.
  intros H. unfold prompt_with_default. apply eof_elsewhere_bind; [|reads].
  now apply eof_elsewhere_input.
Qed.

Lemma extends_show_prereq_instructions o : extends (show_prereq_instructions o).
Proof. unfold show_prereq_instructions. reads. Qed.

Lemma eof_elsewhere_show_prereq_instructions o : eof_elsewhere (show_prereq_instructions o).
Proof. unfold show_prereq_instructions. reads. Qed.

Lemma extends_detect_platform h : extends (detect_platform h).
Proof.
  unfold detect_platform. cbv zeta. reads.
  intros w r. pose proof (extends_path_read_text (parse "/etc/os-release") w r) as H.
  destruct (path_read_text _ w) as [data w1|c w1|e w1]; rewrite ?H.
  - now destruct (contains _ _).
  - reflexivity.
  - destruct H as [->|H]; [now left|]. rewrite H. destruct e; (reflexivity || (right; reflexivity)).
Qed.

Lemma eof_elsewhere_detect_platform h : eof_elsewhere (detect_platform h).
Proof.
  unfold detect_platform. cbv zeta. reads.
  intros w w'. unfold path_read_text.
  destruct (fs w !! _) as [[|t ro]|]; try discriminate.
  now destruct (contains _ _).
Qed.

#[local] Hint Resolve extends_print_header eof_elsewhere_print_header
  extends_print_choices eof_elsewhere_print_choices
  extends_prompt_choice eof_elsewhere_prompt_choice
  extends_prompt_with_default
  extends_show_prereq_instructions eof_elsewhere_show_prereq_instructions
  extends_detect_platform eof_elsewhere_detect_platform : reads.

Section ScriptReads.
Variable h : Host.

Lemma extends_ensure_prereqs o : extends (ensure_prereqs h o).
Proof. unfold ensure_prereqs. reads. Qed.

Lemma eof_elsewhere_ensure_prereqs o : eof_elsewhere (ensure_prereqs h o).
Proof. unfold ensure_prereqs. reads. Qed.

Lemma extends_ensure_project_dir n : extends (ensure_project_dir h n).
Proof. unfold ensure_project_dir. reads. Qed.

Lemma eof_elsewhere_ensure_project_dir n : eof_elsewhere (ensure_project_dir h n).
Proof. unfold ensure_project_dir. reads. Qed.

Lemma extends_write_text p s : extends (write_text h p s).
Proof. unfold write_text. reads. Qed.

Lemma eof_elsewhere_write_text p s : eof_elsewhere (write_text h p s).
Proof. unfold write_text. reads. Qed.

Lemma extends_write_all root es : extends (write_all h root es).
Proof.
  pose proof extends_write_text.
  induction es as [|[p s] es IH]; cbn [write_all]; reads.
Qed.

Lemma eof_elsewhere_write_all root es : eof_elsewhere (write_all h root es).
Proof.
  pose proof eof_elsewhere_write_text.
  induction es as [|[p s] es IH]; cbn [write_all]; reads.
Qed.

Lemma extends_ensure_poetry_alias : extends (ensure_poetry_alias h).
Proof. unfold ensure_poetry_alias. reads. Qed.

Lemma eof_elsewhere_ensure_poetry_alias : eof_elsewhere (ensure_poetry_alias h).
Proof. unfold ensure_poetry_alias. reads. Qed.

End ScriptReads.

#[local] Hint Resolve extends_ensure_prereqs eof_elsewhere_ensure_prereqs
  extends_ensure_project_dir eof_elsewhere_ensure_project_dir
  extends_write_text eof_elsewhere_write_text
  extends_ensure_poetry_alias eof_elsewhere_ensure_poetry_alias : reads.

Section ScaffoldReads.
Variable h : Host.

Ltac scaffold_reads f := unfold f; cbv zeta; reads.

Lemma extends_scaffold_top_level_files r n d a up :
  extends (scaffold_top_level_files h r n d a up).
Proof. scaffold_reads scaffold_top_level_files. Qed.

Lemma eof_elsewhere_scaffold_top_level_files r n d a up :
  eof_elsewhere (scaffold_top_level_files h r n d a up).
Proof. scaffold_reads scaffold_top_level_files. Qed.

Lemma extends_scaffold_config_and_main r : extends (scaffold_config_and_main h r).
Proof. scaffold_reads scaffold_config_and_main. Qed.

Lemma eof_elsewhere_scaffold_config_and_main r : eof_elsewhere (scaffold_config_and_main h r).
Proof. scaffold_reads scaffold_config_and_main. Qed.

Lemma extends_scaffold_models_forms_email_errors r :
  extends (scaffold_models_forms_email_errors h r).
Proof. scaffold_reads scaffold_models_forms_email_errors. Qed.

Lemma eof_elsewhere_scaffold_models_forms_email_errors r :
  eof_elsewhere (scaffold_models_forms_email_errors h r).
Proof. scaffold_reads scaffold_models_forms_email_errors. Qed.

Lemma extends_scaffold_utils r : extends (scaffold_utils h r).
Proof. scaffold_reads scaffold_utils. Qed.

Lemma eof_elsewhere_scaffold_utils r : eof_elsewhere (scaffold_utils h r).
Proof. scaffold_reads scaffold_utils. Qed.

Lemma extends_scaffold_routes r : extends (scaffold_routes h r).
Proof. scaffold_reads scaffold_routes. Qed.

Lemma eof_elsewhere_scaffold_routes r : eof_elsewhere (scaffold_routes h r).
Proof. scaffold_reads scaffold_routes. Qed.

Lemma extends_scaffold_templates r : extends (scaffold_templates h r).
Proof. scaffold_reads scaffold_templates. Qed.

Lemma eof_elsewhere_scaffold_templates r : eof_elsewhere (scaffold_templates h r).
Proof. scaffold_reads scaffold_templates. Qed.

Lemma extends_scaffold_static r : extends (scaffold_static h r).
Proof. scaffold_reads scaffold_static. Qed.

Lemma eof_elsewhere_scaffold_static r : eof_elsewhere (scaffold_static h r).
Proof. scaffold_reads scaffold_static. Qed.

Lemma extends_write_requirements r : extends (write_requirements h r).
Proof. scaffold_reads write_requirements. Qed.

Lemma eof_elsewhere_write_requirements r : eof_elsewhere (write_requirements h r).
Proof. scaffold_reads write_requirements. Qed.

Lemma extends_write_poetry_files r pn pv pd an ae lic rp :
  extends (write_poetry_files h r pn pv pd an ae lic rp).
Proof. scaffold_reads write_poetry_files. Qed.

Lemma eof_elsewhere_write_poetry_files r pn pv pd an ae lic rp :
  eof_elsewhere (write_poetry_files h r pn pv pd an ae lic rp).
Proof. scaffold_reads write_poetry_files. Qed.

End ScaffoldReads.

#[local] Hint Resolve extends_scaffold_top_level_files eof_elsewhere_scaffold_top_level_files
  extends_scaffold_config_and_main eof_elsewhere_scaffold_config_and_main
  extends_scaffold_models_forms_email_errors eof_elsewhere_scaffold_models_forms_email_errors
  extends_scaffold_utils eof_elsewhere_scaffold_utils
  extends_scaffold_routes eof_elsewhere_scaffold_routes
  extends_scaffold_templates eof_elsewhere_scaffold_templates
  extends_scaffold_static eof_elsewhere_scaffold_static
  extends_write_requirements eof_elsewhere_write_requirements
  extends_write_poetry_files eof_elsewhere_write_poetry_files : reads.

(** A run that stops at the license prompt for want of input got through
    every earlier call, and gets through it in the same way with more
    input. *)
Lemma through {A B} (m : M A) (k : A -> M B) (w w' : World) (r1 r2 : list string) :
  extends m -> eof_elsewhere m ->
  last (stdout w') = Some license_prompt ->
  bind m k w = Raise EOFError w' ->
  (forall a w1, k a w1 = Raise EOFError w' ->
                k a (more_input r1 w1) = k a (more_input r2 w1)) ->
  bind m k (more_input r1 w) = bind m k (more_input r2 w).
Proof.
  intros He Hn Hl H Hk. unfold bind in *.
  pose proof (He w r1) as H1. pose proof (He w r2) as H2.
  destruct (m w) as [a w1|c w1|e w1] eqn:E.
  - rewrite H1, H2. now apply Hk.
  - discriminate.
  - injection H as -> ->. now apply Hn in E.
Qed.

(** At the license prompt itself, the reply is read and the rest of the
    run does not depend on it. *)
Lemma at_license_prompt {B} (K : string -> M B) (w w' : World) (l1 l2 : string)
    (rest : list string) :
  (forall v, eof_elsewhere (K v)) ->
  (forall v1 v2 w1, K v1 w1 = K v2 w1) ->
  last (stdout w') = Some license_prompt ->
  bind (prompt_with_default "License identifier (used alongside LICENSE file)" "MIT") K w
    = Raise EOFError w' ->
  bind (prompt_with_default "License identifier (used alongside LICENSE file)" "MIT") K
    (more_input (l1 :: rest) w) =
  bind (prompt_with_default "License identifier (used alongside LICENSE file)" "MIT") K
    (more_input (l2 :: rest) w).
Proof.
  intros Hn Hk Hl H. unfold bind in *. destruct (stdin w) as [|x xs] eqn:E.
  - rewrite (prompt_with_default_reads _ _ l1 (more_input (l1 :: rest) w) rest),
      (prompt_with_default_reads _ _ l2 (more_input (l2 :: rest) w) rest)
      by (cbn [more_input stdin]; now rewrite E).
    apply Hk.
  - rewrite (prompt_with_default_reads _ _ x w xs E) in H.
    now apply Hn in H.
Qed.

(** The run ran out of input while it waited, at the license prompt, for
    the license identifier. *)
Definition stops_at_license_prompt (r : Res unit) : bool :=
  match r with
  | Raise EOFError w' => bool_decide (last (stdout w') = Some license_prompt)
  | _ => false
  end.

Lemma prompt_is_not_license (c : ascii) (s d : string) :
  c <> "L"%char -> String c s +:+ " [" +:+ d +:+ "]: " <> license_prompt.
Proof. intros H. unfold license_prompt. now apply differ_at_head. Qed.

Ltac reads_prompts :=
  repeat first
    [ progress intros
    | solve [auto with reads]
    | apply eof_elsewhere_prompt_with_default; apply prompt_is_not_license; discriminate
    | apply extends_bind | apply eof_elsewhere_bind
    | apply extends_if | apply eof_elsewhere_if ].

Ltac flatten H := repeat rewrite bind_assoc_at in H; repeat rewrite bind_assoc_at.

Ltac pass H Hl :=
  flatten H;
  eapply through; [ | | exact Hl | exact H | ];
  [ solve [reads_prompts] | solve [reads_prompts] | ];
  clear H; intros ? ? H; cbv beta zeta in H |- *.

(** C10. The license identifier that the Poetry workflow asks for is
    collected and then left out of every file: [write_poetry_files] gives
    the same result whatever identifier it is passed, and a whole run of
    [main] does not depend on the reply to the license prompt: when the
    input that ends just before that reply is continued with one reply or
    with another, and with the same lines after it, the two runs end in the
    same way, with the same files and the same console output. *)
Theorem license_id_is_not_rendered (h : Host) :
  (forall root pn pv pd an ae rp lic1 lic2,
     write_poetry_files h root pn pv pd an ae lic1 rp =
     write_poetry_files h root pn pv pd an ae lic2 rp) /\
  (forall f before out lic1 lic2 rest,
     stops_at_license_prompt (main h (mkWorld f before out)) = true ->
     main h (mkWorld f (before ++ lic1 :: rest) out) =
     main h (mkWorld f (before ++ lic2 :: rest) out)).
Proof.
  split; [reflexivity|].
  intros f before out lic1 lic2 rest Hs.
  change (mkWorld f (before ++ lic1 :: rest) out)
    with (more_input (lic1 :: rest) (mkWorld f before out)).
  change (mkWorld f (before ++ lic2 :: rest) out)
    with (more_input (lic2 :: rest) (mkWorld f before out)).
  revert Hs. generalize (mkWorld f before out). intros w Hs.
  unfold stops_at_license_prompt in Hs.
  destruct (main h w) as [| |[] w'] eqn:H; try discriminate.
  apply bool_decide_eq_true in Hs. rename Hs into Hl.
  unfold main in *.
  repeat pass H Hl.
  match type of H with
  | context [bool_decide (?o = "1")] => destruct (bool_decide (o = "1"))
  end.
  - repeat pass H Hl.
    flatten H.
    eapply at_license_prompt; [ | | exact Hl | exact H ].
    + reads_prompts.
    + intros v1 v2 w1'. reflexivity.
  - exfalso. revert H. generalize Hl.
    match goal with
    | |- _ -> ?m ?w = _ -> _ =>
        assert (eof_elsewhere m) as Hn by reads_prompts; intros ? H; now apply Hn in H
    end.
Qed.

(** ** Runs on a concrete host

    The theorems above at concrete inputs, and the inputs at which three
    statements of the specification fail. *)

Definition value_of {A} (r : Res A) : option A :=
  match r with
  | Ret a _ => Some a
  | _ => None
  end.

Lemma ret_value {A} (r : Res A) (a : A) : value_of r = Some a -> r = Ret a (world_of r).
Proof. destruct r; cbn; congruence. Qed.

(** A home directory in which [blog] exists and holds a file. *)
Definition busy_tree : FS :=
  <[ user_home ++ ["blog"; "notes.txt"] := File ("keep me" +:+ NL) false ]>
    (<[ user_home ++ ["blog"] := Dir ]> home_tree).

(** The replies that decline the abort in so many words. *)
Definition declines (answer : string) : bool :=
  bool_decide (lower (strip answer) ∈ ["n"; "no"]).

(** C1, counterexample: the reply [maybe] neither declines the abort nor is
    it one of the replies that abort; the run goes on, writes into the
    directory and completes. *)
Lemma conflict_unrecognised_reply_proceeds :
  declines "maybe" = false /\
  aborts "maybe" = false /\
  exit_status (main linux_host (mkWorld busy_tree ["2"; "blog"; ""; ""; "maybe"] [])) = 0 /\
  is_file (fs (world_of (main linux_host
                           (mkWorld busy_tree ["2"; "blog"; ""; ""; "maybe"] []))))
          (user_home ++ ["blog"; "requirements.txt"]) = true /\
  is_file busy_tree (user_home ++ ["blog"; "requirements.txt"]) = false.
Proof. repeat split; vm_compute; reflexivity. Qed.

(** C1, witness: the reply [Yes] to the conflict over [blog]. *)
Lemma conflict_reply_decides_witness :
  fs (mkWorld busy_tree [" Yes "] []) !! (home linux_host / "blog")%path = Some Dir /\
  has_entries busy_tree (home linux_host / "blog")%path = true /\
  ensure_project_dir linux_host "blog" (mkWorld busy_tree [" Yes "] []) =
    Exit 1 (conflict_asked (home linux_host / "blog")%path
              (mkWorld busy_tree [" Yes "] []) []).
Proof.
  split; [vm_compute; reflexivity|]. split; [vm_compute; reflexivity|].
  exact (proj1 (conflict_reply_decides linux_host "blog" (mkWorld busy_tree [" Yes "] [])
                  " Yes " []
                  ltac:(vm_compute; reflexivity) ltac:(vm_compute; reflexivity)
                  eq_refl)).
Defined.


(** A startup file that ends in blank lines. *)
Definition rc_tree (text : string) (read_only : bool) : FS :=
  <[ user_home ++ [".bashrc"] := File text read_only ]> home_tree.

(** C7, counterexample: the startup file ends in two blank lines; after the
    alias step they are gone, and the old text is no prefix of the new. *)
Lemma alias_append_drops_blank_lines :
  fs (world_of (ensure_poetry_alias linux_host
                  (mkWorld (rc_tree ("export EDITOR=vi" +:+ NL +:+ NL +:+ NL) false) [] [])))
    !! (user_home ++ [".bashrc"]) =
    Some (File ("export EDITOR=vi" +:+ NL +:+ alias_line +:+ NL) false) /\
  startswith ("export EDITOR=vi" +:+ NL +:+ alias_line +:+ NL)
             ("export EDITOR=vi" +:+ NL +:+ NL +:+ NL) = false.
Proof. split; vm_compute; reflexivity. Qed.

(** C7, witness: a startup file that ends in one newline. *)
Lemma alias_append_rewrites_witness :
  exists w',
    ensure_poetry_alias linux_host
      (mkWorld (rc_tree ("export EDITOR=vi" +:+ NL) false) [] []) = Ret tt w' /\
    fs w' !! (user_home ++ [".bashrc"]) =
      Some (File (("export EDITOR=vi" +:+ NL) +:+ alias_line +:+ NL) false).
Proof.
  destruct (alias_append_rewrites linux_host
              (mkWorld (rc_tree ("export EDITOR=vi" +:+ NL) false) [] [])
              ("export EDITOR=vi" +:+ NL)
              ltac:(vm_compute; reflexivity) ltac:(vm_compute; reflexivity))
    as (w' & E & _ & H).
  exists w'. split; [exact E|].
  exact (H "export EDITOR=vi" eq_refl ltac:(discriminate) eq_refl).
Defined.

(** The Poetry workflow, every prompt answered with its default, on a host
    whose startup file is read-only. *)
Definition read_only_rc_run : World :=
  mkWorld (rc_tree ("export EDITOR=vi" +:+ NL) true)
    ["1"; "blog"; ""; ""; ""; ""; ""; ""; ""; ""; ""] [].

(** C8, counterexample: the startup file cannot be written; pyproject.toml
    is in place, but the run ends with status 1 and never prints that it is
    done. *)
Lemma read_only_rc_fails_the_run :
  exit_status (main linux_host read_only_rc_run) = 1 /\
  is_file (fs (world_of (main linux_host read_only_rc_run)))
          (user_home ++ ["blog"; "pyproject.toml"]) = true /\
  existsb (fun chunk => contains chunk "Done!")
          (stdout (world_of (main linux_host read_only_rc_run))) = false.
Proof. repeat split; vm_compute; reflexivity. Qed.

(** C8, witness: the same run, phase by phase. *)
Lemma alias_failure_ends_run_witness :
  exit_status (main linux_host read_only_rc_run) = 1 /\
  exists w', main linux_host read_only_rc_run = Raise OSError w'.
Proof.
  pose proof (ret_value (gate linux_host read_only_rc_run) "1"
                ltac:(vm_compute; reflexivity)) as Hg.
  match type of Hg with _ = Ret _ ?w1 =>
    pose proof (ret_value (collect w1)
                  ("blog", "A starter Flask application.", "Your Name")
                  ltac:(vm_compute; reflexivity)) as Hc
  end.
  match type of Hc with _ = Ret _ ?w2 =>
    pose proof (ret_value (ensure_project_dir linux_host "blog" w2)
                  ["/"; "home"; "user"; "blog"]
                  ltac:(vm_compute; reflexivity)) as Hd
  end.
  match type of Hd with _ = Ret _ ?w3 =>
    pose proof (ret_value (materialize linux_host ["/"; "home"; "user"; "blog"] "blog"
                             "A starter Flask application." "Your Name" true w3)
                  tt ltac:(vm_compute; reflexivity)) as Hm
  end.
  match type of Hm with _ = Ret _ ?w4 =>
    pose proof (ret_value (poetry_metadata "blog" "A starter Flask application."
                             "Your Name" w4)
                  ("blog", "0.1.0", "A starter Flask application.", "Your Name",
                   "you@example.com", "MIT", ">=3.10,<4.0")
                  ltac:(vm_compute; reflexivity)) as Hp
  end.
  match type of Hp with _ = Ret _ ?w5 =>
    pose proof (ret_value (write_poetry_files linux_host ["/"; "home"; "user"; "blog"]
                             "blog" "0.1.0" "A starter Flask application." "Your Name"
                             "you@example.com" "MIT" ">=3.10,<4.0" w5)
                  tt ltac:(vm_compute; reflexivity)) as Hw
  end.
  destruct (alias_failure_ends_run _ _ _ _ _ _ _ _ _ _ _ _ _ _ _ _ _ _ _
              Hg Hc Hd Hm Hp Hw) as (H1 & H2 & _).
  destruct (H2 OSError _
              (H1 ("export EDITOR=vi" +:+ NL)
                  ltac:(vm_compute; reflexivity) ltac:(vm_compute; reflexivity)))
    as (E & S & _).
  split; [exact S | eexists; exact E].
Defined.

(** C9, witness: the description and the author left to their defaults. *)
Lemma blog_requirements_run_witness :
  exists w',
    main linux_host (mkWorld home_tree ["2"; "blog"; ""; ""] []) = Ret tt w' /\
    exit_status (main linux_host (mkWorld home_tree ["2"; "blog"; ""; ""] [])) = 0 /\
    is_dir (fs w') (user_home ++ ["blog"]) = true /\
    Forall (fun rel => is_file (fs w') (user_home ++ "blog" :: rel) = true)
      [["requirements.txt"]; [".env"]; [".flaskenv"]; ["app"; "__init__.py"];
       ["main.py"]; ["config.py"]].
Proof.
  exact (blog_requirements_run linux_host "" "" [] [] eq_refl eq_refl eq_refl).
Defined.

(** C10, witness: the Poetry workflow with every prompt before the license
    prompt answered; the run that is given no more input stops at the
    license prompt, and the runs that go on with "MIT" and with
    "GPL-3.0-only" are the same. *)
Lemma license_id_is_not_rendered_witness :
  stops_at_license_prompt
    (main linux_host (mkWorld home_tree ["1"; "blog"; ""; ""; ""; ""; ""; ""; ""] [])) = true /\
  main linux_host
    (mkWorld home_tree (["1"; "blog"; ""; ""; ""; ""; ""; ""; ""] ++ ["MIT"; ""]) []) =
  main linux_host
    (mkWorld home_tree (["1"; "blog"; ""; ""; ""; ""; ""; ""; ""] ++ ["GPL-3.0-only"; ""]) []).
Proof.
  assert (stops_at_license_prompt
            (main linux_host (mkWorld home_tree ["1"; "blog"; ""; ""; ""; ""; ""; ""; ""] []))
          = true) as H by (vm_compute; reflexivity).
  split; [exact H|].
  exact (proj2 (license_id_is_not_rendered linux_host) _ _ _ "MIT" "GPL-3.0-only" [""] H).
Defined.

(** The outcomes of C2 on the same host: quitting at the menu, a missing
    prerequisite, an aborted conflict, a completed run. *)
Example quit_at_menu_status :
  exit_status (main linux_host (mkWorld home_tree ["x"; "q"] [])) = 0.
Proof. vm_compute. reflexivity. Qed.

Example missing_poetry_status :
  exit_status (main (mkHost user_home (fun cmd => bool_decide (cmd = "pyenv")) (Some 0)
                       "Linux" "6.8.0-49-generic" "3.12.3" (fun _ => None))
                 (mkWorld home_tree ["1"] [])) = 1.
Proof. vm_compute. reflexivity. Qed.

Example aborted_conflict_status :
  exit_status (main linux_host (mkWorld busy_tree ["2"; "blog"; ""; ""; ""] [])) = 1.
Proof. vm_compute. reflexivity. Qed.

Example completed_poetry_status :
  exit_status (main linux_host
                 (mkWorld home_tree ["1"; "blog"; ""; ""; ""; ""; ""; ""; ""; ""; ""] []))
    = 0.
Proof. vm_compute. reflexivity. Qed.

(** * Further properties of the script

    ** What the calls do to the file system *)

(** Nothing of [m] is lost in [m']: a directory is still one, a file is
    still a file, and a read-only file still holds its text. *)
Definition kept (m m' : FS) : Prop :=
  forall p,
    match m !! p with
    | Some Dir => m' !! p = Some Dir
    | Some (File t true) => m' !! p = Some (File t true)
    | Some (File t false) => exists t', m' !! p = Some (File t' false)
    | None => True
    end.

(** [m'] is [m] at every path outside [P]. *)
Definition same_outside (P : Path -> Prop) (m m' : FS) : Prop :=
  forall q, ~ P q -> m' !! q = m !! q.

(** The file system before and after a call, however it ends, are related
    by [R]. *)
Definition fs_rel (R : FS -> FS -> Prop) {A : Type} (m : M A) : Prop :=
  forall w, R (fs w) (fs (world_of (m w))).

#[local] Instance kept_refl : Reflexive kept.
Proof. intros m p. destruct (m !! p) as [[|t []]|]; eauto. Qed.

#[local] Instance kept_trans : Transitive kept.
Proof.
  intros m1 m2 m3 H12 H23 p. specialize (H12 p). specialize (H23 p).
  destruct (m1 !! p) as [[|t []]|]; [| |destruct H12 as [t' H12]|exact I];
    rewrite H12 in H23; exact H23.
Qed.

#[local] Instance same_outside_refl P : Reflexive (same_outside P).
Proof. intros m q _. reflexivity. Qed.

#[local] Instance same_outside_trans P : Transitive (same_outside P).
Proof. intros m1 m2 m3 H12 H23 q Hq. now rewrite H23, H12. Qed.

Lemma same_outside_weaken (P Q : Path -> Prop) (m m' : FS) :
  (forall q, P q -> Q q) -> same_outside P m m' -> same_outside Q m m'.
Proof. intros HPQ H q Hq. apply H. intros HP. apply Hq, HPQ, HP. Qed.

Section FsRel.
Context (R : FS -> FS -> Prop) `{!Reflexive R, !Transitive R}.
Context {A B : Type}.

Lemma fs_rel_stable (m : M A) : fs_stable m -> fs_rel R m.
Proof. intros H w. rewrite H. reflexivity. Qed.

Lemma fs_rel_bind (m : M A) (k : A -> M B) :
  fs_rel R m -> (forall a, fs_rel R (k a)) -> fs_rel R (bind m k).
Proof.
  intros Hm Hk w. unfold bind. specialize (Hm w).
  destruct (m w) as [a w1|c w1|e w1]; cbn [world_of] in *; [|exact Hm..].
  etransitivity; [exact Hm | apply Hk].
Qed.

Lemma fs_rel_if (b : bool) (m1 m2 : M A) :
  fs_rel R m1 -> fs_rel R m2 -> fs_rel R (if b then m1 else m2).
Proof. now destruct b. Qed.

End FsRel.

Lemma fs_rel_weaken {A : Type} (R1 R2 : FS -> FS -> Prop) (m : M A) :
  (forall f f', R1 f f' -> R2 f f') -> fs_rel R1 m -> fs_rel R2 m.
Proof. intros H Hm w. apply H, Hm. Qed.

(** *** Directories and files *)

Lemma parent_prefix (p : Path) : parent p `prefix_of` p.
Proof.
  unfold parent. destruct p as [|r [|x p]].
  - reflexivity.
  - destruct (is_root r); [reflexivity | apply prefix_nil].
  - exists [List.last (r :: x :: p) r].
    apply app_removelast_last. discriminate.
Qed.

(** [mkdir_chain] adds directories and nothing else, on the way down only. *)
Lemma mkdir_chain_outside (rest pre : Path) (m m' : FS) :
  mkdir_chain pre rest m = Some m' ->
  same_outside (fun q => q `prefix_of` (pre ++ rest)) m m'.
Proof.
  revert pre m. induction rest as [|x rest IH]; intros pre m H q Hq.
  - now injection H as <-.
  - cbn [mkdir_chain] in H.
    assert (Hq' : ~ q `prefix_of` ((pre ++ [x]) ++ rest)) by now rewrite <- app_assoc.
    destruct (m !! (pre ++ [x])) as [[|t r]|] eqn:E;
      [exact (IH _ _ H q Hq') | discriminate |].
    rewrite (IH _ _ H q Hq'). apply lookup_insert_ne.
    intros <-. apply Hq'. now apply prefix_app_r.
Qed.

Lemma mkdir_chain_kept (rest pre : Path) (m m' : FS) :
  mkdir_chain pre rest m = Some m' -> kept m m'.
Proof.
  revert pre m. induction rest as [|x rest IH]; intros pre m H.
  - injection H as <-. reflexivity.
  - cbn [mkdir_chain] in H.
    destruct (m !! (pre ++ [x])) as [[|t r]|] eqn:E; [eauto | discriminate |].
    transitivity (<[pre ++ [x] := Dir]> m); [|eauto].
    intros p. destruct (decide (p = pre ++ [x])) as [->|Hne].
    + now rewrite E.
    + rewrite lookup_insert_ne by congruence. destruct (m !! p) as [[|t []]|]; eauto.
Qed.

(** Every directory of the chain is there afterwards. *)
Lemma mkdir_chain_dirs (rest pre : Path) (m m' : FS) (q : Path) :
  mkdir_chain pre rest m = Some m' ->
  q `prefix_of` (pre ++ rest) -> (length pre < length q)%nat ->
  m' !! q = Some Dir.
Proof.
  revert pre m. induction rest as [|x rest IH]; intros pre m H Hq Hl.
  - rewrite app_nil_r in Hq. apply prefix_length in Hq. lia.
  - cbn [mkdir_chain] in H.
    destruct (decide (q = pre ++ [x])) as [->|Hne].
    + pose proof (mkdir_chain_kept rest (pre ++ [x])) as K.
      destruct (m !! (pre ++ [x])) as [[|t r]|] eqn:E; [|discriminate|].
      * specialize (K _ _ H (pre ++ [x])). now rewrite E in K.
      * specialize (K _ _ H (pre ++ [x])). now rewrite lookup_insert_eq in K.
    + assert (length (pre ++ [x]) < length q)%nat.
      { rewrite length_app. cbn [length].
        assert (length q <> length pre + 1)%nat; [|lia].
        intros El. apply Hne.
        assert (Hp : (pre ++ [x]) `prefix_of` (pre ++ x :: rest))
          by apply prefix_app, prefix_cons, prefix_nil.
        destruct (prefix_weak_total _ _ _ Hq Hp) as [P|P].
        - apply (prefix_length_eq _ _ P). rewrite length_app. cbn. lia.
        - symmetry. apply (prefix_length_eq _ _ P). rewrite length_app. cbn. lia. }
      change (pre ++ x :: rest) with (pre ++ [x] ++ rest) in Hq.
      rewrite (app_assoc pre [x] rest) in Hq.
      destruct (m !! (pre ++ [x])) as [[|t r]|]; [eauto | discriminate | eauto].
Qed.

(** On a chain that is there already, [mkdir_chain] changes nothing. *)
Lemma mkdir_chain_id (rest pre : Path) (m : FS) :
  (forall q, q `prefix_of` (pre ++ rest) -> (length pre < length q)%nat ->
             m !! q = Some Dir) ->
  mkdir_chain pre rest m = Some m.
Proof.
  revert pre. induction rest as [|x rest IH]; intros pre H; [reflexivity|].
  cbn [mkdir_chain]. rewrite (H (pre ++ [x])).
  - apply IH. intros q Hq Hl. apply H; [now rewrite <- app_assoc in Hq|].
    rewrite length_app in Hl. lia.
  - apply prefix_app, prefix_cons, prefix_nil.
  - rewrite length_app. cbn. lia.
Qed.

Lemma kept_insert_dir (m : FS) (p : Path) : m !! p = None -> kept m (<[p := Dir]> m).
Proof.
  intros E q. destruct (decide (q = p)) as [->|Hne].
  - now rewrite E.
  - rewrite lookup_insert_ne by congruence. destruct (m !! q) as [[|t []]|]; eauto.
Qed.

Lemma kept_insert_file (m : FS) (p : Path) (text : string) :
  match m !! p with
  | Some (File _ false) | None => True
  | _ => False
  end ->
  kept m (<[p := File text false]> m).
Proof.
  intros E q. destruct (decide (q = p)) as [->|Hne].
  - destruct (m !! p) as [[|t []]|]; try contradiction; [|exact I].
    exists text. apply lookup_insert_eq.
  - rewrite lookup_insert_ne by congruence. destruct (m !! q) as [[|t []]|]; eauto.
Qed.

Lemma kept_mkdir_parents p : fs_rel kept (mkdir_parents p).
Proof.
  intros w. unfold mkdir_parents.
  destruct (mkdir_chain [] p (fs w)) as [m|] eqn:E; cbn; [|reflexivity].
  exact (mkdir_chain_kept _ _ _ _ E).
Qed.

Lemma kept_path_write_text p s : fs_rel kept (path_write_text p s).
Proof.
  intros w. unfold path_write_text.
  destruct (fs w !! p) as [[|t []]|] eqn:E; cbn; try reflexivity.
  - apply kept_insert_file. now rewrite E.
  - destruct (fs w !! parent p) as [[]|]; cbn; try reflexivity.
    apply kept_insert_file. now rewrite E.
Qed.

Lemma outside_mkdir_parents p :
  fs_rel (same_outside (fun q => q `prefix_of` p)) (mkdir_parents p).
Proof.
  intros w. unfold mkdir_parents.
  destruct (mkdir_chain [] p (fs w)) as [m|] eqn:E; cbn; [|reflexivity].
  exact (mkdir_chain_outside _ _ _ _ E).
Qed.

Lemma outside_path_write_text p s :
  fs_rel (same_outside (fun q => q = p)) (path_write_text p s).
Proof.
  intros w q Hq. unfold path_write_text.
  destruct (fs w !! p) as [[|t []]|] eqn:E; cbn; try reflexivity.
  - now apply lookup_insert_ne.
  - destruct (fs w !! parent p) as [[]|]; cbn; try reflexivity.
    now apply lookup_insert_ne.
Qed.

(** Calls that leave the file system alone. *)
Lemma fs_stable_detect_platform h : fs_stable (detect_platform h).
Proof.
  intros w. destruct (detect_platform_returns h w) as (s & E & _). now rewrite E.
Qed.

Lemma fs_stable_summary r u : fs_stable (summary r u).
Proof. unfold summary. frame. Qed.

Lemma fs_stable_poetry_metadata n d a : fs_stable (poetry_metadata n d a).
Proof. unfold poetry_metadata. frame. Qed.

Create HintDb track.
#[local] Hint Resolve kept_mkdir_parents kept_path_write_text : track.

(** Splits a goal on [fs_rel] along the calls of a function; the calls that
    leave the file system alone are discharged by [frame]. *)
Ltac track :=
  repeat first
    [ progress intros
    | solve [auto with track]
    | solve [apply fs_rel_stable; try typeclasses eauto; auto with frame]
    | apply fs_rel_bind; [typeclasses eauto | | ]
    | apply fs_rel_if
    | match goal with
      | |- fs_rel _ (match ?x with _ => _ end) => destruct x
      | |- fs_rel _ (let _ := _ in _) => cbv zeta
      end ].

Section Keeps.
Variable h : Host.

Lemma kept_write_text p s : fs_rel kept (write_text h p s).
Proof. unfold write_text. track. Qed.

Lemma kept_ensure_project_dir n : fs_rel kept (ensure_project_dir h n).
Proof. unfold ensure_project_dir. track. Qed.

Lemma kept_write_all root es : fs_rel kept (write_all h root es).
Proof.
  pose proof kept_write_text.
  induction es as [|[segs text] es IH]; cbn [write_all]; track.
Qed.

Lemma kept_materialize root n d a u : fs_rel kept (materialize h root n d a u).
Proof.
  intros w. rewrite materialize_catalog.
  revert w. change (fs_rel kept (print (NL +:+ "Scaffolding Flask project structure..." +:+ NL) ;;
                                 write_all h root (catalog n d a))).
  pose proof kept_write_all. track.
Qed.

Lemma kept_ensure_poetry_alias : fs_rel kept (ensure_poetry_alias h).
Proof.
  pose proof (fs_stable_detect_platform h). unfold ensure_poetry_alias. track.
Qed.

Lemma kept_finalize root n d a u : fs_rel kept (finalize h root n d a u).
Proof.
  pose proof kept_write_text. pose proof kept_ensure_poetry_alias.
  pose proof fs_stable_poetry_metadata.
  unfold finalize, write_requirements, write_poetry_files. track.
Qed.

Lemma kept_phases : fs_rel kept (phases h).
Proof.
  pose proof kept_ensure_project_dir. pose proof kept_materialize.
  pose proof kept_finalize. pose proof fs_stable_summary.
  pose proof (fs_stable_gate h). pose proof fs_stable_collect.
  unfold phases. track.
Qed.

End Keeps.

(** X1. A run of [main] removes nothing, however it ends: every directory
    that was there is still a directory, every file is still a file, and a
    read-only file still holds the text it held. *)
Theorem main_never_deletes (h : Host) (w : World) :
  kept (fs w) (fs (world_of (main h w))).
Proof. rewrite main_phases. apply kept_phases. Qed.

(** *** What one [write_text] touches *)

Lemma mkdir_chain_changes (rest pre : Path) (m m' : FS) (q : Path) :
  mkdir_chain pre rest m = Some m' ->
  m' !! q = m !! q \/ (m !! q = None /\ m' !! q = Some Dir).
Proof.
  revert pre m. induction rest as [|x rest IH]; intros pre m H.
  - injection H as <-. now left.
  - cbn [mkdir_chain] in H.
    destruct (m !! (pre ++ [x])) as [[|t r]|] eqn:E; [eauto | discriminate |].
    destruct (decide (q = pre ++ [x])) as [->|Hne].
    + right. split; [exact E|].
      pose proof (mkdir_chain_kept _ _ _ _ H (pre ++ [x])) as K.
      now rewrite lookup_insert_eq in K.
    + destruct (IH _ _ H) as [E'|[E1 E2]].
      * left. rewrite E'. now apply lookup_insert_ne.
      * right. split; [|exact E2]. rewrite <- E1. symmetry. now apply lookup_insert_ne.
Qed.

(** The three steps of [write_text], one after the other. *)
Lemma write_text_steps (h : Host) (p : Path) (c : string) (w : World) :
  write_text h p c w =
    match mkdir_chain [] (parent p) (fs w) with
    | None => Raise OSError w
    | Some m =>
        match path_write_text p (rstrip_nl c +:+ NL) (mkWorld m (stdin w) (stdout w)) with
        | Ret _ w1 =>
            match relative_to p (home h) with
            | Some rel => Ret tt (emit (("  - Created " +:+ to_str rel) +:+ NL) w1)
            | None => Raise ValueError w1
            end
        | Exit code w1 => Exit code w1
        | Raise e w1 => Raise e w1
        end
    end.
Proof.
  unfold write_text, bind, mkdir_parents.
  destruct (mkdir_chain [] (parent p) (fs w)); [|reflexivity].
  destruct (path_write_text _ _ _); [|reflexivity..].
  destruct (relative_to p (home h)); reflexivity.
Qed.

Lemma outside_write_text (h : Host) (p : Path) (c : string) :
  fs_rel (same_outside (fun q => q `prefix_of` p)) (write_text h p c).
Proof.
  unfold write_text. apply fs_rel_bind; [typeclasses eauto | |intros _].
  - eapply fs_rel_weaken; [|apply outside_mkdir_parents].
    intros f f'. apply same_outside_weaken. intros q Hq.
    etransitivity; [exact Hq | apply parent_prefix].
  - apply fs_rel_bind; [typeclasses eauto | |intros _].
    + eapply fs_rel_weaken; [|apply outside_path_write_text].
      intros f f'. apply same_outside_weaken. now intros q ->.
    + destruct (relative_to p (home h)); apply fs_rel_stable;
        try typeclasses eauto; auto with frame.
Qed.


(** *** Paths outside the home directory *)

Lemma relative_to_Some (p base rel : Path) :
  relative_to p base = Some rel <-> p = base ++ rel.
Proof.
  revert p. induction base as [|b base IH]; intros p.
  - destruct p; cbn; split; congruence.
  - destruct p as [|x p]; cbn [relative_to app]; [split; discriminate|].
    destruct (decide (b = x)) as [->|Hne].
    + rewrite bool_decide_eq_true_2 by reflexivity. rewrite IH. split; congruence.
    + rewrite bool_decide_eq_false_2 by exact Hne. split; [discriminate | congruence].
Qed.

Lemma relative_to_None (p base : Path) :
  relative_to p base = None <-> ~ base `prefix_of` p.
Proof.
  split.
  - intros H [rel E]. apply relative_to_Some in E. congruence.
  - intros H. destruct (relative_to p base) as [rel|] eqn:E; [|reflexivity].
    exfalso. apply H. exists rel. now apply relative_to_Some.
Qed.


(** *** What a run touches *)

(** [q] is on the way to [root] or below it. *)
Definition near (root q : Path) : Prop := q `prefix_of` root \/ root `prefix_of` q.

Lemma prefix_app_near (root segs q : Path) : q `prefix_of` (root ++ segs) -> near root q.
Proof.
  intros H. apply (prefix_weak_total _ _ _ H). now apply prefix_app_r.
Qed.

Lemma fs_rel_bind_post {A B : Type} (R : FS -> FS -> Prop) `{!Transitive R}
    (Q : A -> Prop) (m : M A) (k : A -> M B) :
  fs_rel R m -> (forall w a w', m w = Ret a w' -> Q a) ->
  (forall a, Q a -> fs_rel R (k a)) -> fs_rel R (bind m k).
Proof.
  intros Hm HQ Hk w. unfold bind. specialize (Hm w). specialize (HQ w).
  destruct (m w) as [a w1|c w1|e w1]; cbn [world_of] in *; [|exact Hm..].
  etransitivity; [exact Hm | apply Hk; eauto].
Qed.

Lemma ensure_project_dir_returns (h : Host) (n : string) (w : World) (a : Path) (w' : World) :
  ensure_project_dir h n w = Ret a w' -> a = (home h / n)%path.
Proof.
  unfold ensure_project_dir. cbv zeta. intros H.
  apply bind_inv in H as [(x & w1 & _ & H)|[(c & w1 & _ & H)|(e & w1 & _ & H)]];
    [|discriminate..].
  apply bind_inv in H as [(y & w2 & _ & H)|[(c & w2 & _ & H)|(e & w2 & _ & H)]];
    [|discriminate..].
  now injection H.
Qed.

Section Footprint.
Variable h : Host.

Lemma near_ensure_project_dir n :
  fs_rel (same_outside (near (home h / n)%path)) (ensure_project_dir h n).
Proof.
  assert (fs_rel (same_outside (near (home h / n)%path)) (mkdir_parents (home h / n)%path)).
  { eapply fs_rel_weaken; [|apply outside_mkdir_parents].
    intros f f'. apply same_outside_weaken. intros q Hq. now left. }
  unfold ensure_project_dir. track.
Qed.

Lemma near_write_all root es :
  forallb (fun e => forallb plain e.1) es = true ->
  fs_rel (same_outside (near root)) (write_all h root es).
Proof.
  induction es as [|[segs text] es IH]; cbn [write_all forallb fst]; intros Hp.
  - track.
  - apply andb_prop in Hp as [Hs Hp].
    apply fs_rel_bind; [typeclasses eauto | |intros _; now apply IH].
    rewrite resolve_plain by exact Hs.
    eapply fs_rel_weaken; [|apply outside_write_text].
    intros f f'. apply same_outside_weaken. intros q. apply prefix_app_near.
Qed.

Lemma near_materialize root n d a u :
  fs_rel (same_outside (near root)) (materialize h root n d a u).
Proof.
  intros w. rewrite materialize_catalog, bind_print_at.
  etransitivity; [|apply near_write_all, catalog_plain]. reflexivity.
Qed.

Lemma near_write_file root (s text : string) :
  plain s = true ->
  fs_rel (same_outside (near root)) (write_text h (root / s)%path text).
Proof.
  intros Hs. rewrite joinpath_plain by exact Hs.
  eapply fs_rel_weaken; [|apply outside_write_text].
  intros f f'. apply same_outside_weaken. intros q. apply prefix_app_near.
Qed.

Lemma rc_ensure_poetry_alias :
  fs_rel (same_outside (fun q => q = rc_file h)) (ensure_poetry_alias h).
Proof.
  intros w. rewrite ensure_poetry_alias_at. revert w.
  change (fs_rel (same_outside (fun q => q = rc_file h)) (alias_at (rc_file h))).
  pose proof (outside_path_write_text (rc_file h)).
  unfold alias_at. track.
Qed.

(** The paths a run can touch once the workflow and the project name are
    known. *)
Definition touched (option project_name : string) (q : Path) : Prop :=
  near (home h / project_name)%path q \/ (option = "1" /\ q = rc_file h).

Lemma touched_finalize o n d a :
  fs_rel (same_outside (touched o n))
    (finalize h (home h / n)%path n d a (bool_decide (o = "1"))).
Proof.
  unfold finalize. destruct (bool_decide (o = "1")) eqn:E.
  - apply bool_decide_eq_true in E.
    assert (fs_rel (same_outside (touched o n)) (ensure_poetry_alias h)).
    { eapply fs_rel_weaken; [|apply rc_ensure_poetry_alias].
      intros f f'. apply same_outside_weaken. intros q ->. now right. }
    assert (forall s text, plain s = true ->
              fs_rel (same_outside (touched o n)) (write_text h (home h / n / s)%path text)).
    { intros s text Hs. eapply fs_rel_weaken; [|now apply near_write_file].
      intros f f'. apply same_outside_weaken. intros q Hq. now left. }
    pose proof fs_stable_poetry_metadata.
    unfold write_poetry_files. track.
  - unfold write_requirements. eapply fs_rel_weaken; [|now apply near_write_file].
    intros f f'. apply same_outside_weaken. intros q Hq. now left.
Qed.

Lemma touched_after_collect o n d a :
  fs_rel (same_outside (touched o n))
    (project_root <- ensure_project_dir h n ;;
     materialize h project_root n d a (bool_decide (o = "1")) ;;
     finalize h project_root n d a (bool_decide (o = "1")) ;;
     summary project_root (bool_decide (o = "1"))).
Proof.
  apply (fs_rel_bind_post _ (fun r => r = (home h / n)%path)).
  - eapply fs_rel_weaken; [|apply near_ensure_project_dir].
    intros f f'. apply same_outside_weaken. intros q Hq. now left.
  - apply ensure_project_dir_returns.
  - intros r ->.
    assert (fs_rel (same_outside (touched o n))
              (materialize h (home h / n)%path n d a (bool_decide (o = "1")))).
    { eapply fs_rel_weaken; [|apply near_materialize].
      intros f f'. apply same_outside_weaken. intros q Hq. now left. }
    pose proof (touched_finalize o n d a). pose proof fs_stable_summary.
    track.
Qed.

End Footprint.


(** X5. [main] leaves through [sys.exit] only before it has written
    anything: whenever a run ends with an exit, the file system is as it
    was when the run started. *)
Theorem main_exit_leaves_files (h : Host) (w : World) (code : Z) (w' : World) :
  main h w = Exit code w' -> fs w' = fs w.
Proof.
  rewrite main_phases. revert w code w'. change (exit_clean (phases h)).
  unfold phases.
  apply exit_clean_bind; [apply fs_stable_gate | intros o].
  apply exit_clean_bind; [apply fs_stable_collect | intros [[n d] a]].
  apply exit_clean_bind_never.
  - intros w c w' H. now apply ensure_project_dir_exit in H.
  - intros r. cbv zeta. apply never_exits_after_dir.
Qed.

(** ** The prompts *)

(** *** [prompt_choice] *)

(** What one turn of [prompt_choice] prints before it reads: the prompt and
    the choices, then the request. *)
Definition menu_text (prompt : string) (choices : list (string * string)) : list string :=
  (prompt +:+ NL) ::
  map (fun c => ("  " +:+ c.1 +:+ ") " +:+ c.2) +:+ NL) choices.

Definition turn (prompt : string) (choices : list (string * string)) : list string :=
  menu_text prompt choices ++ ["Enter choice: "].

Definition retry : string := ("Invalid choice, please try again." +:+ NL) +:+ NL.

(** The lines that are not a choice, up to the first one that is. *)
Fixpoint invalid_lines (choices : list (string * string)) (lines : list string) : nat :=
  match lines with
  | [] => 0
  | l :: rest => if is_key choices (strip l) then 0 else S (invalid_lines choices rest)
  end.

Fixpoint console_of_turns (prompt : string) (choices : list (string * string)) (k : nat)
  : list string :=
  match k with
  | O => turn prompt choices
  | S k' => turn prompt choices ++ retry :: console_of_turns prompt choices k'
  end.

Lemma prints_print_choices cs :
  prints (print_choices cs) (map (fun c => ("  " +:+ c.1 +:+ ") " +:+ c.2) +:+ NL) cs).
Proof.
  induction cs as [|[k l] cs IH]; cbn [print_choices map].
  - apply prints_ret.
  - change (?x :: ?l) with ([x] ++ l). apply prints_bind; [apply prints_print | exact IH].
Qed.

Lemma prompt_choice_loop_unfold p cs L w :
  prompt_choice_loop p cs L w =
  match stdin w with
  | [] => Raise EOFError (emits (turn p cs) w)
  | l :: rest =>
      let w1 := mkWorld (fs w) rest (stdout w ++ turn p cs) in
      if is_key cs (strip l) then Ret (strip l) w1
      else match L with
           | [] => Raise EOFError (emits [retry] w1)
           | _ :: L' => prompt_choice_loop p cs L' (emits [retry] w1)
           end
  end.
Proof.
  assert (prompt_choice_loop p cs L w =
          bind (input "Enter choice: ")
            (fun value =>
               if is_key cs (strip value) then ret (strip value)
               else bind (print ("Invalid choice, please try again." +:+ NL))
                      (fun _ => match L with
                                | [] => raise EOFError
                                | _ :: L' => prompt_choice_loop p cs L'
                                end))
            (emits (menu_text p cs) w)) as ->.
  { destruct L; cbn [prompt_choice_loop];
      now rewrite bind_print_at, (bind_prints_at _ _ _ _ (prints_print_choices cs)),
        emits_emits. }
  unfold bind at 1. unfold input, turn. cbn [emits stdin fs stdout emit].
  destruct (stdin w) as [|l rest].
  - now rewrite emit_emits, emits_emits.
  - cbn zeta. rewrite <- app_assoc. destruct (is_key cs (strip l)); [reflexivity|].
    rewrite bind_print_at. now destruct L.
Qed.

Lemma drop_invalid_lines cs (L : list string) (g : string) (r : list string) :
  drop (invalid_lines cs L) L = g :: r -> is_key cs (strip g) = true.
Proof.
  induction L as [|l L IH]; cbn [invalid_lines]; [discriminate|].
  destruct (is_key cs (strip l)) eqn:K; cbn [drop]; [|exact IH].
  now intros [= <- _].
Qed.

Lemma prompt_choice_loop_run p cs (L : list string) : forall w,
  stdin w = L ->
  prompt_choice_loop p cs L w =
    match drop (invalid_lines cs L) L with
    | good :: rest =>
        Ret (strip good)
            (mkWorld (fs w) rest (stdout w ++ console_of_turns p cs (invalid_lines cs L)))
    | [] =>
        Raise EOFError
              (mkWorld (fs w) [] (stdout w ++ console_of_turns p cs (invalid_lines cs L)))
    end.
Proof.
  induction L as [|l L IH]; intros w E; rewrite prompt_choice_loop_unfold;
    unfold emits at 1; rewrite E.
  - reflexivity.
  - cbn [invalid_lines]. cbn zeta. destruct (is_key cs (strip l)) eqn:K.
    + reflexivity.
    + cbn [drop console_of_turns]. rewrite IH by reflexivity.
      cbn [emits fs stdout].
      replace ((stdout w ++ turn p cs) ++ [retry]) with (stdout w ++ turn p cs ++ [retry])
        by now rewrite app_assoc.
      assert (forall t, (stdout w ++ turn p cs ++ [retry]) ++ t =
                        stdout w ++ turn p cs ++ retry :: t) as Ha.
      { intros t. now rewrite <- !app_assoc. }
      rewrite Ha. reflexivity.
Qed.

(** X6. [prompt_choice] reads lines until one, stripped, is a key of the
    choices, and returns that key; each line that is not costs one more
    turn (the menu again, after the complaint), and the lines after the
    accepted one are left unread. When no line is a key, the call ends
    with the input ([EOFError]) at the last request. The file system is
    not touched. *)
Theorem prompt_choice_skips_invalid (prompt : string) (choices : list (string * string))
    (w : World) :
  prompt_choice prompt choices w =
    match drop (invalid_lines choices (stdin w)) (stdin w) with
    | good :: rest =>
        Ret (strip good)
            (mkWorld (fs w) rest
               (stdout w ++
                console_of_turns prompt choices (invalid_lines choices (stdin w))))
    | [] =>
        Raise EOFError
              (mkWorld (fs w) []
                 (stdout w ++
                  console_of_turns prompt choices (invalid_lines choices (stdin w))))
    end /\
  (forall v w', prompt_choice prompt choices w = Ret v w' -> v ∈ map fst choices).
Proof.
  assert (E : prompt_choice prompt choices w = prompt_choice_loop prompt choices (stdin w) w)
    by reflexivity.
  rewrite E, (prompt_choice_loop_run prompt choices (stdin w) w eq_refl).
  split; [reflexivity|].
  intros v w'.
  destruct (drop (invalid_lines choices (stdin w)) (stdin w)) as [|g r] eqn:D;
    [discriminate|].
  intros [= <- _]. apply drop_invalid_lines in D. now apply bool_decide_eq_true in D.
Qed.

(** *** [prompt_with_default] *)

Lemma rstrip_with_empty (p : ascii -> bool) (s : string) :
  rstrip_with p s = EmptyString <-> all_chars p s = true.
Proof.
  induction s as [|c s IH]; cbn [rstrip_with all_chars]; [split; reflexivity|].
  destruct (rstrip_with p s) as [|d r].
  - destruct (p c); cbn [andb].
    + split; [intros _; now apply IH | reflexivity].
    + split; discriminate.
  - split; [discriminate|]. intros H. apply andb_prop in H as [_ H].
    apply IH in H. discriminate.
Qed.

Lemma rstrip_with_idem (p : ascii -> bool) (s : string) :
  rstrip_with p (rstrip_with p s) = rstrip_with p s.
Proof.
  induction s as [|c s IH]; cbn [rstrip_with]; [reflexivity|].
  destruct (rstrip_with p s) as [|d r] eqn:E.
  - destruct (p c) eqn:Pc; cbn [rstrip_with]; [reflexivity | now rewrite Pc].
  - cbn [rstrip_with]. cbn [rstrip_with] in IH. now rewrite IH.
Qed.

Lemma rstrip_with_head (p : ascii -> bool) (c : ascii) (t : string) :
  p c = false -> exists t', rstrip_with p (String c t) = String c t'.
Proof.
  intros Pc. cbn [rstrip_with]. destruct (rstrip_with p t); [rewrite Pc|]; eauto.
Qed.

Lemma lstrip_empty (s : string) : lstrip s = EmptyString <-> all_chars isspace s = true.
Proof.
  induction s as [|c s IH]; cbn [lstrip all_chars]; [split; reflexivity|].
  destruct (isspace c); cbn [andb]; [exact IH | split; discriminate].
Qed.

Lemma lstrip_head (s : string) (c : ascii) (t : string) :
  lstrip s = String c t -> isspace c = false.
Proof.
  induction s as [|d s IH]; cbn [lstrip]; [discriminate|].
  destruct (isspace d) eqn:E; [exact IH | congruence].
Qed.

Lemma strip_empty (s : string) : strip s = EmptyString <-> all_chars isspace s = true.
Proof.
  unfold strip, rstrip. split.
  - intros H. apply rstrip_with_empty in H. apply lstrip_empty.
    destruct (lstrip s) as [|c t] eqn:E; [reflexivity|].
    apply lstrip_head in E. cbn [all_chars] in H. rewrite E in H. discriminate.
  - intros H. apply lstrip_empty in H. now rewrite H.
Qed.

Lemma strip_idem (s : string) : strip (strip s) = strip s.
Proof.
  unfold strip, rstrip. destruct (lstrip s) as [|c t] eqn:E; [reflexivity|].
  apply lstrip_head in E. destruct (rstrip_with_head isspace c t E) as [t' Ht].
  rewrite Ht. cbn [lstrip]. rewrite E, <- Ht. apply rstrip_with_idem.
Qed.

(** X7. [prompt_with_default] reads one line: a line of white space only
    (the empty line too) gives the default, any other line gives the line
    without the white space at its two ends, which is then not empty and
    has none left to strip; so with a default that is not empty the answer
    is never empty. Without a line to read the call raises [EOFError]. *)
Theorem prompt_with_default_value (prompt default : string) (w : World) :
  match stdin w with
  | [] =>
      prompt_with_default prompt default w =
        Raise EOFError (emit (prompt +:+ " [" +:+ default +:+ "]: ") w)
  | line :: rest =>
      prompt_with_default prompt default w =
        Ret (if all_chars isspace line then default else strip line)
            (mkWorld (fs w) rest (stdout w ++ [prompt +:+ " [" +:+ default +:+ "]: "])) /\
      (all_chars isspace line = false ->
       strip line <> EmptyString /\ strip (strip line) = strip line)
  end /\
  (forall v w',
      default <> EmptyString -> prompt_with_default prompt default w = Ret v w' ->
      v <> EmptyString).
Proof.
  split.
  - destruct (stdin w) as [|line rest] eqn:E.
    + unfold prompt_with_default, bind, input. now rewrite E.
    + split.
      * rewrite (prompt_with_default_reads _ _ _ _ _ E). f_equal.
        destruct (all_chars isspace line) eqn:S.
        -- apply strip_empty in S. now rewrite S.
        -- rewrite bool_decide_eq_false_2; [reflexivity|].
           intros H. apply strip_empty in H. congruence.
      * intros S. split; [|apply strip_idem].
        intros H. apply strip_empty in H. congruence.
  - intros v w' Hd. unfold prompt_with_default, bind, input.
    destruct (stdin w) as [|line rest]; [discriminate|]. cbn zeta. unfold ret.
    intros [= <- _]. destruct (bool_decide (strip line = EmptyString)) eqn:B; [exact Hd|].
    now apply bool_decide_eq_false in B.
Qed.

(** ** The platform *)

Lemma os_release_path : parse "/etc/os-release" = ["/"; "etc"; "os-release"].
Proof. reflexivity. Qed.

Lemma detect_platform_cases (h : Host) (w : World) :
  detect_platform h w =
    if contains (lower (platform_release h)) "microsoft" || env_truthy h "WSL_DISTRO_NAME"
    then Ret "wsl" w
    else if bool_decide (lower (platform_system h) = "darwin") then Ret "macos" w
    else if bool_decide (lower (platform_system h) = "linux") then
      match fs w !! ["/"; "etc"; "os-release"] with
      | Some (File text _) =>
          if contains (lower (universal_newlines text)) "ubuntu"
          then Ret "ubuntu" w else Ret "linux" w
      | _ => Ret "linux" w
      end
    else if bool_decide (lower (platform_system h) = "windows") then Ret "windows" w
    else Ret "other" w.
Proof.
  unfold detect_platform. cbv zeta. rewrite os_release_path.
  destruct (_ || _); [reflexivity|].
  destruct (bool_decide (_ = "darwin")); [reflexivity|].
  destruct (bool_decide (_ = "linux")); [|destruct (bool_decide _); reflexivity].
  unfold path_read_text. destruct (fs w !! _) as [[|t r]|]; reflexivity.
Qed.

(** X8. What [detect_platform] answers. Whenever it returns, it has changed
    nothing and its answer is one of six names (the five of its docstring
    and [linux]); [ubuntu] is answered only on Linux and only when
    [/etc/os-release] is a file whose text has "ubuntu" in it, in whatever
    case. It does return, without reading any file, on Windows Subsystem
    for Linux (which is recognised first, [wsl]) and on every system that
    is not Linux; and on Linux it returns ([linux], or [wsl]) when
    [/etc/os-release] is missing or is a directory: the failed read is
    caught. *)
Theorem detect_platform_answers (h : Host) (w : World) :
  (forall s w',
      detect_platform h w = Ret s w' ->
      w' = w /\
      s ∈ ["wsl"; "macos"; "ubuntu"; "linux"; "windows"; "other"] /\
      (s = "ubuntu" ->
       lower (platform_system h) = "linux" /\
       exists text ro,
         fs w !! ["/"; "etc"; "os-release"] = Some (File text ro) /\
         contains (lower (universal_newlines text)) "ubuntu" = true)) /\
  (contains (lower (platform_release h)) "microsoft" = true \/
   env_truthy h "WSL_DISTRO_NAME" = true -> detect_platform h w = Ret "wsl" w) /\
  (lower (platform_system h) <> "linux" -> exists s, detect_platform h w = Ret s w) /\
  (lower (platform_system h) = "linux" ->
   (forall text ro, fs w !! ["/"; "etc"; "os-release"] <> Some (File text ro)) ->
   detect_platform h w = Ret "wsl" w \/ detect_platform h w = Ret "linux" w).
Proof.
  rewrite detect_platform_cases.
  destruct (contains (lower (platform_release h)) "microsoft") eqn:E0;
    destruct (env_truthy h "WSL_DISTRO_NAME") eqn:E0'; cbn [orb];
    try (split; [intros s w' [= <- <-]; split; [reflexivity|];
                 split; [set_solver | discriminate]
                |split; [reflexivity | split; [eauto | now left]]]).
  destruct (bool_decide (lower (platform_system h) = "darwin")) eqn:E2.
  { apply bool_decide_eq_true in E2.
    split; [intros s w' [= <- <-]; split; [reflexivity|];
            split; [set_solver | discriminate]|].
    split; [intros [?|?]; discriminate|]. split; [eauto|]. intros; congruence. }
  destruct (bool_decide (lower (platform_system h) = "linux")) eqn:E3.
  - apply bool_decide_eq_true in E3.
    destruct (fs w !! ["/"; "etc"; "os-release"]) as [[|t r]|] eqn:F;
      [|destruct (contains (lower (universal_newlines t)) "ubuntu") eqn:U|].
    + split; [intros s w' [= <- <-]; split; [reflexivity|];
              split; [set_solver | discriminate]|].
      split; [intros [?|?]; discriminate|]. split; [eauto|]. now right.
    + split; [intros s w' [= <- <-]; split; [reflexivity|];
              split; [set_solver | intros _; split; [exact E3 | eauto]]|].
      split; [intros [?|?]; discriminate|]. split; [eauto|].
      intros _ Hf. now destruct (Hf t r).
    + split; [intros s w' [= <- <-]; split; [reflexivity|];
              split; [set_solver | discriminate]|].
      split; [intros [?|?]; discriminate|]. split; [eauto|].
      intros _ Hf. now destruct (Hf t r).
    + split; [intros s w' [= <- <-]; split; [reflexivity|];
              split; [set_solver | discriminate]|].
      split; [intros [?|?]; discriminate|]. split; [eauto|]. now right.
  - apply bool_decide_eq_false in E3.
    destruct (bool_decide (lower (platform_system h) = "windows"));
      (split; [intros s w' [= <- <-]; split; [reflexivity|];
               split; [set_solver | discriminate]|];
       split; [intros [?|?]; discriminate|]; split; [eauto|]; intros; congruence).
Qed.

(** ** The project directory *)

Lemma mkdir_chain_None (rest pre : Path) (m : FS) :
  mkdir_chain pre rest m = None ->
  exists q t r, q `prefix_of` (pre ++ rest) /\ m !! q = Some (File t r).
Proof.
  revert pre m. induction rest as [|x rest IH]; intros pre m H; [discriminate|].
  cbn [mkdir_chain] in H.
  assert (Hp : forall q, q `prefix_of` ((pre ++ [x]) ++ rest) ->
                         q `prefix_of` (pre ++ x :: rest))
    by (intros q; now rewrite <- app_assoc).
  destruct (m !! (pre ++ [x])) as [[|t r]|] eqn:E.
  - destruct (IH _ _ H) as (q & t & r & Hq & Hf). eauto 6.
  - exists (pre ++ [x]), t, r. split; [|exact E].
    apply prefix_app, prefix_cons, prefix_nil.
  - destruct (IH _ _ H) as (q & t & r & Hq & Hf).
    exists q, t, r. split; [eauto|].
    rewrite lookup_insert_ne in Hf; [exact Hf|]. intros <-.
    rewrite lookup_insert_eq in Hf. discriminate.
Qed.


(** X10. When [HOME / project_name] is there already: a file makes
    [ensure_project_dir] fail with [OSError] (it cannot be listed); a
    directory without entries is used as it is, without a question and
    without reading input; a directory with entries is the conflict, and
    the question is asked. Nothing is written in any of the three cases. *)
Theorem ensure_project_dir_existing (h : Host) (project_name : string) (w : World)
    (n : node) :
  fs w !! (home h / project_name)%path = Some n ->
  match n with
  | File _ _ => ensure_project_dir h project_name w = Raise OSError w
  | Dir =>
      if has_entries (fs w) (home h / project_name)%path
      then
        fs (world_of (ensure_project_dir h project_name w)) = fs w /\
        stdout (world_of (ensure_project_dir h project_name w)) =
          stdout w ++
          [(NL +:+ "Directory " +:+ to_str (home h / project_name)%path +:+
            " already exists and is not empty.") +:+ NL;
           "Do you want to abort and choose a different project name? [Y/n]: "]
      else
        ensure_project_dir h project_name w =
          Ret (home h / project_name)%path
              (emit (("Using existing empty directory: " +:+
                      to_str (home h / project_name)%path) +:+ NL) w)
  end.
Proof.
  intros E. unfold ensure_project_dir. cbv zeta.
  erewrite (bind_Ret_at (path_exists _)) by reflexivity.
  rewrite E. rewrite bool_decide_eq_true_2 by eauto. cbv iota.
  destruct n as [|t r].
  - destruct (has_entries (fs w) (home h / project_name)%path) eqn:He.
    + unfold bind, iterdir_any, print, input. rewrite E, He.
      cbn [emit fs stdin stdout].
      destruct (stdin w) as [|l rest]; cbn [world_of emit fs stdout].
      * split; [reflexivity | now rewrite <- app_assoc].
      * cbv zeta. destruct (bool_decide _); cbn [world_of sys_exit ret fs stdout];
          (split; [reflexivity | now rewrite <- app_assoc]).
    + unfold bind, iterdir_any. rewrite E, He. reflexivity.
  - unfold bind, iterdir_any. now rewrite E.
Qed.

(** ** Scaffolding over a scaffold *)

(** The file system has what a [write_text] of [content] at [path] leaves:
    the directories above [path], the file with its text, and the path is
    one that [write_text] can report. *)
Definition written (h : Host) (f : FS) (path : Path) (content : string) : Prop :=
  (forall q, q `prefix_of` parent path -> q <> [] -> f !! q = Some Dir) /\
  f !! path = Some (File (rstrip_nl content +:+ NL) false) /\
  is_Some (relative_to path (home h)).

Lemma write_text_writes (h : Host) (p : Path) (c : string) (w w' : World) :
  write_text h p c w = Ret tt w' -> written h (fs w') p c.
Proof.
  intros H. split; [|split].
  - intros q Hq Hne. rewrite write_text_steps in H.
    destruct (mkdir_chain [] (parent p) (fs w)) as [m|] eqn:Em; [|discriminate].
    assert (Hd : m !! q = Some Dir).
    { apply (mkdir_chain_dirs _ _ _ _ _ Em Hq). destruct q; [congruence | cbn; lia]. }
    pose proof (kept_path_write_text p (rstrip_nl c +:+ NL)
                  (mkWorld m (stdin w) (stdout w)) q) as K.
    cbn [fs] in K. rewrite Hd in K.
    destruct (path_write_text _ _ _) as [[] w1|code w1|e w1]; [|discriminate..].
    destruct (relative_to p (home h)); [|discriminate].
    injection H as <-. exact K.
  - apply (write_text_written h p c w). now left.
  - rewrite write_text_steps in H.
    destruct (mkdir_chain [] (parent p) (fs w)); [|discriminate].
    destruct (path_write_text _ _ _); [|discriminate..].
    destruct (relative_to p (home h)); [eauto | discriminate].
Qed.

(** On a file system that has it already, [write_text] changes nothing. *)
Lemma write_text_again (h : Host) (p : Path) (c : string) (w : World) :
  written h (fs w) p c ->
  exists w', write_text h p c w = Ret tt w' /\ fs w' = fs w.
Proof.
  intros (Hd & Hf & [rel Hr]). rewrite write_text_steps.
  rewrite mkdir_chain_id.
  2:{ intros q Hq Hl. apply Hd; [exact Hq|]. destruct q; [cbn in Hl; lia | discriminate]. }
  unfold path_write_text. cbn [fs stdin stdout]. rewrite Hf, Hr.
  eexists. split; [reflexivity|]. cbn [emit fs]. now apply insert_id.
Qed.

Lemma written_kept (h : Host) (f f' : FS) (p : Path) (c : string) :
  written h f p c -> kept f f' ->
  f' !! p = Some (File (rstrip_nl c +:+ NL) false) -> written h f' p c.
Proof.
  intros (Hd & _ & Hr) K Hf. split; [|split; assumption].
  intros q Hq Hne. specialize (K q). now rewrite (Hd q Hq Hne) in K.
Qed.

Lemma write_all_writes (h : Host) (root : Path) (es : list (Path * string)) (w w' : World) :
  write_all h root es w = Ret tt w' ->
  NoDup (map fst es) ->
  forallb (fun e => forallb plain e.1) es = true ->
  forall segs text, In (segs, text) es -> written h (fs w') (root ++ segs) text.
Proof.
  intros H Hnd Hpl segs text Hin.
  pose proof (write_all_files _ _ _ _ _ H Hnd Hpl _ _ Hin) as Hf.
  revert w H Hnd Hpl Hin.
  induction es as [|[s t] es IH]; intros w H Hnd Hpl Hin; [destruct Hin|].
  cbn [write_all] in H.
  apply bind_inv in H as [([] & w1 & E1 & H)|[(c & w1 & _ & H)|(e & w1 & _ & H)]];
    [| discriminate..].
  cbn [map fst] in Hnd. apply NoDup_cons in Hnd as [Hs Hnd].
  cbn [forallb fst] in Hpl. apply andb_prop in Hpl as [Hp Hpl].
  destruct Hin as [[= -> ->]|Hin]; [|now apply (IH w1)].
  rewrite resolve_plain in E1 by exact Hp.
  apply write_text_writes in E1.
  apply (written_kept _ _ _ _ _ E1); [|exact Hf].
  pose proof (kept_write_all h root es w1) as K. now rewrite H in K.
Qed.

Lemma write_all_again (h : Host) (root : Path) (es : list (Path * string)) (f : FS) :
  forallb (fun e => forallb plain e.1) es = true ->
  (forall segs text, In (segs, text) es -> written h f (root ++ segs) text) ->
  forall w, fs w = f -> exists w', write_all h root es w = Ret tt w' /\ fs w' = f.
Proof.
  induction es as [|[s t] es IH]; intros Hpl Hw w Ef.
  - exists w. now split.
  - cbn [forallb fst] in Hpl. apply andb_prop in Hpl as [Hp Hpl].
    cbn [write_all]. rewrite resolve_plain by exact Hp.
    destruct (write_text_again h (root ++ s) t w) as (w1 & E1 & F1).
    { rewrite Ef. apply Hw. now left. }
    rewrite (bind_Ret_at _ _ _ _ _ E1).
    apply IH; [exact Hpl | intros; apply Hw; now right | congruence].
Qed.

(** X11. The scaffold can be run over its own result: when [materialize]
    returned, a second [materialize] with the same parameters, on whatever
    world has the file system the first one left, returns too and leaves
    every file and directory as it is. *)
Theorem materialize_again (h : Host) (root : Path) (n d a : string) (u : bool)
    (w w1 w' : World) :
  materialize h root n d a u w = Ret tt w1 ->
  fs w' = fs w1 ->
  exists w2, materialize h root n d a u w' = Ret tt w2 /\ fs w2 = fs w1.
Proof.
  rewrite !materialize_catalog, !bind_print_at. intros H E.
  apply (write_all_again h root (catalog n d a) (fs w1)); [apply catalog_plain | |exact E].
  apply (write_all_writes _ _ _ _ _ H); [apply catalog_NoDup | apply catalog_plain].
Qed.

(** ** The two workflows *)

Lemma outside_write_all (h : Host) (root : Path) (es : list (Path * string)) :
  forallb (fun e => forallb plain e.1) es = true ->
  fs_rel (same_outside (fun q => exists segs, In segs (map fst es) /\
                                              q `prefix_of` (root ++ segs)))
         (write_all h root es).
Proof.
  induction es as [|[segs text] es IH]; cbn [write_all forallb fst map]; intros Hp.
  - intros w q _. reflexivity.
  - apply andb_prop in Hp as [Hs Hp].
    apply fs_rel_bind; [typeclasses eauto | |intros _].
    + rewrite resolve_plain by exact Hs.
      eapply fs_rel_weaken; [|apply outside_write_text].
      intros f f'. apply same_outside_weaken. intros q Hq. exists segs. split; [now left|exact Hq].
    + eapply fs_rel_weaken; [|apply IH, Hp].
      intros f f'. apply same_outside_weaken. intros q (s & Hin & Hq).
      exists s. split; [now right | exact Hq].
Qed.

(** The first segment of no file of the catalog is [name]. *)
Definition not_in_catalog (name : string) : bool :=
  forallb (fun segs => negb (bool_decide (head segs = Some name)))
          (map fst (catalog EmptyString EmptyString EmptyString)).

Lemma not_in_catalog_outside (root : Path) (name : string) (n d a : string) :
  not_in_catalog name = true ->
  ~ exists segs, In segs (map fst (catalog n d a)) /\
                 (root ++ [name]) `prefix_of` (root ++ segs).
Proof.
  intros H (segs & Hin & Hp). rewrite catalog_paths in Hin.
  unfold not_in_catalog in H. rewrite forallb_forall in H. specialize (H _ Hin).
  apply negb_true_iff, bool_decide_eq_false in H. apply H.
  apply prefix_app_inv in Hp. destruct Hp as [k ->]. reflexivity.
Qed.

Lemma not_prefix_of_shorter (root : Path) (name : string) :
  ~ (root ++ [name]) `prefix_of` root.
Proof. intros H. apply prefix_length in H. rewrite length_app in H. cbn in H. lia. Qed.

Lemma snoc_prefix_snoc (root : Path) (x y : string) :
  (root ++ [x]) `prefix_of` (root ++ [y]) -> x = y.
Proof. intros H. apply prefix_app_inv in H. destruct H as [k E]. now injection E. Qed.

Lemma rc_file_last (h : Host) :
  rc_file h = home h ++ [".zshrc"] \/ rc_file h = home h ++ [".bashrc"].
Proof.
  unfold rc_file. destruct (unix_like h); [destruct (endswith _ _)|];
    rewrite joinpath_plain by reflexivity; auto.
Qed.

Section RunPaths.
Variable h : Host.

Lemma outside_ensure_project_dir n :
  fs_rel (same_outside (fun q => q `prefix_of` (home h / n)%path)) (ensure_project_dir h n).
Proof.
  pose proof (outside_mkdir_parents (home h / n)%path).
  unfold ensure_project_dir. track.
Qed.

(** The paths of the last step of a workflow. *)
Definition manifest_paths (use_poetry : bool) (root q : Path) : Prop :=
  if use_poetry
  then q `prefix_of` (root ++ ["pyproject.toml"]) \/ q = rc_file h
  else q `prefix_of` (root ++ ["requirements.txt"]).

(** The paths that the run can touch after the prompts, one by one: the
    directories down to the project directory, the files of the catalog
    and the directories above them, the manifest of the workflow and, for
    the Poetry workflow, the shell startup file. *)
Definition run_paths (use_poetry : bool) (n d a : string) (q : Path) : Prop :=
  q `prefix_of` (home h / n)%path \/
  (exists segs, In segs (map fst (catalog n d a)) /\
                q `prefix_of` ((home h / n)%path ++ segs)) \/
  manifest_paths use_poetry (home h / n)%path q.

Lemma outside_finalize (root : Path) (u : bool) (n d a : string) :
  fs_rel (same_outside (manifest_paths u root)) (finalize h root n d a u).
Proof.
  unfold finalize, manifest_paths. destruct u.
  - assert (fs_rel (same_outside
                      (fun q => q `prefix_of` (root ++ ["pyproject.toml"]) \/ q = rc_file h))
                   (ensure_poetry_alias h)).
    { eapply fs_rel_weaken; [|apply rc_ensure_poetry_alias].
      intros f f'. apply same_outside_weaken. intros q ->. now right. }
    assert (forall text,
              fs_rel (same_outside
                        (fun q => q `prefix_of` (root ++ ["pyproject.toml"]) \/
                                  q = rc_file h))
                     (write_text h (root / "pyproject.toml")%path text)).
    { intros text. rewrite joinpath_plain by reflexivity.
      eapply fs_rel_weaken; [|apply outside_write_text].
      intros f f'. apply same_outside_weaken. intros q Hq. now left. }
    pose proof fs_stable_poetry_metadata.
    unfold write_poetry_files. track.
  - unfold write_requirements. rewrite joinpath_plain by reflexivity.
    apply outside_write_text.
Qed.

Lemma run_paths_after_collect (u : bool) (n d a : string) :
  fs_rel (same_outside (run_paths u n d a))
    (project_root <- ensure_project_dir h n ;;
     materialize h project_root n d a u ;;
     finalize h project_root n d a u ;;
     summary project_root u).
Proof.
  apply (fs_rel_bind_post _ (fun r => r = (home h / n)%path)).
  - eapply fs_rel_weaken; [|apply outside_ensure_project_dir].
    intros f f'. apply same_outside_weaken. intros q Hq. now left.
  - apply ensure_project_dir_returns.
  - intros r ->.
    apply fs_rel_bind; [typeclasses eauto | |intros _].
    { intros w. rewrite materialize_catalog, bind_print_at.
      pose proof (outside_write_all h (home h / n)%path (catalog n d a)
                    (catalog_plain n d a)
                    (emits [(NL +:+ "Scaffolding Flask project structure..." +:+ NL) +:+ NL] w))
        as F.
      revert F. apply same_outside_weaken. intros q Hq. right. now left. }
    apply fs_rel_bind; [typeclasses eauto | |intros _].
    2:{ intros w q _. now rewrite fs_stable_summary. }
    eapply fs_rel_weaken; [|apply outside_finalize].
    intros f f'. apply same_outside_weaken. intros q Hq. right. right. exact Hq.
Qed.

End RunPaths.

(** X12. The two workflows keep to their own manifest: for a project
    directory that the operating system takes as it is written
    ([canonical]; a name such as [requirements.txt/..] is not), a run of
    the requirements workflow leaves [pyproject.toml] of the project
    directory as it was (absent, if it was), and a run of the Poetry
    workflow leaves [requirements.txt] as it was, however the run ends. *)
Theorem workflow_files_exclusive (h : Host) (w : World) (option : string) (w1 : World)
    (project_name description author : string) (w2 : World) :
  gate h w = Ret option w1 ->
  collect w1 = Ret (project_name, description, author) w2 ->
  canonical (home h / project_name)%path = true ->
  (option <> "1" ->
   fs (world_of (main h w)) !! (home h / project_name / "pyproject.toml")%path =
   fs w !! (home h / project_name / "pyproject.toml")%path) /\
  (option = "1" ->
   fs (world_of (main h w)) !! (home h / project_name / "requirements.txt")%path =
   fs w !! (home h / project_name / "requirements.txt")%path).
Proof.
  intros Eg Ec _. rewrite main_phases. unfold phases.
  rewrite (bind_Ret_at _ _ _ _ _ Eg), (bind_Ret_at _ _ _ _ _ Ec).
  pose proof (fs_stable_gate h w) as Sg. rewrite Eg in Sg.
  pose proof (fs_stable_collect w1) as Sc. rewrite Ec in Sc. cbn [world_of] in Sg, Sc.
  rewrite <- Sg, <- Sc. cbv zeta.
  rewrite !(joinpath_plain (home h / project_name)%path) by reflexivity.
  split; intros Ho.
  - rewrite bool_decide_eq_false_2 by exact Ho.
    apply (run_paths_after_collect h false project_name description author w2).
    intros [H|[H|H]].
    + now apply not_prefix_of_shorter in H.
    + revert H. now apply not_in_catalog_outside.
    + apply snoc_prefix_snoc in H. discriminate.
  - rewrite bool_decide_eq_true_2 by exact Ho.
    apply (run_paths_after_collect h true project_name description author w2).
    intros [H|[H|[H|H]]].
    + now apply not_prefix_of_shorter in H.
    + revert H. now apply not_in_catalog_outside.
    + apply snoc_prefix_snoc in H. discriminate.
    + destruct (rc_file_last h) as [E|E]; rewrite E in H;
        apply (f_equal last) in H; rewrite !last_snoc in H; discriminate.
Qed.

(** ** The startup file after the alias step *)

Lemma parent_snoc (p : Path) (x : string) : is_root x = false -> parent (p ++ [x]) = p.
Proof.
  intros Hx. unfold parent. destruct p as [|r [|y p]].
  - cbn. now rewrite Hx.
  - reflexivity.
  - change ((r :: y :: p) ++ [x]) with (r :: y :: (p ++ [x])).
    change (r :: y :: (p ++ [x])) with ((r :: y :: p) ++ [x]).
    apply removelast_last.
Qed.

Lemma parent_rc_file (h : Host) : parent (rc_file h) = home h.
Proof.
  destruct (rc_file_last h) as [E|E]; rewrite E; now apply parent_snoc.
Qed.

(** X13. When the startup file does not exist, [ensure_poetry_alias]
    creates it in the home directory with an empty first line and the
    alias line, and says so; when the home directory itself is missing (or
    is not a directory) the call fails with [OSError] and changes
    nothing. *)
Theorem alias_file_created (h : Host) (w : World) :
  fs w !! rc_file h = None ->
  match fs w !! home h with
  | Some Dir =>
      ensure_poetry_alias h w =
        Ret tt (mkWorld (<[rc_file h := File (NL +:+ alias_line +:+ NL) false]> (fs w))
                        (stdin w)
                        (stdout w ++
                         [("Added alias 'pf' to " +:+ to_str (rc_file h) +:+
                           ". You may need to reload your shell.") +:+ NL]))
  | _ => ensure_poetry_alias h w = Raise OSError w
  end.
Proof.
  intros E. rewrite ensure_poetry_alias_at, (alias_at_absent _ _ E), parent_rc_file.
  destruct (fs w !! home h) as [[]|]; reflexivity.
Qed.

(** X14. Whenever [ensure_poetry_alias] returns, the startup file is there
    and, read as the script reads it, has a line whose stripped text
    begins with [alias pf=]: the line it found or the one it added. *)
Theorem alias_present_after (h : Host) (w w' : World) :
  ensure_poetry_alias h w = Ret tt w' ->
  exists text ro,
    fs w' !! rc_file h = Some (File text ro) /\
    has_alias (universal_newlines text) = true.
Proof.
  rewrite ensure_poetry_alias_at.
  assert (R : forall content,
             cr_free content = true ->
             exists text ro,
               fs (rewritten (rc_file h) content w) !! rc_file h = Some (File text ro) /\
               has_alias (universal_newlines text) = true).
  { intros content Hc. exists (with_alias content), false. split.
    - unfold rewritten. cbn [fs]. apply lookup_insert_eq.
    - rewrite universal_newlines_cr_free by now apply cr_free_with_alias.
      now apply has_alias_with_alias. }
  destruct (fs w !! rc_file h) as [[|text ro]|] eqn:E.
  - rewrite (alias_at_dir _ _ E). discriminate.
  - rewrite (alias_at_file _ _ _ _ E).
    destruct (has_alias (universal_newlines text)) eqn:Ha.
    + intros [= <-]. exists text, ro. split; [exact E | exact Ha].
    + destruct ro; [discriminate|]. intros [= <-].
      apply R, cr_free_universal_newlines.
  - rewrite (alias_at_absent _ _ E).
    destruct (fs w !! parent (rc_file h)) as [[]|]; try discriminate.
    intros [= <-]. now apply R.
Qed.

(** ** Whole runs *)

(** X15. [main] reads its input in order and no further than it needs: with
    more lines after the input of a run that returned or left through
    [sys.exit], the run is the same and the lines are left unread; and a
    run that failed otherwise than for want of input fails the same way. *)
Theorem main_reads_in_order (h : Host) (w : World) (more : list string) :
  match main h w with
  | Ret _ w' => main h (more_input more w) = Ret tt (more_input more w')
  | Exit code w' => main h (more_input more w) = Exit code (more_input more w')
  | Raise e w' =>
      e = EOFError \/ main h (more_input more w) = Raise e (more_input more w')
  end.
Proof.
  assert (E : extends (main h)) by (unfold main; reads).
  specialize (E w more). destruct (main h w) as [[] w'|c w'|e w']; exact E.
Qed.

(** The prerequisite check passes only on a host that has the tools. *)
Lemma ensure_prereqs_true (h : Host) (o : string) (w w' : World) :
  ensure_prereqs h o w = Ret true w' ->
  check_pyenv h = true /\
  (o = "1" -> check_poetry h = true) /\
  (o = "2" -> check_pyenv_virtualenv h = true).
Proof.
  pose proof (prints_show_prereq_instructions o) as Hs.
  unfold ensure_prereqs. cbv zeta.
  destruct (check_pyenv h), (check_poetry h), (check_pyenv_virtualenv h);
    repeat case_bool_decide; cbn [negb];
    repeat first [ rewrite bind_assoc_at | rewrite bind_ret_at | rewrite bind_print_at
                 | rewrite (bind_prints_at _ _ _ _ Hs) | progress cbv beta iota ];
    intros Hr; try discriminate Hr; repeat split; intros; congruence.
Qed.

Lemma gate_returns (h : Host) (w : World) (o : string) (w1 : World) :
  gate h w = Ret o w1 ->
  (o = "1" \/ o = "2") /\
  check_pyenv h = true /\
  (o = "1" -> check_poetry h = true) /\
  (o = "2" -> check_pyenv_virtualenv h = true).
Proof.
  unfold gate. intros H.
  apply bind_inv in H as [(o' & wa & Em & H)|[(c & wa & _ & H)|(e & wa & _ & H)]];
    [|discriminate..].
  assert (Hk : o' ∈ map fst MENU).
  { unfold menu in Em.
    apply bind_inv in Em as [(u & wb & _ & Em)|[(c & wb & _ & Em)|(e & wb & _ & Em)]];
      [|discriminate..].
    unfold prompt_choice in Em. rewrite (prompt_choice_loop_run _ _ _ _ eq_refl) in Em.
    destruct (drop _ _) as [|g r] eqn:D; [discriminate|].
    injection Em as <- _. apply drop_invalid_lines in D. now apply bool_decide_eq_true in D. }
  destruct (bool_decide (o' = "q")) eqn:Q.
  { rewrite bind_assoc_at, bind_print_at in H. discriminate. }
  apply bool_decide_eq_false in Q. rewrite bind_ret_at in H.
  apply bind_inv in H as [(ok & wb & Ep & H)|[(c & wb & _ & H)|(e & wb & _ & H)]];
    [|discriminate..].
  destruct ok; cbn [negb] in H; [|discriminate].
  rewrite bind_ret_at in H. injection H as -> _.
  split; [|now apply (ensure_prereqs_true _ _ _ _ Ep)].
  cbn [map fst MENU] in Hk. rewrite !elem_of_cons, elem_of_nil in Hk.
  destruct Hk as [Hk|[Hk|[Hk|[]]]]; [now left | now right | congruence].
Qed.

(** X16. [main] writes only on a host that passed the prerequisite check:
    a run that changes anything in the file system chose workflow 1 or 2 at
    the menu, on a host where pyenv is found and so is, for workflow 1,
    Poetry and, for workflow 2, the pyenv-virtualenv plugin. *)
Theorem main_writes_need_prereqs (h : Host) (w : World) :
  fs (world_of (main h w)) <> fs w ->
  check_pyenv h = true /\
  exists option w1,
    gate h w = Ret option w1 /\
    ((option = "1" /\ check_poetry h = true) \/
     (option = "2" /\ check_pyenv_virtualenv h = true)).
Proof.
  rewrite main_phases. unfold phases, bind at 1.
  pose proof (fs_stable_gate h w) as Sg.
  destruct (gate h w) as [o w1|c w1|e w1] eqn:Eg; cbn [world_of] in *;
    [|intros H; now rewrite Sg in H..].
  intros _. apply gate_returns in Eg as (Ho & Hp & H1 & H2).
  split; [exact Hp|]. exists o, w1. split; [reflexivity|].
  destruct Ho as [->| ->]; [left | right]; auto.
Qed.

(** X17. Without any input, [main] prints the header and the menu, asks
    for the choice and ends with [EOFError]; the file system is not
    touched. *)
Theorem main_without_input (h : Host) (w : World) :
  stdin w = [] ->
  main h w =
    Raise EOFError
      (mkWorld (fs w) []
         (stdout (world_of (print_header w)) ++
          turn "Choose your environment workflow:" MENU)).
Proof.
  intros E. unfold main.
  assert (Hh : exists out, prints print_header out).
  { unfold print_header. eexists. prints_steps. }
  destruct Hh as [out Hh].
  rewrite (bind_prints_at _ _ _ _ Hh), Hh. cbn [world_of].
  unfold bind, prompt_choice.
  rewrite (prompt_choice_loop_run _ _ _ _ eq_refl).
  cbn [emits stdin]. rewrite E. reflexivity.
Qed.

(** ** A run that returns *)

(** No file of the catalog is named like a shell startup file. *)
Definition no_startup_file_in_catalog : bool :=
  forallb (fun segs => match last segs with
                       | Some x => negb (bool_decide (x = ".zshrc")) &&
                                   negb (bool_decide (x = ".bashrc"))
                       | None => false
                       end)
          (map fst (catalog EmptyString EmptyString EmptyString)).

Lemma catalog_path_not_manifest (h : Host) (root : Path) (u : bool) (n d a : string)
    (segs : Path) :
  In segs (map fst (catalog n d a)) -> ~ manifest_paths h u root (root ++ segs).
Proof.
  intros Hin. rewrite catalog_paths in Hin.
  assert (Hrc : root ++ segs <> rc_file h).
  { assert (L : no_startup_file_in_catalog = true) by reflexivity.
    unfold no_startup_file_in_catalog in L. rewrite forallb_forall in L.
    specialize (L _ Hin). intros E. apply (f_equal last) in E.
    destruct segs as [|s0 segs] using rev_ind; [discriminate L|].
    rewrite app_assoc, !last_snoc in E. rewrite last_snoc in L.
    apply andb_prop in L as [L1 L2].
    apply negb_true_iff, bool_decide_eq_false in L1, L2.
    destruct (rc_file_last h) as [R|R]; rewrite R, last_snoc in E; congruence. }
  assert (Hm : forall name, not_in_catalog name = true ->
                 ~ (root ++ segs) `prefix_of` (root ++ [name])).
  { intros name Hn Hp. unfold not_in_catalog in Hn. rewrite forallb_forall in Hn.
    specialize (Hn _ Hin). apply negb_true_iff, bool_decide_eq_false in Hn.
    apply prefix_app_inv in Hp. destruct Hp as [k Hk].
    destruct segs as [|s0 [|s1 segs]]; [|injection Hk as <- _; now apply Hn | discriminate Hk].
    assert (L : no_startup_file_in_catalog = true) by reflexivity.
    unfold no_startup_file_in_catalog in L. rewrite forallb_forall in L.
    now specialize (L _ Hin). }
  unfold manifest_paths. destruct u.
  - intros [H|H]; [now apply (Hm "pyproject.toml") | congruence].
  - now apply (Hm "requirements.txt").
Qed.

Lemma finalize_writes_manifest (h : Host) (root : Path) (u : bool) (n d a : string)
    (w w' : World) :
  finalize h root n d a u w = Ret tt w' ->
  exists text,
    fs w' !! (root ++ [if u then "pyproject.toml" else "requirements.txt"]) =
      Some (File text false).
Proof.
  unfold finalize. destruct u.
  - intros H.
    apply bind_inv in H as [(md & w1 & _ & H)|[(c & w1 & _ & H)|(e & w1 & _ & H)]];
      [|discriminate..].
    destruct md as [[[[[[pn pv] pd] an] ae] lic] rp].
    apply bind_inv in H as [([] & w2 & E2 & H)|[(c & w2 & _ & H)|(e & w2 & _ & H)]];
      [|discriminate..].
    unfold write_poetry_files in E2. rewrite joinpath_plain in E2 by reflexivity.
    eexists. pose proof (rc_ensure_poetry_alias h w2 (root ++ ["pyproject.toml"])) as K.
    rewrite H in K. cbn [world_of] in K. rewrite K.
    + eapply write_text_written. left. exact E2.
    + intros E. destruct (rc_file_last h) as [R|R]; rewrite R in E;
        apply (f_equal last) in E; rewrite !last_snoc in E; discriminate.
  - unfold write_requirements. rewrite joinpath_plain by reflexivity. intros H.
    eexists. eapply write_text_written. left. exact H.
Qed.

(** X18. A run of [main] that returns has made the whole scaffold: it got
    through the menu and the prompts, and afterwards every file of the
    catalog is in the project directory with the text of its entry and one
    final newline, next to the manifest of the workflow
    ([pyproject.toml] for Poetry, [requirements.txt] otherwise). *)
Theorem main_completed_scaffold (h : Host) (w w' : World) :
  main h w = Ret tt w' ->
  exists option w1 project_name description author w2,
    gate h w = Ret option w1 /\
    collect w1 = Ret (project_name, description, author) w2 /\
    (forall segs text,
        In (segs, text) (catalog project_name description author) ->
        fs w' !! ((home h / project_name)%path ++ segs) =
          Some (File (rstrip_nl text +:+ NL) false)) /\
    exists text,
      fs w' !! ((home h / project_name)%path ++
                [if bool_decide (option = "1") then "pyproject.toml"
                 else "requirements.txt"]) = Some (File text false).
Proof.
  rewrite main_phases. unfold phases. intros H.
  apply bind_inv in H as [(o & w1 & Eg & H)|[(c & w1 & _ & H)|(e & w1 & _ & H)]];
    [|discriminate..].
  apply bind_inv in H as [([[n d] a] & w2 & Ec & H)|[(c & w2 & _ & H)|(e & w2 & _ & H)]];
    [|discriminate..].
  apply bind_inv in H as [(r & w3 & Ed & H)|[(c & w3 & _ & H)|(e & w3 & _ & H)]];
    [|discriminate..].
  apply ensure_project_dir_returns in Ed as Er. subst r. cbv zeta in H.
  apply bind_inv in H as [([] & w4 & Em & H)|[(c & w4 & _ & H)|(e & w4 & _ & H)]];
    [|discriminate..].
  apply bind_inv in H as [([] & w5 & Ef & H)|[(c & w5 & _ & H)|(e & w5 & _ & H)]];
    [|discriminate..].
  pose proof (fs_stable_summary (home h / n)%path (bool_decide (o = "1")) w5) as Ss.
  rewrite H in Ss. cbn [world_of] in Ss.
  exists o, w1, n, d, a, w2. split; [exact Eg|]. split; [exact Ec|]. rewrite Ss. split.
  - intros segs text Hin.
    pose proof (outside_finalize h (home h / n)%path (bool_decide (o = "1")) n d a w4
                  ((home h / n)%path ++ segs)) as K.
    rewrite Ef in K. cbn [world_of] in K. rewrite K.
    + exact (materialize_files _ _ _ _ _ _ _ _ Em _ _ Hin).
    + apply (catalog_path_not_manifest h _ _ n d a). now apply (in_map fst) in Hin.
  - exact (finalize_writes_manifest _ _ _ _ _ _ _ _ Ef).
Qed.

(** *** What the scaffold reports *)

Lemma write_text_reports (h : Host) (rel : Path) (c : string) (w w' : World) :
  write_text h (home h ++ rel) c w = Ret tt w' ->
  stdout w' = stdout w ++ [("  - Created " +:+ to_str rel) +:+ NL].
Proof.
  rewrite write_text_steps.
  destruct (mkdir_chain [] _ (fs w)) as [m|]; [|discriminate].
  unfold path_write_text. cbn [fs stdin stdout].
  replace (relative_to (home h ++ rel) (home h)) with (Some rel)
    by (symmetry; now apply relative_to_Some).
  destruct (m !! (home h ++ rel)) as [[|t []]|]; try discriminate.
  - now intros [= <-].
  - destruct (m !! parent (home h ++ rel)) as [[]|]; try discriminate.
    now intros [= <-].
Qed.

Lemma write_all_reports (h : Host) (rel : Path) (es : list (Path * string)) :
  forallb (fun e => forallb plain e.1) es = true ->
  forall w w',
    write_all h (home h ++ rel) es w = Ret tt w' ->
    stdout w' =
      stdout w ++
      map (fun segs => ("  - Created " +:+ to_str (rel ++ segs)) +:+ NL) (map fst es).
Proof.
  induction es as [|[segs text] es IH]; cbn [write_all forallb fst map]; intros Hp w w' H.
  - injection H as <-. now rewrite app_nil_r.
  - apply andb_prop in Hp as [Hs Hp].
    apply bind_inv in H as [([] & w1 & E1 & H)|[(c & w1 & _ & H)|(e & w1 & _ & H)]];
      [|discriminate..].
    rewrite resolve_plain, <- app_assoc in E1 by exact Hs.
    apply write_text_reports in E1. rewrite (IH Hp _ _ H), E1.
    now rewrite <- app_assoc.
Qed.

(** X19. The console tells what the scaffold wrote: when [materialize]
    returns for a project directory below the home directory, it has
    printed its heading and then one line for each file of the catalog, in
    the order of the catalog, with the path of the file from the home
    directory (the project directory first). *)
Theorem scaffold_reports_files (h : Host) (rel : Path) (n d a : string) (u : bool)
    (w w' : World) :
  materialize h (home h ++ rel) n d a u w = Ret tt w' ->
  stdout w' =
    stdout w ++
    ((NL +:+ "Scaffolding Flask project structure..." +:+ NL) +:+ NL) ::
    map (fun segs => ("  - Created " +:+ to_str (rel ++ segs)) +:+ NL)
        (map fst (catalog n d a)).
Proof.
  rewrite materialize_catalog, bind_print_at. intros H.
  apply (write_all_reports h rel _ (catalog_plain n d a)) in H.
  rewrite H. cbn [emits stdout]. now rewrite <- app_assoc.
Qed.

(** ** The further properties on the concrete host *)

Definition exit_code_of {A} (r : Res A) : option Z :=
  match r with
  | Exit c _ => Some c
  | _ => None
  end.

Lemma exit_value {A} (r : Res A) (c : Z) : exit_code_of r = Some c -> r = Exit c (world_of r).
Proof. destruct r; cbn; congruence. Qed.

(** The run of the requirements workflow for [blog], everything else left
    to its default. *)
Definition blog_run : World := mkWorld home_tree ["2"; "blog"; ""; ""] [].




(** X5, witness: the conflict in [busy_tree], answered with an abort. *)
Lemma main_exit_leaves_files_witness :
  fs (world_of (main linux_host (mkWorld busy_tree ["2"; "blog"; ""; ""; "y"] []))) =
  busy_tree.
Proof.
  apply (main_exit_leaves_files linux_host
           (mkWorld busy_tree ["2"; "blog"; ""; ""; "y"] []) 1).
  apply exit_value. vm_compute. reflexivity.
Defined.


(** X10, witness: [blog] is there and holds a file. *)
Lemma ensure_project_dir_existing_witness :
  if has_entries busy_tree (home linux_host / "blog")%path
  then
    fs (world_of (ensure_project_dir linux_host "blog" (mkWorld busy_tree [] []))) =
      busy_tree /\
    stdout (world_of (ensure_project_dir linux_host "blog" (mkWorld busy_tree [] []))) =
      [] ++
      [(NL +:+ "Directory " +:+ to_str (home linux_host / "blog")%path +:+
        " already exists and is not empty.") +:+ NL;
       "Do you want to abort and choose a different project name? [Y/n]: "]
  else
    ensure_project_dir linux_host "blog" (mkWorld busy_tree [] []) =
      Ret (home linux_host / "blog")%path
          (emit (("Using existing empty directory: " +:+
                  to_str (home linux_host / "blog")%path) +:+ NL)
                (mkWorld busy_tree [] [])).
Proof.
  apply (ensure_project_dir_existing linux_host "blog" (mkWorld busy_tree [] []) Dir).
  vm_compute. reflexivity.
Defined.

(** The scaffold for [blog] in the empty home directory. *)
Definition blog_scaffold : Res unit :=
  materialize linux_host (home linux_host ++ ["blog"]) "blog" "A blog." "Ann" false
    (mkWorld home_tree [] []).

(** X11, witness: the scaffold for [blog], and once more over its result. *)
Lemma materialize_again_witness :
  exists w2,
    materialize linux_host (home linux_host ++ ["blog"]) "blog" "A blog." "Ann" false
      (world_of blog_scaffold) = Ret tt w2 /\
    fs w2 = fs (world_of blog_scaffold).
Proof.
  apply (materialize_again linux_host (home linux_host ++ ["blog"]) "blog" "A blog." "Ann"
           false (mkWorld home_tree [] []) (world_of blog_scaffold) (world_of blog_scaffold)).
  - apply ret_value. vm_compute. reflexivity.
  - reflexivity.
Defined.

(** X12, witness: the run for [blog] under the requirements workflow. *)
Lemma workflow_files_exclusive_witness :
  ("2" <> "1" ->
   fs (world_of (main linux_host blog_run)) !!
     (home linux_host / "blog" / "pyproject.toml")%path =
   fs blog_run !! (home linux_host / "blog" / "pyproject.toml")%path) /\
  ("2" = "1" ->
   fs (world_of (main linux_host blog_run)) !!
     (home linux_host / "blog" / "requirements.txt")%path =
   fs blog_run !! (home linux_host / "blog" / "requirements.txt")%path).
Proof.
  apply (workflow_files_exclusive linux_host blog_run "2"
           (world_of (gate linux_host blog_run))
           "blog" "A starter Flask application." "Your Name"
           (world_of (collect (world_of (gate linux_host blog_run))))).
  - apply ret_value. vm_compute. reflexivity.
  - apply ret_value. vm_compute. reflexivity.
  - reflexivity.
Defined.

(** X13, witness: no startup file in the empty home directory. *)
Lemma alias_file_created_witness :
  match home_tree !! home linux_host with
  | Some Dir =>
      ensure_poetry_alias linux_host (mkWorld home_tree [] []) =
        Ret tt (mkWorld (<[rc_file linux_host := File (NL +:+ alias_line +:+ NL) false]>
                           home_tree)
                        []
                        ([] ++
                         [("Added alias 'pf' to " +:+ to_str (rc_file linux_host) +:+
                           ". You may need to reload your shell.") +:+ NL]))
  | _ => ensure_poetry_alias linux_host (mkWorld home_tree [] []) =
           Raise OSError (mkWorld home_tree [] [])
  end.
Proof.
  apply (alias_file_created linux_host (mkWorld home_tree [] [])).
  vm_compute. reflexivity.
Defined.

(** X14, witness: a startup file that has no alias yet. *)
Lemma alias_present_after_witness :
  exists text ro,
    fs (world_of (ensure_poetry_alias linux_host
                    (mkWorld (rc_tree ("export EDITOR=vi" +:+ NL) false) [] [])))
      !! rc_file linux_host = Some (File text ro) /\
    has_alias (universal_newlines text) = true.
Proof.
  apply (alias_present_after linux_host
           (mkWorld (rc_tree ("export EDITOR=vi" +:+ NL) false) [] [])).
  apply ret_value. vm_compute. reflexivity.
Defined.

(** X16, witness: the run for [blog] wrote files. *)
Lemma main_writes_need_prereqs_witness :
  check_pyenv linux_host = true /\
  exists option w1,
    gate linux_host blog_run = Ret option w1 /\
    ((option = "1" /\ check_poetry linux_host = true) \/
     (option = "2" /\ check_pyenv_virtualenv linux_host = true)).
Proof.
  apply (main_writes_need_prereqs linux_host blog_run).
  intros H. apply (f_equal (fun m => m !! (user_home ++ ["blog"]))) in H.
  vm_compute in H. discriminate H.
Defined.

(** X17, witness: no input at all. *)
Lemma main_without_input_witness :
  main linux_host (mkWorld home_tree [] []) =
    Raise EOFError
      (mkWorld home_tree []
         (stdout (world_of (print_header (mkWorld home_tree [] []))) ++
          turn "Choose your environment workflow:" MENU)).
Proof.
  apply (main_without_input linux_host (mkWorld home_tree [] [])). reflexivity.
Defined.

(** X18, witness: the run for [blog]. *)
Lemma main_completed_scaffold_witness :
  exists option w1 project_name description author w2,
    gate linux_host blog_run = Ret option w1 /\
    collect w1 = Ret (project_name, description, author) w2 /\
    (forall segs text,
        In (segs, text) (catalog project_name description author) ->
        fs (world_of (main linux_host blog_run)) !!
          ((home linux_host / project_name)%path ++ segs) =
          Some (File (rstrip_nl text +:+ NL) false)) /\
    exists text,
      fs (world_of (main linux_host blog_run)) !!
        ((home linux_host / project_name)%path ++
         [if bool_decide (option = "1") then "pyproject.toml"
          else "requirements.txt"]) = Some (File text false).
Proof.
  apply (main_completed_scaffold linux_host blog_run (world_of (main linux_host blog_run))).
  apply ret_value. vm_compute. reflexivity.
Defined.

(** X19, witness: the scaffold for [blog]. *)
Lemma scaffold_reports_files_witness :
  stdout (world_of blog_scaffold) =
    [] ++
    ((NL +:+ "Scaffolding Flask project structure..." +:+ NL) +:+ NL) ::
    map (fun segs => ("  - Created " +:+ to_str (["blog"] ++ segs)) +:+ NL)
        (map fst (catalog "blog" "A blog." "Ann")).
Proof.
  apply (scaffold_reports_files linux_host ["blog"] "blog" "A blog." "Ann" false
           (mkWorld home_tree [] []) (world_of blog_scaffold)).
  apply ret_value. vm_compute. reflexivity.
Defined.

(** The prompts at small inputs. *)
Example prompt_choice_second_try :
  prompt_choice "Pick:" [("a", "first"); ("b", "second")]
    (mkWorld ∅ ["x"; " b "; "left"] []) =
  Ret "b" (mkWorld ∅ ["left"]
             ["Pick:" +:+ NL; "  a) first" +:+ NL; "  b) second" +:+ NL; "Enter choice: ";
              "Invalid choice, please try again." +:+ NL +:+ NL;
              "Pick:" +:+ NL; "  a) first" +:+ NL; "  b) second" +:+ NL; "Enter choice: "]).
Proof. vm_compute. reflexivity. Qed.

Example prompt_with_default_blank :
  value_of (prompt_with_default "Name" "flask_project" (mkWorld ∅ ["   "] [])) =
    Some "flask_project" /\
  value_of (prompt_with_default "Name" "flask_project" (mkWorld ∅ ["  my app "] [])) =
    Some "my app".
Proof. split; reflexivity. Qed.

Example detect_platform_plain_linux :
  detect_platform linux_host (mkWorld home_tree [] []) = Ret "linux" (mkWorld home_tree [] []).
Proof. reflexivity. Qed.

(** ** The text of the two manifests

    Both templates start at the first column of their first line, so
    [textwrap.dedent] finds no margin to remove: every later line keeps the
    eight spaces (twelve for the author) it has in the script. *)

Definition nl_free (s : string) : bool := all_chars (fun c => negb (is_nl c)) s.

(** [_whitespace_only_re.sub('', line)] *)
Definition blank_to_empty (l : string) : string :=
  if all_chars is_blank l then EmptyString else l.

Lemma all_chars_app (p : ascii -> bool) (a b : string) :
  all_chars p (a +:+ b) = all_chars p a && all_chars p b.
Proof.
  induction a as [|c a IH]; [reflexivity|].
  rewrite append_cons. cbn [all_chars]. rewrite IH. now rewrite andb_assoc.
Qed.

Lemma nl_free_app (a b : string) : nl_free (a +:+ b) = nl_free a && nl_free b.
Proof. apply all_chars_app. Qed.

Lemma split_on_nl_free (x : string) : nl_free x = true -> split_on nl x = [x].
Proof.
  induction x as [|c x IH]; [reflexivity|].
  unfold nl_free. cbn [all_chars split_on]. intros H. apply andb_prop in H as [Hc H].
  rewrite bool_decide_eq_false_2.
  - now rewrite (IH H).
  - intros ->. discriminate Hc.
Qed.

Lemma split_on_line (x rest : string) :
  nl_free x = true -> split_on nl (x +:+ NL +:+ rest) = x :: split_on nl rest.
Proof.
  induction x as [|c x IH]; intros H.
  - rewrite append_nil_l. unfold NL. rewrite append_cons, append_nil_l.
    cbn [split_on]. now rewrite bool_decide_eq_true_2.
  - unfold nl_free in H. cbn [all_chars] in H. apply andb_prop in H as [Hc H].
    rewrite append_cons. cbn [split_on].
    rewrite bool_decide_eq_false_2 by (intros ->; discriminate Hc).
    now rewrite (IH H).
Qed.

Lemma join_cons2 (sep x y : string) (l : list string) :
  join sep (x :: y :: l) = x +:+ sep +:+ join sep (y :: l).
Proof. reflexivity. Qed.

(** Lines without a newline, joined and split again. *)
Lemma split_on_join (ls : list string) :
  ls <> [] -> forallb nl_free ls = true -> split_on nl (join NL ls) = ls.
Proof.
  induction ls as [|x [|y ls] IH]; intros Hne H; [congruence| |].
  - cbn [forallb] in H. apply andb_prop in H as [H _]. now apply split_on_nl_free.
  - rewrite join_cons2. cbn [forallb] in H. apply andb_prop in H as [Hx H].
    rewrite split_on_line by exact Hx. f_equal. now apply IH.
Qed.

Lemma margin_stays_empty (indents : list string) :
  fold_left margin_step indents (Some EmptyString) = Some EmptyString.
Proof.
  induction indents as [|i indents IH]; [reflexivity|].
  cbn [fold_left margin_step]. destruct i; exact IH.
Qed.

(** A text whose first line starts at the first column has no margin:
    [dedent] only empties its lines of white space. *)
Lemma dedent_flush_left (c : ascii) (l : string) (ls : list string) :
  is_blank c = false ->
  forallb nl_free (String c l :: ls) = true ->
  dedent (join NL (String c l :: ls)) = join NL (map blank_to_empty (String c l :: ls)).
Proof.
  intros Hc Hn. unfold dedent. rewrite split_on_join by (congruence || exact Hn).
  change (map (fun l0 => if all_chars is_blank l0 then EmptyString else l0))
    with (map blank_to_empty).
  assert (Hb : blank_to_empty (String c l) = String c l).
  { unfold blank_to_empty. cbn [all_chars]. now rewrite Hc. }
  cbn [map]. rewrite !Hb.
  rewrite filter_cons_True by discriminate.
  cbn [map leading_blank fold_left margin_step]. rewrite Hc.
  now rewrite margin_stays_empty.
Qed.

Lemma join_snoc (sep : string) (ls : list string) (x : string) :
  ls <> [] -> join sep (ls ++ [x]) = join sep ls +:+ sep +:+ x.
Proof.
  induction ls as [|a [|b ls] IH]; intros Hne; [congruence|reflexivity|].
  change ((a :: b :: ls) ++ [x]) with (a :: b :: (ls ++ [x])).
  rewrite !join_cons2. change (b :: ls ++ [x]) with ((b :: ls) ++ [x]).
  rewrite IH by discriminate. now rewrite !append_assoc.
Qed.

Lemma last_char_app (a b : string) :
  b <> EmptyString -> last_char (a +:+ b) = last_char b.
Proof.
  intros Hb. induction a as [|c a IH]; [reflexivity|].
  rewrite append_cons. cbn [last_char]. rewrite IH.
  destruct (a +:+ b) eqn:E; [|reflexivity].
  destruct a, b; try discriminate; congruence.
Qed.

(** A text of lines that ends in one newline, after a line that does not
    end in one, is what [write_text] writes of it. *)
Lemma written_lines (ls : list string) (x : string) :
  ls <> [] -> x <> EmptyString -> last_char x <> Some nl ->
  rstrip_nl (join NL (ls ++ [x; EmptyString])) +:+ NL = join NL (ls ++ [x]) +:+ NL.
Proof.
  intros Hne Hx Hl.
  change (ls ++ [x; EmptyString]) with (ls ++ [x] ++ [EmptyString]).
  rewrite app_assoc, join_snoc by (destruct ls; discriminate).
  rewrite append_empty_r, rstrip_nl_app_nl; [reflexivity|].
  rewrite join_snoc by exact Hne. rewrite <- append_assoc, last_char_app by exact Hx.
  exact Hl.
Qed.

(** *** [requirements.txt] *)

(** X20. [write_requirements] writes the ten package names one per line,
    the first at the first column and each of the other nine after eight
    spaces: the indentation of the script's literal is kept, since its
    first line gives [dedent] an empty margin. *)
Theorem requirements_text (h : Host) (root : Path) (w w' : World) :
  write_requirements h root w = Ret tt w' ->
  fs w' !! (root / "requirements.txt")%path =
    Some (File ("flask" +:+ NL +:+
                String.concat EmptyString
                  (map (fun package => "        " +:+ package +:+ NL)
                       ["python-dotenv"; "email-validator"; "flask-login";
                        "flask-migrate"; "flask-sqlalchemy"; "flask-moment";
                        "flask-mail"; "flask-wtf"; "pyjwt"]))
               false).
Proof.
  unfold write_requirements. intros H.
  rewrite (write_text_written h _ _ w w' (or_introl H)). reflexivity.
Qed.

(** *** [pyproject.toml] *)

(** [authors_field] *)
Definition authors_field (author_name author_email : string) : string :=
  if bool_decide (author_email = EmptyString)
  then "{name = " +:+ dq +:+ author_name +:+ dq +:+ "}"
  else "{name = " +:+ dq +:+ author_name +:+ dq +:+
       ", email = " +:+ dq +:+ author_email +:+ dq +:+ "}".

(** The lines of [pyproject.toml], as they are written. *)
Definition pyproject_lines (poetry_name poetry_version poetry_description
    author_name author_email requires_python : string) : list string :=
  ["[project]";
   "        name = " +:+ dq +:+ poetry_name +:+ dq;
   "        version = " +:+ dq +:+ poetry_version +:+ dq;
   "        description = " +:+ dq +:+ poetry_description +:+ dq;
   "        authors = [";
   "            " +:+ authors_field author_name author_email;
   "        ]";
   "        license = {file = " +:+ dq +:+ "LICENSE" +:+ dq +:+ "}";
   "        readme = " +:+ dq +:+ "README.md" +:+ dq;
   "        requires-python = " +:+ dq +:+ requires_python +:+ dq;
   "        dependencies = []";
   EmptyString;
   EmptyString;
   "        [build-system]";
   "        requires = [" +:+ dq +:+ "poetry-core>=2.0.0,<3.0.0" +:+ dq +:+ "]";
   "        build-backend = " +:+ dq +:+ "poetry.core.masonry.api" +:+ dq;
   EmptyString;
   "        [tool.poetry]";
   "        package-mode = false"].

Lemma pyproject_template (pn pv pd an ae rp : string) :
  pyproject pn pv pd (authors_field an ae) rp =
    dedent (join NL (pyproject_lines pn pv pd an ae rp ++ ["        "])).
Proof.
  unfold pyproject. f_equal. unfold pyproject_lines. cbn [app join].
  generalize (authors_field an ae). intros af.
  rewrite !append_assoc. vm_compute. reflexivity.
Qed.

Lemma nl_free_authors_field (an ae : string) :
  nl_free an = true -> nl_free ae = true -> nl_free (authors_field an ae) = true.
Proof.
  intros Ha He. unfold authors_field.
  destruct (bool_decide (ae = EmptyString)); rewrite !nl_free_app, Ha, ?He; reflexivity.
Qed.

Lemma pyproject_lines_nl_free (pn pv pd an ae rp : string) :
  forallb nl_free [pn; pv; pd; an; ae; rp] = true ->
  forallb nl_free (pyproject_lines pn pv pd an ae rp ++ ["        "]) = true.
Proof.
  cbn [forallb]. rewrite !andb_true_iff. intros (Hn & Hv & Hd & Ha & He & Hr & _).
  pose proof (nl_free_authors_field an ae Ha He) as Hf.
  unfold pyproject_lines. cbn [app forallb].
  rewrite !nl_free_app, Hn, Hv, Hd, Hf, Hr. reflexivity.
Qed.

Lemma pyproject_lines_blank (pn pv pd an ae rp : string) :
  map blank_to_empty (pyproject_lines pn pv pd an ae rp ++ ["        "]) =
    pyproject_lines pn pv pd an ae rp ++ [EmptyString].
Proof.
  unfold pyproject_lines, authors_field. cbn [app map].
  destruct (bool_decide (ae = EmptyString));
    unfold blank_to_empty; rewrite !all_chars_app; reflexivity.
Qed.

Lemma pyproject_dedent (pn pv pd an ae rp : string) :
  forallb nl_free [pn; pv; pd; an; ae; rp] = true ->
  dedent (join NL (pyproject_lines pn pv pd an ae rp ++ ["        "])) =
    join NL (pyproject_lines pn pv pd an ae rp ++ [EmptyString]).
Proof.
  intros Hn. rewrite <- pyproject_lines_blank.
  apply pyproject_lines_nl_free in Hn. revert Hn.
  change (pyproject_lines pn pv pd an ae rp ++ ["        "])
    with ("[project]" :: tail (pyproject_lines pn pv pd an ae rp ++ ["        "])).
  now apply dedent_flush_left.
Qed.

(** X21. The [pyproject.toml] that [write_poetry_files] writes, for answers
    that are single lines: the header [[project]] at the first column and
    every other line with the eight spaces it has in the script (twelve
    before the author), the answers between their quotes; the license line
    is the fixed reference to the LICENSE file, and the license identifier
    is nowhere in the text. *)
Theorem pyproject_text (h : Host) (root : Path)
    (pn pv pd an ae lic rp : string) (w w' : World) :
  forallb nl_free [pn; pv; pd; an; ae; rp] = true ->
  write_poetry_files h root pn pv pd an ae lic rp w = Ret tt w' ->
  fs w' !! (root / "pyproject.toml")%path =
    Some (File (join NL (pyproject_lines pn pv pd an ae rp) +:+ NL) false).
Proof.
  intros Hn H. unfold write_poetry_files in H.
  rewrite (write_text_written h _ _ w w' (or_introl H)).
  change (if bool_decide (ae = EmptyString) then _ else _) with (authors_field an ae).
  rewrite pyproject_template, (pyproject_dedent _ _ _ _ _ _ Hn).
  f_equal. f_equal.
  apply (written_lines
           ["[project]";
            "        name = " +:+ dq +:+ pn +:+ dq;
            "        version = " +:+ dq +:+ pv +:+ dq;
            "        description = " +:+ dq +:+ pd +:+ dq;
            "        authors = [";
            "            " +:+ authors_field an ae;
            "        ]";
            "        license = {file = " +:+ dq +:+ "LICENSE" +:+ dq +:+ "}";
            "        readme = " +:+ dq +:+ "README.md" +:+ dq;
            "        requires-python = " +:+ dq +:+ rp +:+ dq;
            "        dependencies = []";
            EmptyString;
            EmptyString;
            "        [build-system]";
            "        requires = [" +:+ dq +:+ "poetry-core>=2.0.0,<3.0.0" +:+ dq +:+ "]";
            "        build-backend = " +:+ dq +:+ "poetry.core.masonry.api" +:+ dq;
            EmptyString;
            "        [tool.poetry]"]
           "        package-mode = false"); discriminate.
Qed.

(** X20, witness: the manifest of [blog] in the empty home directory. *)
Lemma requirements_text_witness :
  fs (world_of (write_requirements linux_host (home linux_host ++ ["blog"])
                  (mkWorld home_tree [] [])))
    !! (home linux_host ++ ["blog"] / "requirements.txt")%path =
    Some (File ("flask" +:+ NL +:+
                String.concat EmptyString
                  (map (fun package => "        " +:+ package +:+ NL)
                       ["python-dotenv"; "email-validator"; "flask-login";
                        "flask-migrate"; "flask-sqlalchemy"; "flask-moment";
                        "flask-mail"; "flask-wtf"; "pyjwt"]))
               false).
Proof.
  apply (requirements_text linux_host (home linux_host ++ ["blog"])
           (mkWorld home_tree [] [])).
  apply ret_value. vm_compute. reflexivity.
Defined.

(** X21, witness: the answers of a small project, and an identifier that
    is not in the file. *)
Lemma pyproject_text_witness :
  fs (world_of (write_poetry_files linux_host (home linux_host ++ ["blog"])
                  "blog" "0.1.0" "A blog." "Ann" "ann@example.com" "GPL-3.0-only"
                  ">=3.10,<4.0" (mkWorld home_tree [] [])))
    !! (home linux_host ++ ["blog"] / "pyproject.toml")%path =
    Some (File (join NL (pyproject_lines "blog" "0.1.0" "A blog." "Ann" "ann@example.com"
                           ">=3.10,<4.0") +:+ NL) false) /\
  contains (join NL (pyproject_lines "blog" "0.1.0" "A blog." "Ann" "ann@example.com"
                       ">=3.10,<4.0")) "GPL" = false.
Proof.
  split; [|vm_compute; reflexivity].
  apply (pyproject_text linux_host (home linux_host ++ ["blog"])
           "blog" "0.1.0" "A blog." "Ann" "ann@example.com" "GPL-3.0-only" ">=3.10,<4.0"
           (mkWorld home_tree [] [])).
  - reflexivity.
  - apply ret_value. vm_compute. reflexivity.
Defined.

(** ** The exceptions of a run *)

(** The call raises no exception but those of [P]. *)
Definition raises_only (P : exn -> Prop) {A : Type} (m : M A) : Prop :=
  forall w e w', m w = Raise e w' -> P e.

Section Raising.
Context {A B : Type} (P : exn -> Prop).

Lemma raises_only_ret (a : A) : raises_only P (ret a).
Proof. intros w e w'. discriminate. Qed.

Lemma raises_only_sys_exit (c : Z) : raises_only P (@sys_exit A c).
Proof. intros w e w'. discriminate. Qed.

Lemma raises_only_raise (e : exn) : P e -> raises_only P (@raise A e).
Proof. intros He w e' w' [= <- _]. exact He. Qed.

Lemma raises_only_bind (m : M A) (k : A -> M B) :
  raises_only P m -> (forall a, raises_only P (k a)) -> raises_only P (bind m k).
Proof.
  intros Hm Hk w e w' H.
  apply bind_inv in H as [(a & w1 & _ & H)|[(c & w1 & _ & H)|(e1 & w1 & E & H)]];
    [now apply Hk in H | discriminate | injection H as -> _; now apply Hm in E].
Qed.

Lemma raises_only_if (b : bool) (m1 m2 : M A) :
  raises_only P m1 -> raises_only P m2 -> raises_only P (if b then m1 else m2).
Proof. now destruct b. Qed.

End Raising.

Lemma raises_only_weaken {A : Type} (P Q : exn -> Prop) (m : M A) :
  (forall e, P e -> Q e) -> raises_only P m -> raises_only Q m.
Proof. intros H Hm w e w' E. apply H. now apply Hm in E. Qed.

Lemma raises_only_print P s : raises_only P (print s).
Proof. intros w e w'. discriminate. Qed.

Lemma raises_only_path_exists P p : raises_only P (path_exists p).
Proof. intros w e w'. discriminate. Qed.

Lemma raises_only_input (P : exn -> Prop) p : P EOFError -> raises_only P (input p).
Proof.
  intros H w e w'. unfold input. destruct (stdin w); [|discriminate].
  now intros [= <- _].
Qed.

Lemma raises_only_iterdir_any (P : exn -> Prop) p : P OSError -> raises_only P (iterdir_any p).
Proof.
  intros H w e w'. unfold iterdir_any.
  destruct (fs w !! p) as [[]|]; try discriminate; now intros [= <- _].
Qed.

Lemma raises_only_mkdir_parents (P : exn -> Prop) p :
  P OSError -> raises_only P (mkdir_parents p).
Proof.
  intros H w e w'. unfold mkdir_parents.
  destruct (mkdir_chain _ _ _); [discriminate | now intros [= <- _]].
Qed.

Lemma raises_only_path_write_text (P : exn -> Prop) p s :
  P OSError -> raises_only P (path_write_text p s).
Proof.
  intros H w e w'. unfold path_write_text.
  destruct (fs w !! p) as [[|t []]|]; try discriminate; try (now intros [= <- _]).
  destruct (fs w !! parent p) as [[]|]; try discriminate; now intros [= <- _].
Qed.

Lemma raises_only_path_read_text (P : exn -> Prop) p :
  P OSError -> raises_only P (path_read_text p).
Proof.
  intros H w e w'. unfold path_read_text.
  destruct (fs w !! p) as [[]|]; try discriminate; now intros [= <- _].
Qed.

Create HintDb raising.
#[local] Hint Resolve raises_only_ret raises_only_sys_exit raises_only_print
  raises_only_path_exists : raising.

(** Splits a goal on [raises_only] along the calls of a function. *)
Ltac raising :=
  repeat first
    [ progress intros
    | solve [auto with raising]
    | apply raises_only_bind
    | apply raises_only_if
    | apply raises_only_input; solve [cbv; auto]
    | apply raises_only_iterdir_any; solve [cbv; auto]
    | apply raises_only_mkdir_parents; solve [cbv; auto]
    | apply raises_only_path_write_text; solve [cbv; auto]
    | apply raises_only_path_read_text; solve [cbv; auto]
    | apply raises_only_raise; solve [cbv; auto]
    | match goal with
      | |- raises_only _ (match ?x with _ => _ end) => destruct x
      | |- raises_only _ (let _ := _ in _) => cbv zeta
      end ].

(** The console calls run out of input and fail in no other way. *)
Definition is_eof (e : exn) : Prop := e = EOFError.
(** The file system calls fail with [OSError]. *)
Definition is_os_error (e : exn) : Prop := e = OSError.

Lemma eof_only_print_choices cs : raises_only is_eof (print_choices cs).
Proof. induction cs as [|[k l] cs IH]; cbn [print_choices]; raising. Qed.

Lemma eof_only_prompt_choice p cs : raises_only is_eof (prompt_choice p cs).
Proof.
  intros w e w'. unfold prompt_choice. rewrite (prompt_choice_loop_run _ _ _ _ eq_refl).
  destruct (drop _ _); [now intros [= <- _] | discriminate].
Qed.

Lemma eof_only_prompt_with_default p d : raises_only is_eof (prompt_with_default p d).
Proof. unfold prompt_with_default. raising. Qed.

Lemma eof_only_gate h : raises_only is_eof (gate h).
Proof.
  pose proof eof_only_prompt_choice.
  assert (forall o, raises_only is_eof (ensure_prereqs h o)).
  { intros o. unfold ensure_prereqs, show_prereq_instructions. raising. }
  unfold gate, menu, print_header. raising.
Qed.

Lemma eof_only_collect : raises_only is_eof collect.
Proof. pose proof eof_only_prompt_with_default. unfold collect. raising. Qed.

Lemma eof_only_poetry_metadata n d a : raises_only is_eof (poetry_metadata n d a).
Proof. pose proof eof_only_prompt_with_default. unfold poetry_metadata. raising. Qed.

Lemma raises_only_summary P r u : raises_only P (summary r u).
Proof. unfold summary. raising. Qed.

(** Input runs out, or the file system refuses. *)
Definition eof_or_os_error (e : exn) : Prop := e = EOFError \/ e = OSError.
(** Anything but the end of the input. *)
Definition not_eof (e : exn) : Prop := e = OSError \/ e = ValueError.

Section RaisingScript.
Variable h : Host.

Lemma not_eof_write_text p c : raises_only not_eof (write_text h p c).
Proof. unfold write_text. raising. Qed.

Lemma os_only_write_text_home rel c :
  raises_only is_os_error (write_text h (home h ++ rel) c).
Proof.
  unfold write_text.
  replace (relative_to (home h ++ rel) (home h)) with (Some rel)
    by (symmetry; now apply relative_to_Some).
  raising.
Qed.

Lemma not_eof_write_all root es : raises_only not_eof (write_all h root es).
Proof.
  pose proof not_eof_write_text.
  induction es as [|[segs text] es IH]; cbn [write_all]; raising.
Qed.

Lemma os_only_write_all rel es :
  forallb (fun e => forallb plain e.1) es = true ->
  raises_only is_os_error (write_all h (home h ++ rel) es).
Proof.
  induction es as [|[segs text] es IH]; cbn [write_all forallb fst]; intros Hp.
  - raising.
  - apply andb_prop in Hp as [Hs Hp].
    apply raises_only_bind; [|intros _; now apply IH].
    rewrite resolve_plain, <- app_assoc by exact Hs. apply os_only_write_text_home.
Qed.

Lemma not_eof_materialize root n d a u : raises_only not_eof (materialize h root n d a u).
Proof.
  intros w e w'. rewrite materialize_catalog, bind_print_at. apply not_eof_write_all.
Qed.

Lemma os_only_materialize rel n d a u :
  raises_only is_os_error (materialize h (home h ++ rel) n d a u).
Proof.
  intros w e w'. rewrite materialize_catalog, bind_print_at.
  apply os_only_write_all, catalog_plain.
Qed.

Lemma os_only_ensure_poetry_alias : raises_only is_os_error (ensure_poetry_alias h).
Proof.
  assert (raises_only is_os_error (detect_platform h)).
  { intros w e w' H. destruct (detect_platform_returns h w) as (s & E & _). congruence. }
  unfold ensure_poetry_alias. raising.
Qed.

Lemma ensure_project_dir_raises n : raises_only eof_or_os_error (ensure_project_dir h n).
Proof. unfold ensure_project_dir. raising. Qed.

(** The last step of the workflow, after its questions. *)
Lemma finalize_raises rel n d a u :
  raises_only eof_or_os_error (finalize h (home h ++ rel) n d a u).
Proof.
  assert (W : forall s c, plain s = true ->
                raises_only eof_or_os_error (write_text h ((home h ++ rel) / s)%path c)).
  { intros s c Hs. rewrite joinpath_plain, <- app_assoc by exact Hs.
    eapply raises_only_weaken; [|apply os_only_write_text_home]. intros e ->. now right. }
  assert (raises_only eof_or_os_error (ensure_poetry_alias h)).
  { eapply raises_only_weaken; [|apply os_only_ensure_poetry_alias]. intros e ->. now right. }
  assert (forall x y z, raises_only eof_or_os_error (poetry_metadata x y z)).
  { intros. eapply raises_only_weaken; [|apply eof_only_poetry_metadata].
    intros e ->. now left. }
  unfold finalize, write_poetry_files, write_requirements. raising.
Qed.

Lemma ensure_project_dir_eof n w w' :
  ensure_project_dir h n w = Raise EOFError w' -> fs w' = fs w.
Proof.
  unfold ensure_project_dir. cbv zeta. intros H.
  erewrite (bind_Ret_at (path_exists _)) in H by reflexivity.
  destruct (bool_decide _).
  - assert (S : fs_stable
                  ((nonempty <- iterdir_any (home h / n)%path ;;
                    if nonempty then
                      print (NL +:+ "Directory " +:+ to_str (home h / n)%path +:+
                             " already exists and is not empty.") ;;
                      answer <- input
                        "Do you want to abort and choose a different project name? [Y/n]: " ;;
                      (if bool_decide (lower (strip answer) ∈ [EmptyString; "y"; "yes"])
                       then sys_exit 1 else ret tt)
                    else print ("Using existing empty directory: " +:+
                                to_str (home h / n)%path)) ;;
                   ret (home h / n)%path)) by frame.
    specialize (S w). cbv zeta in H. rewrite H in S. exact S.
  - exfalso. revert H.
    assert (R : raises_only is_os_error
                  ((mkdir_parents (home h / n)%path ;;
                    print ("Created project directory: " +:+ to_str (home h / n)%path)) ;;
                   ret (home h / n)%path)) by raising.
    intros H. apply R in H. discriminate H.
Qed.

End RaisingScript.

(** In the model, whose file system calls raise [OSError] alone, a run
    that ends with [ValueError] was given an absolute project name. *)
Lemma value_error_absolute (h : Host) (w w' : World) :
  main h w = Raise ValueError w' ->
  exists option w1 project_name description author w2,
    gate h w = Ret option w1 /\
    collect w1 = Ret (project_name, description, author) w2 /\
    is_absolute (parse project_name) = true.
Proof.
  rewrite main_phases. unfold phases. intros H.
  apply bind_inv in H as [(o & w1 & Eg & H)|[(c & w1 & _ & H)|(e & w1 & Eg & H)]];
    [|discriminate|injection H as <- _; now apply eof_only_gate in Eg].
  apply bind_inv in H as [([[n d] a] & w2 & Ec & H)|[(c & w2 & _ & H)|(e & w2 & Ec & H)]];
    [|discriminate|injection H as <- _; now apply eof_only_collect in Ec].
  exists o, w1, n, d, a, w2. split; [exact Eg|]. split; [exact Ec|].
  destruct (is_absolute (parse n)) eqn:Ea; [reflexivity|]. exfalso.
  assert (Er : (home h / n)%path = home h ++ parse n).
  { unfold joinpath. cbv zeta. now rewrite Ea. }
  assert (R : raises_only eof_or_os_error
                (project_root <- ensure_project_dir h n ;;
                 materialize h project_root n d a (bool_decide (o = "1")) ;;
                 finalize h project_root n d a (bool_decide (o = "1")) ;;
                 summary project_root (bool_decide (o = "1")))).
  { intros w0 e w0' H0.
    apply bind_inv in H0 as [(r & w3 & Ed & H0)|[(c & w3 & _ & H0)|(e1 & w3 & Ed & H0)]];
      [|discriminate|injection H0 as <- _; now apply ensure_project_dir_raises in Ed].
    apply ensure_project_dir_returns in Ed. subst r. rewrite Er in H0. revert H0.
    assert (raises_only eof_or_os_error
              (materialize h (home h ++ parse n) n d a (bool_decide (o = "1")))).
    { eapply raises_only_weaken; [|apply os_only_materialize]. intros x ->. now right. }
    pose proof (finalize_raises h (parse n) n d a (bool_decide (o = "1"))).
    pose proof (raises_only_summary eof_or_os_error).
    revert w3 e w0'.
    change (raises_only eof_or_os_error
              (materialize h (home h ++ parse n) n d a (bool_decide (o = "1")) ;;
               finalize h (home h ++ parse n) n d a (bool_decide (o = "1")) ;;
               summary (home h ++ parse n) (bool_decide (o = "1")))).
    raising. }
  apply R in H. destruct H; discriminate.
Qed.


(** X23. When [main] runs out of input, either nothing was written yet, or
    the Poetry workflow was at its questions: then the whole scaffold is in
    the project directory already, and [pyproject.toml] is as it was before
    the run (it is not written), for a project directory that the operating
    system takes as it is written ([canonical]). *)
Theorem main_out_of_input (h : Host) (w w' : World) :
  main h w = Raise EOFError w' ->
  fs w' = fs w \/
  exists w1 project_name description author w2,
    gate h w = Ret "1" w1 /\
    collect w1 = Ret (project_name, description, author) w2 /\
    (forall segs text,
        In (segs, text) (catalog project_name description author) ->
        fs w' !! ((home h / project_name)%path ++ segs) =
          Some (File (rstrip_nl text +:+ NL) false)) /\
    (canonical (home h / project_name)%path = true ->
     fs w' !! ((home h / project_name)%path ++ ["pyproject.toml"]) =
       fs w !! ((home h / project_name)%path ++ ["pyproject.toml"])).
Proof.
  rewrite main_phases. unfold phases. intros H.
  pose proof (fs_stable_gate h w) as Sg.
  apply bind_inv in H as [(o & w1 & Eg & H)|[(c & w1 & _ & H)|(e & w1 & Eg & H)]];
    [|discriminate|injection H as <- <-; rewrite Eg in Sg; now left].
  rewrite Eg in Sg. cbn [world_of] in Sg.
  pose proof (fs_stable_collect w1) as Sc.
  apply bind_inv in H as [([[n d] a] & w2 & Ec & H)|[(c & w2 & _ & H)|(e & w2 & Ec & H)]];
    [|discriminate|injection H as <- <-; rewrite Ec in Sc; left; cbn in Sc; congruence].
  rewrite Ec in Sc. cbn [world_of] in Sc.
  apply bind_inv in H as [(r & w3 & Ed & H)|[(c & w3 & _ & H)|(e & w3 & Ed & H)]];
    [|discriminate|injection H as <- <-; apply ensure_project_dir_eof in Ed; left; congruence].
  apply ensure_project_dir_returns in Ed as Er. subst r. cbv zeta in H.
  apply bind_inv in H as [([] & w4 & Em & H)|[(c & w4 & _ & H)|(e & w4 & Em & H)]];
    [|discriminate|injection H as <- _; apply not_eof_materialize in Em;
                   destruct Em; discriminate].
  destruct (bool_decide (o = "1")) eqn:Eo.
  - apply bool_decide_eq_true in Eo. subst o. right.
    exists w1, n, d, a, w2. split; [exact Eg|]. split; [exact Ec|].
    assert (F : fs w' = fs w4).
    { apply bind_inv in H as [([] & w5 & Ef & H)|[(c & w5 & _ & H)|(e & w5 & Ef & H)]];
        [exfalso; revert H; apply raises_only_summary with (P := fun _ => False)
        |discriminate|].
      injection H as <- <-. unfold finalize in Ef.
      apply bind_inv in Ef as [(md & w6 & _ & Ef)|[(c & w6 & _ & Ef)|(e & w6 & Ep & Ef)]];
        [|discriminate|].
      - exfalso. destruct md as [[[[[[pn pv] pd] an] ae] lic] rp]. revert Ef.
        assert (R : raises_only not_eof
                      (write_poetry_files h (home h / n)%path pn pv pd an ae lic rp ;;
                       ensure_poetry_alias h)).
        { pose proof (not_eof_write_text h).
          assert (raises_only not_eof (ensure_poetry_alias h)).
          { eapply raises_only_weaken; [|apply os_only_ensure_poetry_alias].
            intros x ->. now left. }
          unfold write_poetry_files. raising. }
        intros Ef. apply R in Ef. destruct Ef; discriminate.
      - injection Ef as <- <-.
        pose proof (fs_stable_poetry_metadata n d a w4) as Sp.
        rewrite Ep in Sp. exact Sp. }
    rewrite F. split.
    + exact (materialize_files _ _ _ _ _ _ _ _ Em).
    + intros _. rewrite <- Sg, <- Sc.
      pose proof (outside_ensure_project_dir h n w2
                    ((home h / n)%path ++ ["pyproject.toml"])) as K1.
      rewrite Ed in K1. cbn [world_of] in K1.
      rewrite <- K1 by apply not_prefix_of_shorter.
      rewrite materialize_catalog, bind_print_at in Em.
      match type of Em with
      | write_all _ _ _ ?w0 = _ =>
          pose proof (outside_write_all h (home h / n)%path (catalog n d a)
                        (catalog_plain n d a) w0
                        ((home h / n)%path ++ ["pyproject.toml"])) as K2
      end.
      rewrite Em in K2. cbn [world_of emits fs] in K2. apply K2.
      now apply not_in_catalog_outside.
  - exfalso.
    apply bind_inv in H as [([] & w5 & Ef & H)|[(c & w5 & _ & H)|(e & w5 & Ef & H)]];
      [revert H; apply raises_only_summary with (P := fun _ => False)|discriminate|].
    injection H as <- _. unfold finalize, write_requirements in Ef.
    apply not_eof_write_text in Ef. destruct Ef; discriminate.
Qed.

Definition exn_of {A} (r : Res A) : option exn :=
  match r with
  | Raise e _ => Some e
  | _ => None
  end.

Lemma raise_value {A} (r : Res A) (e : exn) : exn_of r = Some e -> r = Raise e (world_of r).
Proof. destruct r; cbn; congruence. Qed.

(** The requirements workflow with the project name [/srv/x]. *)
Definition srv_run : World := mkWorld home_tree ["2"; "/srv/x"; ""; ""] [].


(** X23, witness: the Poetry workflow for [blog], with no answer left for
    its questions. *)
Lemma main_out_of_input_witness :
  fs (world_of (main linux_host (mkWorld home_tree ["1"; "blog"; ""; ""] []))) = home_tree \/
  exists w1 project_name description author w2,
    gate linux_host (mkWorld home_tree ["1"; "blog"; ""; ""] []) = Ret "1" w1 /\
    collect w1 = Ret (project_name, description, author) w2 /\
    (forall segs text,
        In (segs, text) (catalog project_name description author) ->
        fs (world_of (main linux_host (mkWorld home_tree ["1"; "blog"; ""; ""] []))) !!
          ((home linux_host / project_name)%path ++ segs) =
          Some (File (rstrip_nl text +:+ NL) false)) /\
    (canonical (home linux_host / project_name)%path = true ->
     fs (world_of (main linux_host (mkWorld home_tree ["1"; "blog"; ""; ""] []))) !!
       ((home linux_host / project_name)%path ++ ["pyproject.toml"]) =
       home_tree !! ((home linux_host / project_name)%path ++ ["pyproject.toml"])).
Proof.
  apply (main_out_of_input linux_host (mkWorld home_tree ["1"; "blog"; ""; ""] [])
           (world_of (main linux_host (mkWorld home_tree ["1"; "blog"; ""; ""] [])))).
  apply raise_value. vm_compute. reflexivity.
Defined.
